(** * FieldPro: location tracking and route recording

    A shallow embedding of the tracking core of [src/App.tsx] and of
    [calculateDistance] (the location service), followed by the properties
    proved about it.

    Numbers.  JavaScript numbers are modelled as exact rationals [Q]: the
    comparisons [<], [<=], [>=], [>] and [===] are the decidable ones of [Q],
    and [+], [-], [*] are exact.  Division by a computed divisor is the only
    operation of the tracking core that can leave the finite numbers
    ([x / 0] is [Infinity] or [NaN] in JavaScript), so it is modelled as a
    partial operation and the functions that use it return an [option];
    division by a non-zero literal is the division of [Q].  Rounding, [NaN]
    and the infinities are outside this model; the numeric functions whose
    properties depend on them are given a second time over binary64 floats
    ([Binary64]), to run the arithmetic of the code on concrete inputs.

    The functions of the [Math] object used by [calculateDistance] are taken
    as an interface ([MathLib]); the model is generic in it.

    React state and refs.  The component's state variables and refs are the
    fields of one record [App]; an event handler is a function on [App].  A
    ref that mirrors a state variable ([isTrackingRef], [activeRouteRef],
    [shopsRef], [areasRef]) is read as that state variable.  The two range
    sliders are [<input type="range">] elements: the value such an element
    reports is modelled by [rangeInput]. *)

From Stdlib Require Import QArith Qround Qminmax Qabs Lqa ZArith List Bool String.
From Stdlib Require Import PrimFloat.
From stdpp Require Import base option list sorting gmap strings.

Import ListNotations.

#[local] Set Warnings "-clear-no-such-hyp,-inexact-float".

#[local] Open Scope Q_scope.
#[local] Open Scope string_scope.
#[local] Open Scope list_scope.

(* ===================================================================== *)
(** ** Numbers *)
(* ===================================================================== *)

Module Num.

(** [x < y] *)
Definition ltb (x y : Q) : bool := negb (Qle_bool y x).

(** [x <= y] *)
Definition leb (x y : Q) : bool := Qle_bool x y.

(** [x >= y] *)
Definition geb (x y : Q) : bool := Qle_bool y x.

(** [x > y] *)
Definition gtb (x y : Q) : bool := negb (Qle_bool x y).

(** [x / y], undefined when the divisor is zero. *)
Definition div (x y : Q) : option Q :=
  if Qeq_bool y 0 then None else Some (x / y).

(** [x || d] on numbers: zero is the falsy number. *)
Definition or_default (x d : Q) : Q :=
  if Qeq_bool x 0 then d else x.

End Num.

(** [s || d] on a possibly undefined string: [undefined] and the empty
    string are falsy. *)
Definition string_or (s : option string) (d : string) : string :=
  match s with
  | Some v => if String.eqb v "" then d else v
  | None => d
  end.

(** [!b] on an optional boolean field ([isArchived?: boolean]). *)
Definition not_flag (b : option bool) : bool :=
  match b with
  | Some true => false
  | _ => true
  end.

(** [Array.prototype.sort(compare)]: the sort is stable, and for a
    consistent comparison the result is the unique stable arrangement.  It
    is computed here by insertion from the right: an element goes in front
    of the first element it does not compare greater than, so that elements
    comparing equal keep their original order. *)
Fixpoint insertBy {A : Type} (compare : A -> A -> Q) (x : A) (l : list A) : list A :=
  match l with
  | [] => [x]
  | y :: l' =>
      if Qle_bool (compare x y) 0 then x :: y :: l'
      else y :: insertBy compare x l'
  end.

Definition sortBy {A : Type} (compare : A -> A -> Q) (l : list A) : list A :=
  foldr (insertBy compare) [] l.

(* ===================================================================== *)
(** ** Data model ([src/types.ts]) *)
(* ===================================================================== *)

Record GeoLocation := mkLoc {
  lat : Q;
  lng : Q;
  heading : option Q;
  speed : option Q
}.

Record Area := mkArea {
  area_id : string;
  area_name : string;
  area_assignedDay : option string;
  area_isArchived : option bool
}.

Record StopPoint := mkStop {
  stop_location : GeoLocation;
  stop_areaName : string;
  stopNumber : nat;
  stop_timestamp : Z
}.

Record Shop := mkShop {
  shop_id : string;
  shop_name : string;
  shop_ownerName : string;
  shop_phone : string;
  shop_subArea : option string;
  shop_photo : option string;
  shop_location : GeoLocation;
  shop_areaId : string;
  shop_createdAt : Z;
  shop_isArchived : option bool
}.

Record SalesRoute := mkRoute {
  route_id : string;
  route_date : string;
  route_day : option string;
  route_customAreaName : option string;
  route_areaId : string;
  path : list GeoLocation;
  stops : list StopPoint;
  startTime : Z;
  endTime : option Z;
  route_isArchived : option bool
}.

(** [{ ...shop, distance }] *)
Record ShopWithDistance := mkSWD {
  swd_shop : Shop;
  distance : Q
}.

(** The state of the proximity toast. *)
Record AlertInfo := mkAlert {
  show : bool;
  shopName : string;
  ownerName : string
}.

Record RouteSaveForm := mkForm {
  form_day : string;
  form_areaName : string
}.

(** [GeolocationPosition.coords] *)
Record Coords := mkCoords {
  latitude : Q;
  longitude : Q;
  accuracy : Q;
  coords_heading : option Q;
  coords_speed : option Q
}.

(* ===================================================================== *)
(** ** The Kalman filter ([applyKalmanFilter]) *)
(* ===================================================================== *)

Record KalmanState := mkKalman {
  kalman_lat : Q;
  kalman_lng : Q;
  variance : Q
}.

(** [useRef({ lat: 0, lng: 0, variance: -1 })] *)
Definition kalmanInitial : KalmanState := mkKalman 0 0 (-1).

(** [const q = 0.000001] *)
Definition processNoise : Q := 1 # 1000000.

Definition applyKalmanFilter (state : KalmanState) (newLat newLng accuracy : Q)
  : option (KalmanState * GeoLocation) :=
  if Num.ltb (variance state) 0 then
    Some (mkKalman newLat newLng (accuracy * accuracy),
          mkLoc newLat newLng None None)
  else
    let q := processNoise in
    let r := accuracy * accuracy in
    let variance1 := variance state + q in
    k ← Num.div variance1 (variance1 + r);
    let lat1 := kalman_lat state + k * (newLat - kalman_lat state) in
    let lng1 := kalman_lng state + k * (newLng - kalman_lng state) in
    let variance2 := (1 - k) * variance1 in
    Some (mkKalman lat1 lng1 variance2, mkLoc lat1 lng1 None None).

(** The accuracy handed to the filter by the position callback:
    [pos.coords.accuracy || 10]. *)
Definition effectiveAccuracy (c : Coords) : Q := Num.or_default (accuracy c) 10.

(** The variance after a run of updates, all at one accuracy. *)
Fixpoint varianceTrace (state : KalmanState) (measurements : list (Q * Q)) (accuracy : Q)
  : list Q :=
  match measurements with
  | [] => []
  | (la, lo) :: rest =>
      match applyKalmanFilter state la lo accuracy with
      | Some (state1, _) => variance state1 :: varianceTrace state1 rest accuracy
      | None => []
      end
  end.

(* ===================================================================== *)
(** ** Distance ([calculateDistance], the location service) *)
(* ===================================================================== *)

(** The part of the JavaScript [Math] object that the distance uses. *)
Class MathLib := {
  Math_PI : Q;
  Math_sin : Q -> Q;
  Math_cos : Q -> Q;
  Math_sqrt : Q -> Q;
  Math_atan2 : Q -> Q -> Q
}.

Section Model.

Context {M : MathLib}.

(** The haversine formula, in metres. *)
Definition calculateDistance (loc1 loc2 : GeoLocation) : Q :=
  let R := 6371000 in
  let phi1 := (lat loc1 * Math_PI) / 180 in
  let phi2 := (lat loc2 * Math_PI) / 180 in
  let dphi := ((lat loc2 - lat loc1) * Math_PI) / 180 in
  let dlambda := ((lng loc2 - lng loc1) * Math_PI) / 180 in
  let a :=
    Math_sin (dphi / 2) * Math_sin (dphi / 2) +
    Math_cos phi1 * Math_cos phi2 * Math_sin (dlambda / 2) * Math_sin (dlambda / 2) in
  let c := 2 * Math_atan2 (Math_sqrt a) (Math_sqrt (1 - a)) in
  R * c.

(* ===================================================================== *)
(** ** Active records and proximity lookups *)
(* ===================================================================== *)

Definition activeAreas (areas : list Area) : list Area :=
  filter (fun a => not_flag (area_isArchived a) = true) areas.

(** [activeAreas.some(a => a.id === s.areaId)] *)
Definition hasArea (activeAreas : list Area) (s : Shop) : bool :=
  existsb (fun a => String.eqb (area_id a) (shop_areaId s)) activeAreas.

Definition activeShops (shops : list Shop) (activeAreas : list Area) : list Shop :=
  filter (fun s => not_flag (shop_isArchived s) && hasArea activeAreas s = true) shops.

Definition shopsWithDistances (activeShops : list Shop) (currentLocation : option GeoLocation)
  : list ShopWithDistance :=
  match currentLocation with
  | None => []
  | Some loc =>
      (fun shop => mkSWD shop (calculateDistance loc (shop_location shop))) <$> activeShops
  end.

(** [(a, b) => a.distance - b.distance] *)
Definition byDistance (a b : ShopWithDistance) : Q := distance a - distance b.

Definition nearbyShops (shopsWithDistances : list ShopWithDistance) (nearbyRange : Q)
  : list ShopWithDistance :=
  sortBy byDistance
    (filter (fun shop => Num.leb (distance shop) nearbyRange = true) shopsWithDistances).

Definition atShop (shopsWithDistances : list ShopWithDistance) (detectionRange : Q)
  : option ShopWithDistance :=
  let withinRange :=
    filter (fun shop => Num.leb (distance shop) detectionRange = true) shopsWithDistances in
  if Nat.eqb (length withinRange) 0 then None
  else head (sortBy byDistance withinRange).

(* ===================================================================== *)
(** ** Proximity alerts (the [forEach] of the position callback) *)
(* ===================================================================== *)

(** The argument of [setAlertInfo] when a shop is entered. *)
Definition enterAlert (shop : Shop) : AlertInfo :=
  mkAlert true (shop_name shop) (shop_ownerName shop).

(** One iteration of the [forEach]: the new alerted set, and the call of
    [setAlertInfo] made by the iteration, if any. *)
Definition checkShop (newLoc : GeoLocation) (alerted : gset string) (shop : Shop)
  : gset string * option AlertInfo :=
  let dist := calculateDistance newLoc (shop_location shop) in
  if Num.ltb dist 40 then
    if decide (shop_id shop ∈ alerted) then (alerted, None)
    else ({[shop_id shop]} ∪ alerted, Some (enterAlert shop))
  else if Num.gtb dist 100 then (alerted ∖ {[shop_id shop]}, None)
  else (alerted, None).

(** The whole [forEach]: the final alerted set and, iteration by iteration
    (one entry per shop, in registry order), the call of [setAlertInfo]
    made. *)
Fixpoint checkShops (newLoc : GeoLocation) (alerted : gset string) (shops : list Shop)
  : gset string * list (option AlertInfo) :=
  match shops with
  | [] => (alerted, [])
  | shop :: rest =>
      let '(alerted1, call) := checkShop newLoc alerted shop in
      let '(alerted2, calls) := checkShops newLoc alerted1 rest in
      (alerted2, call :: calls)
  end.

(** The alerts actually raised, in order. *)
Definition raised (calls : list (option AlertInfo)) : list AlertInfo :=
  omap id calls.

(** The toast state after the calls: the last call wins. *)
Definition lastAlert (old : AlertInfo) (calls : list (option AlertInfo)) : AlertInfo :=
  default old (last (raised calls)).

(** A run of location updates over a fixed registry: the final alerted set
    and the calls of each update. *)
Fixpoint checkShopsRun (locs : list GeoLocation) (alerted : gset string) (shops : list Shop)
  : gset string * list (list (option AlertInfo)) :=
  match locs with
  | [] => (alerted, [])
  | loc :: rest =>
      let '(alerted1, calls) := checkShops loc alerted shops in
      let '(alerted2, trace) := checkShopsRun rest alerted1 shops in
      (alerted2, calls :: trace)
  end.

(* ===================================================================== *)
(** ** Route recording (the tracking part of the position callback) *)
(* ===================================================================== *)

(** Path sampling: [path] after the update. *)
Definition samplePath (newLoc : GeoLocation) (path : list GeoLocation) : list GeoLocation :=
  let displacement :=
    match last path with
    | Some lastPoint => calculateDistance newLoc lastPoint
    | None => 100
    end in
  if Num.geb displacement 3 then path ++ [newLoc] else path.

(** [areasRef.current.find(a => a.id === areaId)] *)
Definition findArea (areas : list Area) (areaId : string) : option Area :=
  find (fun a => String.eqb (area_id a) areaId) areas.

(** The area label of a new stop. *)
Definition stopAreaName (newLoc : GeoLocation) (shops : list Shop) (areas : list Area) : string :=
  let shopsByD :=
    sortBy byDistance
      ((fun s => mkSWD s (calculateDistance newLoc (shop_location s))) <$> shops) in
  match head shopsByD with
  | Some near =>
      if Num.ltb (distance near) 100 then
        string_or (area_name <$> findArea areas (shop_areaId (swd_shop near))) "Point"
      else "Field Point"
  | None => "Field Point"
  end.

(** The recorder of a tracking session: the route being recorded, the dwell
    anchor ([lastStopCheckLocRef]) and the dwell counter
    ([staticTimeCounterRef]). *)
Record Recorder := mkRecorder {
  rec_route : SalesRoute;
  rec_anchor : option GeoLocation;
  rec_counter : nat
}.

Definition setPath (r : SalesRoute) (p : list GeoLocation) : SalesRoute :=
  mkRoute (route_id r) (route_date r) (route_day r) (route_customAreaName r)
    (route_areaId r) p (stops r) (startTime r) (endTime r) (route_isArchived r).

Definition setStops (r : SalesRoute) (s : list StopPoint) : SalesRoute :=
  mkRoute (route_id r) (route_date r) (route_day r) (route_customAreaName r)
    (route_areaId r) (path r) s (startTime r) (endTime r) (route_isArchived r).

(** The body of [if (isTrackingRef.current && activeRouteRef.current)]. *)
Definition recordUpdate (newLoc : GeoLocation) (now : Z) (shops : list Shop) (areas : list Area)
    (rc : Recorder) : Recorder :=
  let route1 := setPath (rec_route rc) (samplePath newLoc (path (rec_route rc))) in
  match rec_anchor rc with
  | Some anchor =>
      let staticDist := calculateDistance newLoc anchor in
      if Num.ltb staticDist 15 then
        let counter1 := S (rec_counter rc) in
        if Nat.eqb counter1 3 then
          let areaName := stopAreaName newLoc shops areas in
          let newStop := mkStop newLoc areaName (length (stops route1) + 1) now in
          mkRecorder (setStops route1 (stops route1 ++ [newStop])) (Some anchor) counter1
        else mkRecorder route1 (Some anchor) counter1
      else mkRecorder route1 (Some newLoc) 0
  | None => mkRecorder route1 (Some newLoc) (rec_counter rc)
  end.

(** A run of recorded updates, each with its clock reading. *)
Definition recordRun (updates : list (GeoLocation * Z)) (shops : list Shop) (areas : list Area)
    (rc : Recorder) : Recorder :=
  foldl (fun rc u => recordUpdate (fst u) (snd u) shops areas rc) rc updates.

(* ===================================================================== *)
(** ** The component: state, refs and event handlers *)
(* ===================================================================== *)

Record App := mkApp {
  shops : list Shop;
  areas : list Area;
  routes : list SalesRoute;
  detectionRange : Q;
  nearbyRange : Q;
  currentLocation : option GeoLocation;
  isTracking : bool;
  activeRoute : option SalesRoute;
  selectedAreaId : string;
  viewingRoute : option SalesRoute;
  alertInfo : AlertInfo;
  isSavingRoute : bool;
  routeSaveForm : RouteSaveForm;
  kalmanStateRef : KalmanState;
  alertedShopsRef : gset string;
  lastStopCheckLocRef : option GeoLocation;
  staticTimeCounterRef : nat
}.

(** The values the component derives from its state on every render. *)
Definition app_activeAreas (st : App) : list Area := activeAreas (areas st).

Definition app_activeShops (st : App) : list Shop :=
  activeShops (shops st) (app_activeAreas st).

Definition app_shopsWithDistances (st : App) : list ShopWithDistance :=
  shopsWithDistances (app_activeShops st) (currentLocation st).

Definition app_nearbyShops (st : App) : list ShopWithDistance :=
  nearbyShops (app_shopsWithDistances st) (nearbyRange st).

Definition app_atShop (st : App) : option ShopWithDistance :=
  atShop (app_shopsWithDistances st) (detectionRange st).

(** The callback of [navigator.geolocation.watchPosition], run on the fix
    [c] at clock reading [now].  Besides the new state it returns the calls
    of [setAlertInfo] made by the [forEach], one entry per active shop. *)
Definition watchCallback (c : Coords) (now : Z) (st : App)
  : option (App * list (option AlertInfo)) :=
  '(kalman1, smoothed) ←
    applyKalmanFilter (kalmanStateRef st) (latitude c) (longitude c) (effectiveAccuracy c);
  let newLoc := mkLoc (lat smoothed) (lng smoothed) (coords_heading c) (coords_speed c) in
  let '(alerted1, calls) := checkShops newLoc (alertedShopsRef st) (app_activeShops st) in
  let recording :=
    if isTracking st then
      match activeRoute st with
      | Some route =>
          Some (recordUpdate newLoc now (app_activeShops st) (app_activeAreas st)
                  (mkRecorder route (lastStopCheckLocRef st) (staticTimeCounterRef st)))
      | None => None
      end
    else None in
  Some (mkApp (shops st) (areas st) (routes st) (detectionRange st) (nearbyRange st)
          (Some newLoc)
          (isTracking st)
          (match recording with Some rc => Some (rec_route rc) | None => activeRoute st end)
          (selectedAreaId st) (viewingRoute st)
          (lastAlert (alertInfo st) calls)
          (isSavingRoute st) (routeSaveForm st)
          kalman1
          alerted1
          (match recording with Some rc => rec_anchor rc | None => lastStopCheckLocRef st end)
          (match recording with Some rc => rec_counter rc | None => staticTimeCounterRef st end),
        calls).

(** [currentLocation || { lat: 23.8103, lng: 90.4125 }] *)
Definition startLocation (st : App) : GeoLocation :=
  default (mkLoc (238103 # 10000) (904125 # 10000) None None) (currentLocation st).

(** [toggleTracking]; [newId] is the result of [generateId()], [today] of
    [new Date().toLocaleDateString()] and [now] of [Date.now()]. *)
Definition toggleTracking (newId today : string) (now : Z) (st : App) : App :=
  if negb (isTracking st) then
    let start := startLocation st in
    let newRoute :=
      mkRoute newId today None None
        (if negb (String.eqb (selectedAreaId st) "all") then selectedAreaId st else "General")
        [start] [] now None (Some false) in
    mkApp (shops st) (areas st) (routes st) (detectionRange st) (nearbyRange st)
      (currentLocation st) true (Some newRoute) (selectedAreaId st) None
      (alertInfo st) (isSavingRoute st) (routeSaveForm st)
      (mkKalman (lat start) (lng start) (-1))
      (alertedShopsRef st) (Some start) 0
  else
    mkApp (shops st) (areas st) (routes st) (detectionRange st) (nearbyRange st)
      (currentLocation st) false (activeRoute st) (selectedAreaId st) (viewingRoute st)
      (alertInfo st) true (mkForm "" "")
      (kalmanStateRef st) (alertedShopsRef st) (lastStopCheckLocRef st)
      (staticTimeCounterRef st).

(** The two inputs of the save form: [setRouteSaveForm(prev => ...)]. *)
Definition setFormDay (v : string) (st : App) : App :=
  mkApp (shops st) (areas st) (routes st) (detectionRange st) (nearbyRange st)
    (currentLocation st) (isTracking st) (activeRoute st) (selectedAreaId st) (viewingRoute st)
    (alertInfo st) (isSavingRoute st) (mkForm v (form_areaName (routeSaveForm st)))
    (kalmanStateRef st) (alertedShopsRef st) (lastStopCheckLocRef st)
    (staticTimeCounterRef st).

Definition setFormAreaName (v : string) (st : App) : App :=
  mkApp (shops st) (areas st) (routes st) (detectionRange st) (nearbyRange st)
    (currentLocation st) (isTracking st) (activeRoute st) (selectedAreaId st) (viewingRoute st)
    (alertInfo st) (isSavingRoute st) (mkForm (form_day (routeSaveForm st)) v)
    (kalmanStateRef st) (alertedShopsRef st) (lastStopCheckLocRef st)
    (staticTimeCounterRef st).

(** The route built by [confirmSaveRoute]; [today] is the result of
    [new Date().toLocaleDateString('en-GB', ...)]. *)
Definition finalRoute (r : SalesRoute) (form : RouteSaveForm) (today : string) (now : Z)
  : SalesRoute :=
  mkRoute (route_id r) today (Some (form_day form)) (Some (form_areaName form))
    (route_areaId r) (path r) (stops r) (startTime r) (Some now) (Some false).

Definition confirmSaveRoute (today : string) (now : Z) (st : App) : App :=
  match activeRoute st with
  | None => st
  | Some r =>
      mkApp (shops st) (areas st)
        (finalRoute r (routeSaveForm st) today now :: routes st)
        (detectionRange st) (nearbyRange st)
        (currentLocation st) (isTracking st) None (selectedAreaId st) None
        (alertInfo st) false (routeSaveForm st)
        (kalmanStateRef st) (alertedShopsRef st) (lastStopCheckLocRef st)
        (staticTimeCounterRef st)
  end.

(** The Discard button: [setIsSavingRoute(false); setActiveRoute(null)]. *)
Definition discardRoute (st : App) : App :=
  mkApp (shops st) (areas st) (routes st) (detectionRange st) (nearbyRange st)
    (currentLocation st) (isTracking st) None (selectedAreaId st) (viewingRoute st)
    (alertInfo st) false (routeSaveForm st)
    (kalmanStateRef st) (alertedShopsRef st) (lastStopCheckLocRef st)
    (staticTimeCounterRef st).

(** The state setters of the two radii.  Each has one call in the
    component, in the [onChange] of its slider (see [onDetectionRangeChange]
    and [onNearbyRangeChange] below). *)
Definition setDetectionRange (v : Q) (st : App) : App :=
  mkApp (shops st) (areas st) (routes st) v (nearbyRange st)
    (currentLocation st) (isTracking st) (activeRoute st) (selectedAreaId st) (viewingRoute st)
    (alertInfo st) (isSavingRoute st) (routeSaveForm st)
    (kalmanStateRef st) (alertedShopsRef st) (lastStopCheckLocRef st)
    (staticTimeCounterRef st).

Definition setNearbyRange (v : Q) (st : App) : App :=
  mkApp (shops st) (areas st) (routes st) (detectionRange st) v
    (currentLocation st) (isTracking st) (activeRoute st) (selectedAreaId st) (viewingRoute st)
    (alertInfo st) (isSavingRoute st) (routeSaveForm st)
    (kalmanStateRef st) (alertedShopsRef st) (lastStopCheckLocRef st)
    (staticTimeCounterRef st).

(** A run of the position callback over a sequence of fixes, each with its
    clock reading. *)
Fixpoint watchRun (fixes : list (Coords * Z)) (st : App) : option App :=
  match fixes with
  | [] => Some st
  | (c, now) :: rest => '(st1, _) ← watchCallback c now st; watchRun rest st1
  end.

End Model.

(** The initial value of a range: [saved ? Number(saved) : dflt], where
    [saved] is the number stored by a previous run, if any (what the
    component stores is described by [saveState] below). *)
Definition initialRange (saved : option Q) (dflt : Q) : Q :=
  match saved with
  | Some v => v
  | None => dflt
  end.

(** The component when it mounts. *)
Definition initialApp (shops : list Shop) (areas : list Area) (routes : list SalesRoute)
    (savedRange savedNearbyRange : option Q) : App :=
  mkApp shops areas routes (initialRange savedRange 1) (initialRange savedNearbyRange 20)
    None false None "all" None (mkAlert false "" "") false (mkForm "" "")
    kalmanInitial ∅ None 0.

(* ===================================================================== *)
(** ** An instance of the [Math] interface *)
(* ===================================================================== *)

(** A decimal instance, used to run the model on concrete inputs: results
    are cut to 30 decimal places, sine, cosine and arc tangent are their
    Taylor polynomials (adequate for the angles of short distances) and the
    square root is the integer square root at 30 decimal places. *)
Module DecimalMath.

Definition scale : positive := Pos.pow 10 30.

Definition cut (x : Q) : Q := Qfloor (x * (Zpos scale # 1)) # scale.

Definition PI : Q := 3141592653589793 # 1000000000000000.

Definition sin (x : Q) : Q :=
  let x2 := cut (x * x) in
  cut (x * (1 - x2 / 6 * (1 - x2 / 20 * (1 - x2 / 42)))).

Definition cos (x : Q) : Q :=
  let x2 := cut (x * x) in
  cut (1 - x2 / 2 * (1 - x2 / 12 * (1 - x2 / 30 * (1 - x2 / 56 * (1 - x2 / 90))))).

Definition sqrt (x : Q) : Q :=
  if Qle_bool x 0 then 0
  else Z.sqrt (Qfloor (x * (Zpos (scale * scale) # 1))) # scale.

Definition atan (t : Q) : Q :=
  let t2 := cut (t * t) in
  cut (t * (1 - t2 / 3 * (1 - t2 * 3 / 5 * (1 - t2 * 5 / 7)))).

Definition atan2 (y x : Q) : Q :=
  if Qle_bool x 0 then (if Qle_bool y 0 then 0 else PI / 2)
  else atan (cut (y / x)).

End DecimalMath.

Definition decimalMath : MathLib :=
  Build_MathLib DecimalMath.PI DecimalMath.sin DecimalMath.cos DecimalMath.sqrt
    DecimalMath.atan2.

(* ===================================================================== *)
(** ** Concrete data for the examples *)
(* ===================================================================== *)

Module Scenario.

(** The default start of a route. *)
Definition dhaka : GeoLocation := mkLoc (238103 # 10000) (904125 # 10000) None None.

(** The point [n] millionths of a degree (about [n * 0.11] metres) north
    of [dhaka]. *)
Definition north (n : Z) : GeoLocation :=
  mkLoc ((23810300 + n) # 1000000) (904125 # 10000) None None.

Definition fixAt (p : GeoLocation) : Coords := mkCoords (lat p) (lng p) 5 None None.

Definition unnamedArea : Area := mkArea "a1" "" (Some "Saturday") (Some false).

Definition uttara : Area := mkArea "a2" "Uttara" (Some "Sunday") None.

Definition oldTown : Area := mkArea "a3" "Old Town" (Some "Monday") (Some true).

Definition cornerShop : Shop :=
  mkShop "s1" "Rahim Store" "Rahim" "01700000000" None None dhaka "a1" 0 (Some false).

(** The same shop registered under another id. *)
Definition cornerShopAgain : Shop :=
  mkShop "s2" "Rahim Store" "Rahim" "01700000000" None None dhaka "a1" 0 (Some false).

Definition bazarShop : Shop :=
  mkShop "s3" "Bazar Traders" "Karim" "01800000000" None None (north 50) "a2" 0 None.

Definition closedShop : Shop :=
  mkShop "s4" "Closed Shop" "Salam" "01900000000" None None dhaka "a2" 0 (Some true).

Definition oldTownShop : Shop :=
  mkShop "s5" "Old Town Shop" "Jamal" "01600000000" None None dhaka "a3" 0 (Some false).

(** A recorder just started at [dhaka]. *)
Definition startedRecorder : Recorder :=
  mkRecorder
    (mkRoute "r1" "02/11/2026" None None "General" [dhaka] [] 0 None (Some false))
    (Some dhaka) 0.

End Scenario.

(* ===================================================================== *)
(** ** Saved routes, areas and visits (other handlers of the component) *)
(* ===================================================================== *)

Definition activeRoutes (routes : list SalesRoute) : list SalesRoute :=
  filter (fun r => not_flag (route_isArchived r) = true) routes.

(** [{ ...r, isArchived: true }] *)
Definition archiveRoute (r : SalesRoute) : SalesRoute :=
  mkRoute (route_id r) (route_date r) (route_day r) (route_customAreaName r)
    (route_areaId r) (path r) (stops r) (startTime r) (endTime r) (Some true).

(** [deleteRoute]; [confirmed] is the answer of [window.confirm]. *)
Definition deleteRoute (id : string) (confirmed : bool) (st : App) : App :=
  if confirmed then
    mkApp (shops st) (areas st)
      ((fun r => if String.eqb (route_id r) id then archiveRoute r else r) <$> routes st)
      (detectionRange st) (nearbyRange st)
      (currentLocation st) (isTracking st) (activeRoute st) (selectedAreaId st)
      (match viewingRoute st with
       | Some v => if String.eqb (route_id v) id then None else Some v
       | None => None
       end)
      (alertInfo st) (isSavingRoute st) (routeSaveForm st)
      (kalmanStateRef st) (alertedShopsRef st) (lastStopCheckLocRef st)
      (staticTimeCounterRef st)
  else st.

(** [{ ...a, isArchived: true }] *)
Definition archiveArea (a : Area) : Area :=
  mkArea (area_id a) (area_name a) (area_assignedDay a) (Some true).

(** [deleteArea]; [confirmed] is the answer of [window.confirm]. *)
Definition deleteArea (id : string) (confirmed : bool) (st : App) : App :=
  if confirmed then
    mkApp (shops st)
      ((fun a => if String.eqb (area_id a) id then archiveArea a else a) <$> areas st)
      (routes st) (detectionRange st) (nearbyRange st)
      (currentLocation st) (isTracking st) (activeRoute st)
      (if String.eqb (selectedAreaId st) id then "all" else selectedAreaId st)
      (viewingRoute st)
      (alertInfo st) (isSavingRoute st) (routeSaveForm st)
      (kalmanStateRef st) (alertedShopsRef st) (lastStopCheckLocRef st)
      (staticTimeCounterRef st)
  else st.

Record Visit := mkVisit {
  visit_shopId : string;
  visit_timestamp : Z;
  visit_date : string
}.

(** [v.shopId === shopId && v.date === todayIso] *)
Definition visitOf (shopId todayIso : string) (v : Visit) : bool :=
  String.eqb (visit_shopId v) shopId && String.eqb (visit_date v) todayIso.

Definition isVisitedToday (visits : list Visit) (todayIso shopId : string) : bool :=
  existsb (visitOf shopId todayIso) visits.

(** The state update of [toggleVisit]; [now] is the result of
    [Date.now()]. *)
Definition toggleVisit (shopId todayIso : string) (now : Z) (prev : list Visit) : list Visit :=
  if existsb (visitOf shopId todayIso) prev
  then filter (fun v => negb (visitOf shopId todayIso v) = true) prev
  else prev ++ [mkVisit shopId now todayIso].

(* ===================================================================== *)
(** ** Import ([mergeById] of [handleFileChange]) *)
(* ===================================================================== *)

(** A possibly undefined string inside a template literal. *)
Definition templateString (s : option string) : string := default "undefined" s.

(** [item.id || `${item.shopId}-${item.date}`] *)
Definition recordKey (id shopId date : option string) : string :=
  string_or id (templateString shopId ++ "-" ++ templateString date)%string.

Definition shopKey (s : Shop) : string := recordKey (Some (shop_id s)) None None.

Definition areaKey (a : Area) : string := recordKey (Some (area_id a)) None None.

Definition routeKey (r : SalesRoute) : string :=
  recordKey (Some (route_id r)) None (Some (route_date r)).

Definition visitKey (v : Visit) : string :=
  recordKey None (Some (visit_shopId v)) (Some (visit_date v)).

Definition mergeById {A : Type} (getKey : A -> string) (existing imported : list A) : list A :=
  let existingKeys : gset string := list_to_set (getKey <$> existing) in
  let newItems := filter (fun item => getKey item ∉ existingKeys) imported in
  existing ++ newItems.

(* ===================================================================== *)
(** ** The order cart ([addToCart], [updateCartQty], [cartSummary],
       [confirmOrder]) *)
(* ===================================================================== *)

Inductive ProductStatus := Active | Inactive.

Record Product := mkProduct {
  product_id : string;
  product_name : string;
  product_weight : option string;
  product_price : Q;
  product_discount : option Q;
  product_stock : Q;
  product_category : option string;
  product_status : ProductStatus;
  product_photo : option string;
  product_createdAt : Z;
  product_isArchived : option bool
}.

Record OrderItem := mkItem {
  item_productId : string;
  item_productName : string;
  item_price : Q;
  item_quantity : Q;
  item_discount : Q
}.

Record Dealer := mkDealer {
  dealer_id : string;
  dealer_companyName : string;
  dealer_dealerName : string;
  dealer_address : string;
  dealer_phone : string;
  dealer_description : string;
  dealer_createdAt : Z;
  dealer_isArchived : option bool
}.

Record Order := mkOrder {
  order_id : string;
  order_shopId : string;
  order_shopName : string;
  order_dealerId : option string;
  order_dealerName : option string;
  order_dealerProprietor : option string;
  order_dealerPhone : option string;
  order_dealerAddress : option string;
  order_dealerDescription : option string;
  order_signature : option string;
  order_items : list OrderItem;
  order_subtotal : Q;
  order_total : Q;
  order_timestamp : Z;
  order_date : string
}.

(** [x || d] on a possibly undefined number. *)
Definition number_or (x : option Q) (d : Q) : Q :=
  match x with
  | Some v => Num.or_default v d
  | None => d
  end.

(** [{ ...item, quantity: q }] *)
Definition setQuantity (item : OrderItem) (q : Q) : OrderItem :=
  mkItem (item_productId item) (item_productName item) (item_price item) q
    (item_discount item).

(** The state update of [addToCart]. *)
Definition addToCart (product : Product) (prev : list OrderItem) : list OrderItem :=
  match find (fun item => String.eqb (item_productId item) (product_id product)) prev with
  | Some _ =>
      (fun item =>
         if String.eqb (item_productId item) (product_id product)
         then setQuantity item (item_quantity item + 1)
         else item) <$> prev
  | None =>
      prev ++ [mkItem (product_id product) (product_name product) (product_price product) 1
                 (number_or (product_discount product) 0)]
  end.

(** The state update of [updateCartQty]. *)
Definition updateCartQty (productId : string) (delta : Q) (prev : list OrderItem)
  : list OrderItem :=
  filter (fun item => Num.gtb (item_quantity item) 0 = true)
    ((fun item =>
        if String.eqb (item_productId item) productId
        then setQuantity item (Qmax 0 (item_quantity item + delta))
        else item) <$> prev).

(** [calculateFinalPrice] *)
Definition calculateFinalPrice (price discount : Q) : Q :=
  price - (price * discount / 100).

Definition cartSubtotal (orderCart : list OrderItem) : Q :=
  foldl (fun acc item => acc + item_price item * item_quantity item) 0 orderCart.

Definition cartTotal (orderCart : list OrderItem) : Q :=
  foldl
    (fun acc item =>
       let discountedPrice := item_price item - (item_price item * item_discount item / 100) in
       acc + discountedPrice * item_quantity item)
    0 orderCart.

Inductive OrderTab := TabTaking | TabHistory.

(** The order screen: the state [confirmOrder] reads and writes. *)
Record OrderDesk := mkDesk {
  desk_products : list Product;
  desk_orders : list Order;
  desk_cart : list OrderItem;
  desk_shop : option Shop;
  desk_tab : OrderTab
}.

(** What [confirmOrder] reports: nothing (it returns at once), the failure
    alert naming a product, or the success alert. *)
Inductive OrderOutcome :=
| OrderIgnored
| OrderFailed (productName : string)
| OrderPlaced.

(** [{ ...p, stock: s }] *)
Definition setStock (p : Product) (s : Q) : Product :=
  mkProduct (product_id p) (product_name p) (product_weight p) (product_price p)
    (product_discount p) s (product_category p) (product_status p) (product_photo p)
    (product_createdAt p) (product_isArchived p).

Definition findProduct (products : list Product) (id : string) : option Product :=
  find (fun p => String.eqb (product_id p) id) products.

Definition findItem (orderCart : list OrderItem) (id : string) : option OrderItem :=
  find (fun item => String.eqb (item_productId item) id) orderCart.

(** The item [confirmOrder] rejects the order for. *)
Definition lacksStock (products : list Product) (item : OrderItem) : bool :=
  match findProduct products (item_productId item) with
  | None => true
  | Some prod => Num.ltb (product_stock prod) (item_quantity item)
  end.

(** [confirmOrder]; [newId] is the result of [generateId()] and [now] of
    [Date.now()]. *)
Definition confirmOrder (dealers : list Dealer) (newId : string) (now : Z) (todayIso : string)
    (desk : OrderDesk) : OrderDesk * OrderOutcome :=
  match desk_shop desk with
  | None => (desk, OrderIgnored)
  | Some orderShop =>
      if Nat.eqb (length (desk_cart desk)) 0 then (desk, OrderIgnored)
      else
        match find (lacksStock (desk_products desk)) (desk_cart desk) with
        | Some validationErrorItem => (desk, OrderFailed (item_productName validationErrorItem))
        | None =>
            let products1 :=
              (fun p =>
                 match findItem (desk_cart desk) (product_id p) with
                 | Some ordered => setStock p (Qmax 0 (product_stock p - item_quantity ordered))
                 | None => p
                 end) <$> desk_products desk in
            let activeDealer := find (fun d => not_flag (dealer_isArchived d)) dealers in
            let newOrder :=
              mkOrder newId (shop_id orderShop) (shop_name orderShop)
                (dealer_id <$> activeDealer)
                (Some (string_or (dealer_companyName <$> activeDealer) "Official Distributor"))
                (dealer_dealerName <$> activeDealer)
                (dealer_phone <$> activeDealer)
                (dealer_address <$> activeDealer)
                (dealer_description <$> activeDealer)
                None
                (desk_cart desk)
                (cartSubtotal (desk_cart desk)) (cartTotal (desk_cart desk))
                now todayIso in
            (mkDesk products1 (newOrder :: desk_orders desk) [] (desk_shop desk) TabHistory,
             OrderPlaced)
        end
  end.

(* ===================================================================== *)
(** ** Saving a product ([saveProduct]) *)
(* ===================================================================== *)

(** [Partial<Product>], the product being edited. *)
Record ProductDraft := mkDraft {
  draft_id : option string;
  draft_name : option string;
  draft_weight : option string;
  draft_price : option Q;
  draft_discount : option Q;
  draft_stock : option Q;
  draft_category : option string;
  draft_status : option ProductStatus;
  draft_photo : option string;
  draft_createdAt : option Z
}.

Section SaveProduct.

(** [String.prototype.trim] *)
Variable trim : string -> string.

(** The product [saveProduct] builds, if it accepts the draft: it returns
    at once without a draft, when the trimmed name is empty or missing, and
    when there is no price ([Number(undefined)] is [NaN]).  [newId] is the
    result of [generateId()] and [now] of [Date.now()]. *)
Definition finalProduct (newId : string) (now : Z) (editingProduct : option ProductDraft)
  : option Product :=
  match editingProduct with
  | None => None
  | Some draft =>
      let name := string_or (trim <$> draft_name draft) "" in
      let stock := number_or (draft_stock draft) 0 in
      let discount := number_or (draft_discount draft) 0 in
      match draft_price draft with
      | None => None
      | Some price =>
          if String.eqb name "" then None
          else
            Some (mkProduct
                    (string_or (draft_id draft) newId)
                    name
                    (Some (string_or (trim <$> draft_weight draft) ""))
                    (Qmax 0 price)
                    (Some (Qmin 100 (Qmax 0 discount)))
                    (Qmax 0 stock)
                    (Some (string_or (trim <$> draft_category draft) "General"))
                    (default Active (draft_status draft))
                    (draft_photo draft)
                    (match draft_createdAt draft with
                     | Some t => if Z.eqb t 0 then now else t
                     | None => now
                     end)
                    (Some false))
      end
  end.

(** The state update of [saveProduct] on the products. *)
Definition saveProduct (newId : string) (now : Z) (editingProduct : option ProductDraft)
    (prev : list Product) : list Product :=
  match finalProduct newId now editingProduct with
  | None => prev
  | Some final =>
      if existsb (fun p => String.eqb (product_id p) (product_id final)) prev
      then (fun p => if String.eqb (product_id p) (product_id final) then final else p) <$> prev
      else final :: prev
  end.

End SaveProduct.

(* ===================================================================== *)
(** ** The range sliders, the saved state and the events of a session *)
(* ===================================================================== *)

(** [<input type="range" min max step>]: the number the element reports
    when the value [requested] is asked of it.  The element keeps its value
    within [[min, max]] and on the grid [min + k * step]: a value below [min]
    becomes [min], a value above [max] becomes the last grid point not above
    [max], and any other value becomes the nearest grid point, the upper one
    when two are equally near. *)
Definition rangeInput (min max step requested : Q) : Q :=
  let inRange := Qmax min (Qmin max requested) in
  let k := Qfloor ((inRange - min) / step + (1 # 2)) in
  let kmax := Qfloor ((max - min) / step) in
  min + step * inject_Z (Z.min k kmax).

(** [<input type="range" min="1" max="50" ...
      onChange={(e) => setDetectionRange(Number(e.target.value))} />] *)
Definition onDetectionRangeChange (requested : Q) (st : App) : App :=
  setDetectionRange (rangeInput 1 50 1 requested) st.

(** [<input type="range" min="10" max="500" step="10" ...
      onChange={(e) => setNearbyRange(Number(e.target.value))} />] *)
Definition onNearbyRangeChange (requested : Q) (st : App) : App :=
  setNearbyRange (rangeInput 10 500 10 requested) st.

(** The state update of [handleFileChange] on the records of [App]: the
    [settings] of a backup file are not read. *)
Definition importFile (importedShops : list Shop) (importedAreas : list Area)
    (importedRoutes : list SalesRoute) (st : App) : App :=
  mkApp (mergeById shopKey (shops st) importedShops)
    (mergeById areaKey (areas st) importedAreas)
    (mergeById routeKey (routes st) importedRoutes)
    (detectionRange st) (nearbyRange st)
    (currentLocation st) (isTracking st) (activeRoute st) (selectedAreaId st) (viewingRoute st)
    (alertInfo st) (isSavingRoute st) (routeSaveForm st)
    (kalmanStateRef st) (alertedShopsRef st) (lastStopCheckLocRef st)
    (staticTimeCounterRef st).

(** The part of [localStorage] that holds the state of [App]; an absent
    key is [None]. *)
Record Storage := mkStorage {
  fieldpro_shops : option (list Shop);
  fieldpro_areas : option (list Area);
  fieldpro_routes : option (list SalesRoute);
  fieldpro_range : option Q;
  fieldpro_nearby_range : option Q
}.

(** The storage of a fresh installation. *)
Definition emptyStorage : Storage := mkStorage None None None None None.

(** The effect that saves the state: [localStorage.setItem('fieldpro_range',
    String(detectionRange))] and so on.  This is the only place where the
    keys are written. *)
Definition saveState (st : App) : Storage :=
  mkStorage (Some (shops st)) (Some (areas st)) (Some (routes st))
    (Some (detectionRange st)) (Some (nearbyRange st)).

(** The component mounting on a storage: the initialisers of [useState]. *)
Definition mountApp (saved : Storage) : App :=
  initialApp (default [] (fieldpro_shops saved)) (default [] (fieldpro_areas saved))
    (default [] (fieldpro_routes saved))
    (fieldpro_range saved) (fieldpro_nearby_range saved).

(** What can happen to the mounted component. *)
Inductive Event :=
  | PositionFix (c : Coords) (now : Z)
  | ToggleTracking (newId today : string) (now : Z)
  | SetFormDay (v : string)
  | SetFormAreaName (v : string)
  | ConfirmSaveRoute (today : string) (now : Z)
  | DiscardRoute
  | DeleteRoute (id : string) (confirmed : bool)
  | DeleteArea (id : string) (confirmed : bool)
  | ImportFile (importedShops : list Shop) (importedAreas : list Area)
      (importedRoutes : list SalesRoute)
  | DetectionSlider (requested : Q)
  | NearbySlider (requested : Q)
  | Reload.

Section Sessions.

Context {M : MathLib}.

(** The handler of an event.  [Reload] closes the page and opens it again:
    the component mounts on what the effect has saved. *)
Definition handleEvent (e : Event) (st : App) : option App :=
  match e with
  | PositionFix c now => fst <$> watchCallback c now st
  | ToggleTracking newId today now => Some (toggleTracking newId today now st)
  | SetFormDay v => Some (setFormDay v st)
  | SetFormAreaName v => Some (setFormAreaName v st)
  | ConfirmSaveRoute today now => Some (confirmSaveRoute today now st)
  | DiscardRoute => Some (discardRoute st)
  | DeleteRoute id confirmed => Some (deleteRoute id confirmed st)
  | DeleteArea id confirmed => Some (deleteArea id confirmed st)
  | ImportFile importedShops importedAreas importedRoutes =>
      Some (importFile importedShops importedAreas importedRoutes st)
  | DetectionSlider requested => Some (onDetectionRangeChange requested st)
  | NearbySlider requested => Some (onNearbyRangeChange requested st)
  | Reload => Some (mountApp (saveState st))
  end.

Fixpoint session (events : list Event) (st : App) : option App :=
  match events with
  | [] => Some st
  | e :: rest => st1 ← handleEvent e st; session rest st1
  end.

End Sessions.

(* ===================================================================== *)
(** ** The filter in the arithmetic of the code *)
(* ===================================================================== *)

(** JavaScript numbers are IEEE 754 binary64 values.  [Binary64] holds the
    filter once more, over the primitive binary64 floats, with the
    operations of the source in the order of the source; it is used to run
    the filter on concrete inputs where the arithmetic of doubles departs
    from exact arithmetic (overflow to [Infinity], [NaN]). *)
Module Binary64.

#[local] Set Warnings "-inexact-float".
#[local] Open Scope float_scope.

Record KalmanState := mkKalman {
  kalman_lat : float;
  kalman_lng : float;
  variance : float
}.

(** [useRef({ lat: 0, lng: 0, variance: -1 })] *)
Definition kalmanInitial : KalmanState := mkKalman 0 0 (-1).

Definition applyKalmanFilter (state : KalmanState) (newLat newLng accuracy : float)
  : KalmanState * (float * float) :=
  if variance state <? 0 then
    (mkKalman newLat newLng (accuracy * accuracy), (newLat, newLng))
  else
    let q := 0.000001 in
    let r := accuracy * accuracy in
    let variance1 := variance state + q in
    let k := variance1 / (variance1 + r) in
    let lat1 := kalman_lat state + k * (newLat - kalman_lat state) in
    let lng1 := kalman_lng state + k * (newLng - kalman_lng state) in
    let variance2 := (1 - k) * variance1 in
    (mkKalman lat1 lng1 variance2, (lat1, lng1)).

(** [pos.coords.accuracy || 10]: zero and [NaN] are the falsy numbers. *)
Definition effectiveAccuracy (accuracy : float) : float :=
  if is_zero accuracy || is_nan accuracy then 10 else accuracy.

(** [Number.isFinite] *)
Definition isFinite (x : float) : bool := negb (is_nan x || is_infinity x).

(** [calculateFinalPrice] *)
Definition calculateFinalPrice (price discount : float) : float :=
  price - (price * discount / 100).

End Binary64.

(* ===================================================================== *)
(** ** More concrete data *)
(* ===================================================================== *)

Module Samples.

Definition rice : Product :=
  mkProduct "p1" "Rice 5kg" (Some "5kg") 500 (Some 10) 8 (Some "Grocery") Active None 0
    (Some false).

Definition oil : Product :=
  mkProduct "p2" "Oil 1L" None 180 None 2 None Active None 0 None.

Definition visitMonday : Visit := mkVisit "s1" 100 "2026-11-02".

End Samples.

(* ===================================================================== *)
(** ** Vocabulary of the properties *)
(* ===================================================================== *)


(** A list of numbers that never goes up from one element to the next. *)
Definition nonincreasing (l : list Q) : Prop :=
  forall (i : nat) (a b : Q), l !! i = Some a -> l !! S i = Some b -> b <= a.

(** [m] is the first minimum of [l] for the numeric key [key]: an element
    of least key, with every element before it of strictly greater key. *)
Definition firstMin {A : Type} (key : A -> Q) (l : list A) (m : A) : Prop :=
  exists l1 l2,
    l = l1 ++ m :: l2 /\
    (forall y, y ∈ l1 -> key m < key y) /\
    (forall y, y ∈ l2 -> key m <= key y).

Section Vocabulary.

Context {M : MathLib}.

(** The nearest of the shops of [S] within [r] of [p], the first of them
    in registry order among equally near ones. *)
Definition nearestWithin (S : list Shop) (p : GeoLocation) (r : Q) (s : Shop) : Prop :=
  calculateDistance p (shop_location s) <= r /\
  exists l1 l2,
    S = l1 ++ s :: l2 /\
    (forall y, y ∈ l1 -> calculateDistance p (shop_location y) <= r ->
               calculateDistance p (shop_location s) < calculateDistance p (shop_location y)) /\
    (forall y, y ∈ l2 -> calculateDistance p (shop_location y) <= r ->
               calculateDistance p (shop_location s) <= calculateDistance p (shop_location y)).

(** The nearest shop of a registry, the first in registry order among
    equally near ones. *)
Definition nearestShop (S : list Shop) (p : GeoLocation) (s : Shop) : Prop :=
  firstMin (fun y => calculateDistance p (shop_location y)) S s.

(** A shop of the registry that is not archived and whose area is a
    non-archived area of the registry. *)
Definition isActiveShop (st : App) (s : Shop) : Prop :=
  s ∈ shops st /\
  shop_isArchived s <> Some true /\
  exists a, a ∈ areas st /\ area_isArchived a <> Some true /\ area_id a = shop_areaId s.

End Vocabulary.

(** The stock covers every entry of the cart. *)
Definition inStock (products : list Product) (cart : list OrderItem) : Prop :=
  forall item, item ∈ cart ->
    exists prod,
      findProduct products (item_productId item) = Some prod /\
      item_quantity item <= product_stock prod.

(** A cart entry with a price and a quantity that are not negative and a
    discount between 0 and 100 percent. *)
Definition itemOk (item : OrderItem) : Prop :=
  0 <= item_price item /\ 0 <= item_quantity item /\
  0 <= item_discount item /\ item_discount item <= 100.

(** A product with a price that is not negative and a discount, if any,
    between 0 and 100 percent. *)
Definition productOk (p : Product) : Prop :=
  0 <= product_price p /\
  match product_discount p with
  | Some d => 0 <= d /\ d <= 100
  | None => True
  end.

(* ===================================================================== *)
(** * Properties *)
(* ===================================================================== *)

(** ** Comparisons *)

Lemma ltb_lt (x y : Q) : Num.ltb x y = true <-> x < y.
Proof.
  unfold Num.ltb. rewrite negb_true_iff, <- not_true_iff_false, Qle_bool_iff.
  split; [apply Qnot_le_lt | apply Qlt_not_le].
Qed.

Lemma ltb_ge (x y : Q) : Num.ltb x y = false <-> y <= x.
Proof.
  unfold Num.ltb. rewrite negb_false_iff. apply Qle_bool_iff.
Qed.

Lemma gtb_gt (x y : Q) : Num.gtb x y = true <-> y < x.
Proof. apply (ltb_lt y x). Qed.

Lemma gtb_le (x y : Q) : Num.gtb x y = false <-> x <= y.
Proof. apply (ltb_ge y x). Qed.

Lemma leb_le (x y : Q) : Num.leb x y = true <-> x <= y.
Proof. apply Qle_bool_iff. Qed.

Lemma leb_gt (x y : Q) : Num.leb x y = false <-> y < x.
Proof.
  unfold Num.leb. rewrite <- not_true_iff_false, Qle_bool_iff.
  split; [apply Qnot_le_lt | apply Qlt_not_le].
Qed.

Lemma geb_ge (x y : Q) : Num.geb x y = true <-> y <= x.
Proof. apply Qle_bool_iff. Qed.

Lemma geb_lt (x y : Q) : Num.geb x y = false <-> x < y.
Proof. apply (leb_gt y x). Qed.

Lemma div_defined (x y : Q) : ~ y == 0 -> Num.div x y = Some (x / y).
Proof.
  intros Hy. unfold Num.div.
  destruct (Qeq_bool y 0) eqn:E; [|reflexivity].
  apply Qeq_bool_iff in E. contradiction.
Qed.

(** ** The Kalman filter *)

Lemma processNoise_pos : 0 < processNoise.
Proof. reflexivity. Qed.

Lemma square_nonneg (x : Q) : 0 <= x * x.
Proof. nra. Qed.

(** In the branch of an initialised state the divisor of the gain is
    positive. *)
Lemma gain_divisor_pos (v accuracy : Q) :
  0 <= v -> 0 < v + processNoise + accuracy * accuracy.
Proof.
  intros Hv. pose proof processNoise_pos. pose proof (square_nonneg accuracy). lra.
Qed.

Lemma applyKalmanFilter_first (state : KalmanState) (la lo accuracy : Q) :
  variance state < 0 ->
  applyKalmanFilter state la lo accuracy
  = Some (mkKalman la lo (accuracy * accuracy), mkLoc la lo None None).
Proof.
  intros Hv. unfold applyKalmanFilter.
  apply ltb_lt in Hv. rewrite Hv. reflexivity.
Qed.

Lemma applyKalmanFilter_next (state : KalmanState) (la lo accuracy : Q) :
  0 <= variance state ->
  let w := variance state + processNoise in
  let k := w / (w + accuracy * accuracy) in
  applyKalmanFilter state la lo accuracy
  = Some (mkKalman (kalman_lat state + k * (la - kalman_lat state))
                   (kalman_lng state + k * (lo - kalman_lng state))
                   ((1 - k) * w),
          mkLoc (kalman_lat state + k * (la - kalman_lat state))
                (kalman_lng state + k * (lo - kalman_lng state)) None None).
Proof.
  intros Hv w k. unfold applyKalmanFilter.
  apply ltb_ge in Hv. rewrite Hv. cbv zeta.
  rewrite div_defined; [reflexivity|].
  apply ltb_ge in Hv.
  pose proof (gain_divisor_pos _ accuracy Hv). lra.
Qed.

Lemma applyKalmanFilter_total (state : KalmanState) (la lo accuracy : Q) :
  is_Some (applyKalmanFilter state la lo accuracy).
Proof.
  destruct (Qlt_le_dec (variance state) 0) as [Hv|Hv].
  - rewrite applyKalmanFilter_first by exact Hv. eauto.
  - rewrite applyKalmanFilter_next by exact Hv. eauto.
Qed.

(** One update of an initialised state, in closed form: the new variance
    is [w * r / (w + r)] with [w = variance + q] and [r = accuracy^2]. *)
Lemma variance_step (v r : Q) :
  0 <= v -> 0 <= r ->
  let w := v + processNoise in
  (1 - w / (w + r)) * w == w * r / (w + r).
Proof.
  intros Hv Hr w. pose proof processNoise_pos.
  field. unfold w. lra.
Qed.

Lemma variance_step_nonneg (v r : Q) :
  0 <= v -> 0 <= r ->
  let w := v + processNoise in
  0 <= (1 - w / (w + r)) * w.
Proof.
  intros Hv Hr w. subst w.
  pose proof (variance_step v r Hv Hr) as E. cbv zeta in E. rewrite E.
  pose proof processNoise_pos.
  apply Qle_shift_div_l; [lra|]. nra.
Qed.

Lemma variance_step_le (v r : Q) :
  0 <= v -> 0 <= r ->
  processNoise * r <= v * (v + processNoise) ->
  let w := v + processNoise in
  (1 - w / (w + r)) * w <= v.
Proof.
  intros Hv Hr Hs w. subst w.
  pose proof (variance_step v r Hv Hr) as E. cbv zeta in E. rewrite E.
  pose proof processNoise_pos.
  apply Qle_shift_div_r; [lra|]. nra.
Qed.

Lemma variance_step_steady (v r : Q) :
  0 <= v -> 0 <= r ->
  processNoise * r <= v * (v + processNoise) ->
  let w := v + processNoise in
  let v1 := (1 - w / (w + r)) * w in
  processNoise * r <= v1 * (v1 + processNoise).
Proof.
  intros Hv Hr Hs w v1. pose proof processNoise_pos as Hq.
  assert (HD : 0 < w + r) by (unfold w; lra).
  assert (E : (v1 * (v1 + processNoise) - processNoise * r) * ((w + r) * (w + r))
              == r * r * (v * (v + processNoise) - processNoise * r)).
  { unfold v1, w. field. lra. }
  assert (H0 : 0 <= r * r * (v * (v + processNoise) - processNoise * r)).
  { apply Qmult_le_0_compat; [apply square_nonneg | lra]. }
  rewrite <- E in H0.
  assert (HDD : 0 < (w + r) * (w + r)) by nra.
  assert (0 <= v1 * (v1 + processNoise) - processNoise * r); [|lra].
  destruct (Qlt_le_dec (v1 * (v1 + processNoise) - processNoise * r) 0) as [Hn|Hn];
    [|exact Hn].
  exfalso. nra.
Qed.

(** A state at or above the steady state of an accuracy stays there, and
    its variance goes down, through any run of updates at that accuracy. *)
Lemma varianceTrace_steady (ms : list (Q * Q)) :
  forall (state : KalmanState) (accuracy : Q),
    0 <= variance state ->
    processNoise * (accuracy * accuracy) <= variance state * (variance state + processNoise) ->
    length (varianceTrace state ms accuracy) = length ms /\
    nonincreasing (variance state :: varianceTrace state ms accuracy).
Proof.
  induction ms as [|[la lo] ms IH]; intros state accuracy Hv Hs.
  - split; [reflexivity|]. intros [|i] a b Ha Hb; discriminate.
  - pose proof (square_nonneg accuracy) as Hr.
    cbn [varianceTrace]. rewrite applyKalmanFilter_next by exact Hv. cbv zeta.
    set (state1 := mkKalman _ _ _).
    destruct (IH state1 accuracy) as [Hlen Hmono].
    + apply variance_step_nonneg; assumption.
    + apply (variance_step_steady (variance state) (accuracy * accuracy)); assumption.
    + split; [cbn; congruence|].
      intros [|i] a b Ha Hb.
      * cbn in Ha, Hb. injection Ha as <-. injection Hb as <-.
        apply variance_step_le; assumption.
      * apply (Hmono i a b); assumption.
Qed.

(** The state left by a first update is at or above the steady state of
    the accuracy of that update. *)
Lemma first_update_steady (accuracy : Q) :
  processNoise * (accuracy * accuracy)
  <= accuracy * accuracy * (accuracy * accuracy + processNoise).
Proof.
  pose proof (square_nonneg accuracy). pose proof processNoise_pos. nra.
Qed.

(** C5.  Starting a tracking session resets the filter to the
    uninitialised state (variance -1); the first update after the reset
    stores the measurement with variance accuracy^2 and returns the
    measurement unchanged, both in [applyKalmanFilter] and through the
    position callback. *)
Theorem C5_reset_then_first_update (newId today : string) (now : Z) (st : App) {M : MathLib} :
  isTracking st = false ->
  let st1 := toggleTracking newId today now st in
  variance (kalmanStateRef st1) = -1 /\
  (forall la lo accuracy : Q,
      applyKalmanFilter (kalmanStateRef st1) la lo accuracy
      = Some (mkKalman la lo (accuracy * accuracy), mkLoc la lo None None)) /\
  (forall (c : Coords) (now1 : Z),
      exists st2 calls,
        watchCallback c now1 st1 = Some (st2, calls) /\
        kalmanStateRef st2
        = mkKalman (latitude c) (longitude c) (effectiveAccuracy c * effectiveAccuracy c) /\
        currentLocation st2
        = Some (mkLoc (latitude c) (longitude c) (coords_heading c) (coords_speed c))).
Proof.
  intros Hidle st1.
  assert (Hk : kalmanStateRef st1
               = mkKalman (lat (startLocation st)) (lng (startLocation st)) (-1)).
  { unfold st1, toggleTracking. rewrite Hidle. reflexivity. }
  assert (Hfirst : forall la lo accuracy : Q,
             applyKalmanFilter (kalmanStateRef st1) la lo accuracy
             = Some (mkKalman la lo (accuracy * accuracy), mkLoc la lo None None)).
  { intros. apply applyKalmanFilter_first. rewrite Hk. reflexivity. }
  split; [rewrite Hk; reflexivity|]. split; [exact Hfirst|].
  intros c now1. unfold watchCallback. rewrite Hfirst. cbn [mbind option_bind].
  destruct (checkShops _ _ _) as [alerted1 calls]. cbn.
  eexists _, _. split; [reflexivity|]. split; reflexivity.
Qed.

(** A filter left initialised by two fixes (variance about 12.5, estimate
    between the two fixes) is reset by the start of a session, and the fix
    that follows is stored and returned as it is. *)
Lemma C5_reset_then_first_update_witness :
  exists st : App,
    watchRun (M := decimalMath)
      [(Scenario.fixAt Scenario.dhaka, 0%Z); (Scenario.fixAt (Scenario.north 365), 1000%Z)]
      (initialApp [] [] [] None None) = Some st /\
    12 < variance (kalmanStateRef st) /\
    lat Scenario.dhaka < kalman_lat (kalmanStateRef st) /\
    kalman_lat (kalmanStateRef st) < lat (Scenario.north 365) /\
    isTracking st = false /\
    variance (kalmanStateRef (toggleTracking "r1" "02/11/2026" 2000 st)) = -1 /\
    applyKalmanFilter (kalmanStateRef (toggleTracking "r1" "02/11/2026" 2000 st))
      (lat (Scenario.north 900)) (lng (Scenario.north 900)) 3
    = Some (mkKalman (lat (Scenario.north 900)) (lng (Scenario.north 900)) (3 * 3),
            mkLoc (lat (Scenario.north 900)) (lng (Scenario.north 900)) None None) /\
    exists st2 calls,
      watchCallback (M := decimalMath) (Scenario.fixAt (Scenario.north 900)) 3000
        (toggleTracking "r1" "02/11/2026" 2000 st) = Some (st2, calls) /\
      kalmanStateRef st2
      = mkKalman (lat (Scenario.north 900)) (lng (Scenario.north 900)) (5 * 5) /\
      currentLocation st2 = Some (Scenario.north 900).
Proof.
  eexists. split; [vm_compute; reflexivity|].
  split; [vm_compute; reflexivity|].
  split; [vm_compute; reflexivity|].
  split; [vm_compute; reflexivity|].
  split; [reflexivity|].
  match goal with
  | |- variance (kalmanStateRef (toggleTracking _ _ _ ?st)) = _ /\ _ =>
      pose proof (C5_reset_then_first_update (M := decimalMath) "r1" "02/11/2026" 2000 st
                    eq_refl) as H
  end.
  cbv zeta in H. destruct H as [Hreset [Hfirst Hcallback]].
  split; [exact Hreset|].
  split; [exact (Hfirst (lat (Scenario.north 900)) (lng (Scenario.north 900)) 3)|].
  exact (Hcallback (Scenario.fixAt (Scenario.north 900)) 3000%Z).
Defined.

(** C9, amended.  In exact arithmetic the filter has no failure mode:
    for every state and every input, an accuracy of zero included,
    [applyKalmanFilter] returns a result, its one division having the
    positive divisor variance + 1e-6 + accuracy^2 in every initialised
    state.  No floor is applied to the accuracy: [applyKalmanFilter] uses it
    as given (an accuracy of zero leaves the variance zero), and the
    position callback replaces an accuracy of exactly zero by 10, passes
    every other accuracy on unchanged, and always returns a result. *)
Theorem C9_filter_total {M : MathLib} :
  (forall (state : KalmanState) (la lo accuracy : Q),
      exists state1 out, applyKalmanFilter state la lo accuracy = Some (state1, out)) /\
  (forall (state : KalmanState) (accuracy : Q),
      ~ variance state < 0 ->
      0 < variance state + processNoise + accuracy * accuracy) /\
  (forall (state : KalmanState) (la lo : Q),
      0 <= variance state ->
      exists state1 out,
        applyKalmanFilter state la lo 0 = Some (state1, out) /\ variance state1 == 0) /\
  (forall c : Coords, accuracy c == 0 -> effectiveAccuracy c = 10) /\
  (forall c : Coords, ~ accuracy c == 0 -> effectiveAccuracy c = accuracy c) /\
  (forall c : Coords, ~ effectiveAccuracy c == 0) /\
  (forall (c : Coords) (now : Z) (st : App), is_Some (watchCallback c now st)).
Proof.
  split; [|split; [|split; [|split; [|split; [|split]]]]].
  - intros state la lo accuracy.
    destruct (applyKalmanFilter_total state la lo accuracy) as [[state1 out] E]. eauto.
  - intros state accuracy Hv. apply gain_divisor_pos. apply Qnot_lt_le. exact Hv.
  - intros state la lo Hv.
    pose proof (applyKalmanFilter_next state la lo 0 Hv) as E. cbv zeta in E.
    eexists _, _. split; [exact E|]. cbn [variance].
    pose proof processNoise_pos. field. lra.
  - intros c Hc. unfold effectiveAccuracy, Num.or_default.
    apply Qeq_bool_iff in Hc. rewrite Hc. reflexivity.
  - intros c Hc. unfold effectiveAccuracy, Num.or_default.
    destruct (Qeq_bool (accuracy c) 0) eqn:E; [|reflexivity].
    apply Qeq_bool_iff in E. contradiction.
  - intros c. unfold effectiveAccuracy, Num.or_default.
    destruct (Qeq_bool (accuracy c) 0) eqn:E.
    + discriminate.
    + intros H. apply Qeq_bool_iff in H. congruence.
  - intros c now st. unfold watchCallback.
    destruct (applyKalmanFilter_total (kalmanStateRef st) (latitude c) (longitude c)
                (effectiveAccuracy c)) as [[kalman1 smoothed] E].
    rewrite E. cbn [mbind option_bind].
    destruct (checkShops _ _ _) as [alerted1 calls]. eauto.
Qed.

Lemma C9_filter_total_witness :
  effectiveAccuracy (mkCoords (238103 # 10000) (904125 # 10000) 0 None None) = 10 /\
  effectiveAccuracy (mkCoords (238103 # 10000) (904125 # 10000) (1 # 1000) None None)
  = 1 # 1000 /\
  0 < variance (mkKalman 0 0 0) + processNoise + 0 * 0 /\
  exists state1 out,
    applyKalmanFilter (mkKalman 0 0 25) 1 1 0 = Some (state1, out) /\ variance state1 == 0.
Proof.
  split; [|split; [|split]].
  - exact (proj1 (proj2 (proj2 (proj2 (C9_filter_total (M := decimalMath)))))
             (mkCoords (238103 # 10000) (904125 # 10000) 0 None None) (Qeq_refl 0)).
  - apply (proj1 (proj2 (proj2 (proj2 (proj2 (C9_filter_total (M := decimalMath))))))
             (mkCoords (238103 # 10000) (904125 # 10000) (1 # 1000) None None)).
    vm_compute. discriminate.
  - apply (proj1 (proj2 (C9_filter_total (M := decimalMath))) (mkKalman 0 0 0) 0).
    vm_compute. discriminate.
  - apply (proj1 (proj2 (proj2 (C9_filter_total (M := decimalMath)))) (mkKalman 0 0 25) 1 1).
    vm_compute. discriminate.
Defined.

(** C9, as stated, fails in the arithmetic of the code.  A fix whose
    accuracy is the finite number 1e200 passes the callback's fallback
    unchanged and is stored with the variance [Infinity] (its square
    overflows); the next fix, of accuracy 5, then gets the gain
    [Infinity / Infinity], and the filter returns [NaN] for both coordinates.
    Nor is an accuracy of zero treated as a small positive floor: the filter
    called with accuracy 0 uses 0 (the variance it leaves is 0, in doubles
    and in exact arithmetic), and the callback's replacement for 0 is 10,
    above accuracies it passes on as they are. *)
Lemma C9_counterexample_not_finite :
  Binary64.isFinite 1e200%float = true /\
  Binary64.effectiveAccuracy 1e200%float = 1e200%float /\
  is_infinity
    (Binary64.variance
       (Binary64.applyKalmanFilter Binary64.kalmanInitial 23.8103%float 90.4125%float
          (Binary64.effectiveAccuracy 1e200%float)).1) = true /\
  Binary64.isFinite
    (Binary64.applyKalmanFilter
       (Binary64.applyKalmanFilter Binary64.kalmanInitial 23.8103%float 90.4125%float
          (Binary64.effectiveAccuracy 1e200%float)).1
       23.8104%float 90.4126%float (Binary64.effectiveAccuracy 5%float)).2.1 = false /\
  Binary64.isFinite
    (Binary64.applyKalmanFilter
       (Binary64.applyKalmanFilter Binary64.kalmanInitial 23.8103%float 90.4125%float
          (Binary64.effectiveAccuracy 1e200%float)).1
       23.8104%float 90.4126%float (Binary64.effectiveAccuracy 5%float)).2.2 = false /\
  is_zero
    (Binary64.variance
       (Binary64.applyKalmanFilter (Binary64.mkKalman 0 0 25) 1%float 1%float 0%float).1)
  = true /\
  (exists state1 out,
      applyKalmanFilter (mkKalman 0 0 25) 1 1 0 = Some (state1, out) /\
      variance state1 == 0) /\
  effectiveAccuracy (mkCoords 0 0 0 None None) = 10 /\
  effectiveAccuracy (mkCoords 0 0 (1 # 1000) None None) = 1 # 1000.
Proof.
  do 6 (split; [vm_compute; reflexivity|]).
  split; [|split; reflexivity].
  eexists _, _. split; [reflexivity|]. vm_compute. reflexivity.
Qed.

(** C7, as stated, fails: a filter initialised by a fix of accuracy 1
    (variance 1) and then updated at the constant accuracy 1500 has a
    larger variance after the update than before. *)
Lemma C7_counterexample_variance_increases :
  applyKalmanFilter kalmanInitial 0 0 1 = Some (mkKalman 0 0 (1 * 1), mkLoc 0 0 None None) /\
  0 <= variance (mkKalman 0 0 (1 * 1)) /\
  ~ nonincreasing
      (variance (mkKalman 0 0 (1 * 1)) :: varianceTrace (mkKalman 0 0 (1 * 1)) [(0, 0)] 1500).
Proof.
  split; [reflexivity|]. split; [discriminate|].
  intros H.
  specialize (H 0%nat _ _ eq_refl eq_refl).
  vm_compute in H. apply H. reflexivity.
Qed.

(** C7, amended.  For every initialised filter state whose variance [v] is
    at or above the steady state of the accuracy, that is
    [q * accuracy^2 <= v * (v + q)] with [q] the process noise (this holds
    in particular for the state left by a first update at that accuracy),
    every run of updates at that constant accuracy is carried out in full
    and the variance after each update is at most the variance before
    it. *)
Theorem C7_variance_nonincreasing (state : KalmanState) (ms : list (Q * Q)) (accuracy : Q) :
  0 <= variance state ->
  processNoise * (accuracy * accuracy) <= variance state * (variance state + processNoise) ->
  length (varianceTrace state ms accuracy) = length ms /\
  nonincreasing (variance state :: varianceTrace state ms accuracy).
Proof. apply varianceTrace_steady. Qed.

Lemma C7_variance_nonincreasing_witness :
  length (varianceTrace (mkKalman 0 0 (10 * 10)) [(1, 1); (2, 2); (3, 3)] 10) = 3%nat /\
  nonincreasing
    (variance (mkKalman 0 0 (10 * 10))
       :: varianceTrace (mkKalman 0 0 (10 * 10)) [(1, 1); (2, 2); (3, 3)] 10).
Proof.
  apply (C7_variance_nonincreasing (mkKalman 0 0 (10 * 10)) [(1, 1); (2, 2); (3, 3)] 10).
  - vm_compute. discriminate.
  - vm_compute. discriminate.
Defined.

(** ** Sorting *)

Section Sorting.

Context {A : Type} (compare : A -> A -> Q).

Lemma head_insertBy (x : A) (l : list A) :
  head (insertBy compare x l)
  = match head l with
    | None => Some x
    | Some y => if Qle_bool (compare x y) 0 then Some x else Some y
    end.
Proof.
  destruct l as [|y l]; [reflexivity|].
  cbn. destruct (Qle_bool (compare x y) 0); reflexivity.
Qed.

Lemma head_sortBy_cons (x : A) (l : list A) :
  head (sortBy compare (x :: l))
  = match head (sortBy compare l) with
    | None => Some x
    | Some y => if Qle_bool (compare x y) 0 then Some x else Some y
    end.
Proof. apply head_insertBy. Qed.

Lemma insertBy_perm (x : A) (l : list A) : insertBy compare x l ≡ₚ x :: l.
Proof.
  induction l as [|y l IH]; [reflexivity|].
  cbn. destruct (Qle_bool (compare x y) 0); [reflexivity|].
  rewrite IH. apply Permutation_swap.
Qed.

Lemma sortBy_perm (l : list A) : sortBy compare l ≡ₚ l.
Proof.
  induction l as [|x l IH]; [reflexivity|].
  cbn. rewrite insertBy_perm. rewrite IH. reflexivity.
Qed.

Lemma elem_of_sortBy (x : A) (l : list A) : x ∈ sortBy compare l <-> x ∈ l.
Proof. rewrite sortBy_perm. reflexivity. Qed.

Lemma length_sortBy (l : list A) : length (sortBy compare l) = length l.
Proof. rewrite sortBy_perm. reflexivity. Qed.

End Sorting.

Lemma head_sortBy_firstMin {A : Type} (key : A -> Q) (l : list A) :
  match head (sortBy (fun a b => key a - key b) l) with
  | None => l = []
  | Some m => firstMin key l m
  end.
Proof.
  induction l as [|x l IH]; [reflexivity|].
  rewrite head_sortBy_cons.
  destruct (head (sortBy _ l)) as [m|].
  - destruct IH as (l1 & l2 & -> & H1 & H2).
    destruct (Qle_bool (key x - key m) 0) eqn:E.
    + apply Qle_bool_iff in E.
      exists [], (l1 ++ m :: l2). split; [reflexivity|]. split.
      * intros y Hy. inversion Hy.
      * intros y Hy. apply elem_of_app in Hy as [Hy|Hy].
        -- specialize (H1 y Hy). lra.
        -- apply elem_of_cons in Hy as [->|Hy]; [lra|].
           specialize (H2 y Hy). lra.
    + assert (key m < key x).
      { apply Qnot_le_lt. intros H.
        assert (Qle_bool (key x - key m) 0 = true) by (apply Qle_bool_iff; lra).
        congruence. }
      exists (x :: l1), l2. split; [reflexivity|]. split.
      * intros y Hy. apply elem_of_cons in Hy as [->|Hy]; [assumption|]. auto.
      * exact H2.
  - subst l. exists [], []. split; [reflexivity|].
    split; intros y Hy; inversion Hy.
Qed.

(** ** Active records *)

Lemma elem_of_activeAreas (a : Area) (areas : list Area) :
  a ∈ activeAreas areas <-> a ∈ areas /\ area_isArchived a <> Some true.
Proof.
  unfold activeAreas. rewrite list_elem_of_filter.
  unfold not_flag. destruct (area_isArchived a) as [[|]|]; intuition congruence.
Qed.

Lemma hasArea_true (active : list Area) (s : Shop) :
  hasArea active s = true <-> exists a, a ∈ active /\ area_id a = shop_areaId s.
Proof.
  unfold hasArea. rewrite existsb_exists. split.
  - intros (a & Ha & E). exists a. split; [apply list_elem_of_In; exact Ha|].
    apply String.eqb_eq. exact E.
  - intros (a & Ha & E). exists a. split; [apply list_elem_of_In; exact Ha|].
    apply String.eqb_eq. exact E.
Qed.

Lemma elem_of_activeShops (s : Shop) (shops : list Shop) (areas : list Area) :
  s ∈ activeShops shops (activeAreas areas) <->
  s ∈ shops /\ shop_isArchived s <> Some true /\
  exists a, a ∈ areas /\ area_isArchived a <> Some true /\ area_id a = shop_areaId s.
Proof.
  unfold activeShops. rewrite list_elem_of_filter, andb_true_iff, hasArea_true.
  assert (Hflag : not_flag (shop_isArchived s) = true <-> shop_isArchived s <> Some true).
  { unfold not_flag. destruct (shop_isArchived s) as [[|]|]; intuition congruence. }
  rewrite Hflag. split.
  - intros [[Hs (a & Ha & E)] Hin]. apply elem_of_activeAreas in Ha as [Ha Har]. eauto 10.
  - intros (Hin & Hs & a & Ha & Har & E). repeat split; try assumption.
    exists a. split; [apply elem_of_activeAreas; auto | exact E].
Qed.

(** ** Proximity lookups *)

Lemma filter_fmap_split {A B : Type} (P : B -> Prop) `{forall x, Decision (P x)}
    (g : A -> B) (l : list A) :
  forall (f1 : list B) (m : B) (f2 : list B),
    filter P (g <$> l) = f1 ++ m :: f2 ->
    exists l1 s l2,
      l = l1 ++ s :: l2 /\ m = g s /\ P (g s) /\
      filter P (g <$> l1) = f1 /\ filter P (g <$> l2) = f2.
Proof.
  induction l as [|s l IH]; intros f1 m f2 E.
  - destruct f1; discriminate.
  - rewrite fmap_cons, filter_cons in E. destruct (decide (P (g s))) as [HP|HP].
    + destruct f1 as [|b f1]; cbn in E.
      * injection E as <- <-. exists [], s, l. auto.
      * injection E as <- E.
        destruct (IH f1 m f2 E) as (l1 & s' & l2 & -> & -> & HP' & <- & <-).
        exists (s :: l1), s', l2. repeat split; try assumption.
        rewrite fmap_cons, filter_cons_True by assumption. reflexivity.
    + destruct (IH f1 m f2 E) as (l1 & s' & l2 & -> & -> & HP' & <- & <-).
      exists (s :: l1), s', l2. repeat split; try assumption.
      rewrite fmap_cons, filter_cons_False by assumption. reflexivity.
Qed.

Section Proximity.

Context {M : MathLib}.

Lemma atShop_head (swd : list ShopWithDistance) (r : Q) :
  atShop swd r
  = head (sortBy byDistance (filter (fun shop => Num.leb (distance shop) r = true) swd)).
Proof.
  unfold atShop. destruct (filter _ swd); reflexivity.
Qed.

Lemma atShop_spec (S : list Shop) (p : GeoLocation) (r : Q) :
  match atShop (shopsWithDistances S (Some p)) r with
  | None => forall y, y ∈ S -> r < calculateDistance p (shop_location y)
  | Some x =>
      x = mkSWD (swd_shop x) (calculateDistance p (shop_location (swd_shop x))) /\
      nearestWithin S p r (swd_shop x)
  end.
Proof.
  rewrite atShop_head. cbn [shopsWithDistances].
  set (g := fun shop => mkSWD shop (calculateDistance p (shop_location shop))).
  set (P := fun shop => Num.leb (distance shop) r = true).
  pose proof (head_sortBy_firstMin distance (filter P (g <$> S))) as Hmin.
  change (fun a b => distance a - distance b) with byDistance in Hmin.
  destruct (head (sortBy byDistance (filter P (g <$> S)))) as [x|].
  - destruct Hmin as (f1 & f2 & E & H1 & H2).
    destruct (filter_fmap_split P g S f1 x f2 E) as (l1 & s & l2 & -> & -> & HP & <- & <-).
    split; [reflexivity|]. cbn [swd_shop g].
    split; [apply leb_le; exact HP|].
    exists l1, l2. split; [reflexivity|]. split.
    + intros y Hy Hr. apply (H1 (g y)).
      apply list_elem_of_filter. split; [apply leb_le; exact Hr|].
      apply list_elem_of_fmap_2. exact Hy.
    + intros y Hy Hr. apply (H2 (g y)).
      apply list_elem_of_filter. split; [apply leb_le; exact Hr|].
      apply list_elem_of_fmap_2. exact Hy.
  - intros y Hy. apply leb_gt.
    destruct (Num.leb (calculateDistance p (shop_location y)) r) eqn:E; [|reflexivity].
    exfalso. apply (filter_nil_not_elem_of P (g <$> S) (g y) Hmin E).
    apply list_elem_of_fmap_2. exact Hy.
Qed.

(** C4.  For every registry [S], location [p] and detection radius [r]:
    [atShop] returns a shop iff some shop of [S] is at distance at most
    [r] from [p]; the shop returned is a shop of [S] at minimum distance
    among those within [r], the first such in registry order (every
    qualifying shop before it is strictly farther); and with an empty
    registry the result is none. *)
Theorem C4_atShop_nearest (S : list Shop) (p : GeoLocation) (r : Q) :
  (is_Some (atShop (shopsWithDistances S (Some p)) r) <->
   exists s, s ∈ S /\ calculateDistance p (shop_location s) <= r) /\
  (forall x, atShop (shopsWithDistances S (Some p)) r = Some x ->
     distance x = calculateDistance p (shop_location (swd_shop x)) /\
     nearestWithin S p r (swd_shop x)) /\
  atShop (shopsWithDistances [] (Some p)) r = None.
Proof.
  pose proof (atShop_spec S p r) as Hspec.
  split; [|split].
  - split.
    + intros [x Hx]. rewrite Hx in Hspec. destruct Hspec as [_ [Hr (l1 & l2 & -> & _)]].
      exists (swd_shop x). split; [|exact Hr].
      apply elem_of_app. right. apply elem_of_cons. left. reflexivity.
    + intros (s & Hs & Hr).
      destruct (atShop (shopsWithDistances S (Some p)) r) as [x|]; [eauto|].
      specialize (Hspec s Hs). lra.
  - intros x Hx. rewrite Hx in Hspec. destruct Hspec as [Ex Hn].
    split; [|exact Hn]. rewrite Ex at 1. reflexivity.
  - reflexivity.
Qed.

End Proximity.

(** ** Proximity alerts *)

Section Alerts.

Context {M : MathLib}.

Lemma checkShop_cases (loc : GeoLocation) (A : gset string) (X : Shop) :
  let dist := calculateDistance loc (shop_location X) in
  (dist < 40 -> shop_id X ∉ A ->
   checkShop loc A X = ({[shop_id X]} ∪ A, Some (enterAlert X))) /\
  (dist < 40 -> shop_id X ∈ A -> checkShop loc A X = (A, None)) /\
  (100 < dist -> checkShop loc A X = (A ∖ {[shop_id X]}, None)) /\
  (40 <= dist -> dist <= 100 -> checkShop loc A X = (A, None)).
Proof.
  intros dist. unfold checkShop. fold dist.
  repeat split.
  - intros Hd Hn. apply ltb_lt in Hd. rewrite Hd. rewrite decide_False by exact Hn. reflexivity.
  - intros Hd Hi. apply ltb_lt in Hd. rewrite Hd. rewrite decide_True by exact Hi. reflexivity.
  - intros Hd. assert (H40 : Num.ltb dist 40 = false) by (apply ltb_ge; lra).
    rewrite H40. apply gtb_gt in Hd. rewrite Hd. reflexivity.
  - intros H40 H100. apply ltb_ge in H40. rewrite H40.
    apply gtb_le in H100. rewrite H100. reflexivity.
Qed.

(** An iteration touches only the id of its own shop. *)
Lemma checkShop_other (loc : GeoLocation) (A : gset string) (s : Shop) (id : string) :
  shop_id s <> id -> (id ∈ (checkShop loc A s).1 <-> id ∈ A).
Proof.
  intros Hne. unfold checkShop.
  destruct (Num.ltb _ 40); [destruct (decide _)|destruct (Num.gtb _ 100)]; cbn; set_solver.
Qed.

Lemma checkShops_other (loc : GeoLocation) (shops : list Shop) :
  forall (A : gset string) (id : string),
    id ∉ shop_id <$> shops -> (id ∈ (checkShops loc A shops).1 <-> id ∈ A).
Proof.
  induction shops as [|s shops IH]; intros A id Hid; [reflexivity|].
  rewrite fmap_cons in Hid. apply not_elem_of_cons in Hid as [Hne Hid].
  cbn [checkShops].
  destruct (checkShop loc A s) as [A1 call] eqn:E1.
  destruct (checkShops loc A1 shops) as [A2 calls] eqn:E2. cbn.
  pose proof (IH A1 id Hid) as H2. rewrite E2 in H2. cbn in H2. rewrite H2.
  pose proof (checkShop_other loc A s id (not_eq_sym Hne)) as H1. rewrite E1 in H1. exact H1.
Qed.

(** What an iteration does depends on the alerted set only through the
    membership of the id of its shop. *)
Lemma checkShop_congr (loc : GeoLocation) (A B : gset string) (s : Shop) :
  (shop_id s ∈ A <-> shop_id s ∈ B) ->
  (checkShop loc A s).2 = (checkShop loc B s).2 /\
  (shop_id s ∈ (checkShop loc A s).1 <-> shop_id s ∈ (checkShop loc B s).1).
Proof.
  intros HAB. unfold checkShop.
  destruct (Num.ltb _ 40).
  - destruct (decide (shop_id s ∈ A)) as [HA|HA], (decide (shop_id s ∈ B)) as [HB|HB];
      cbn; try tauto; set_solver.
  - destruct (Num.gtb _ 100); cbn; [set_solver | tauto].
Qed.

Lemma checkShops_length (loc : GeoLocation) (shops : list Shop) :
  forall A : gset string, length (checkShops loc A shops).2 = length shops.
Proof.
  induction shops as [|s shops IH]; intros A; [reflexivity|].
  cbn [checkShops].
  destruct (checkShop loc A s) as [A1 call].
  specialize (IH A1). destruct (checkShops loc A1 shops) as [A2 calls].
  cbn in *. congruence.
Qed.

(** With unique ids, the [forEach] does to a shop and to its id what the
    iteration of that shop alone does. *)
Lemma checkShops_at (loc : GeoLocation) (X : Shop) (l2 : list Shop) (l1 : list Shop) :
  forall A : gset string,
    NoDup (shop_id <$> l1 ++ X :: l2) ->
    (checkShops loc A (l1 ++ X :: l2)).2 !! length l1 = Some (checkShop loc A X).2 /\
    (shop_id X ∈ (checkShops loc A (l1 ++ X :: l2)).1 <-> shop_id X ∈ (checkShop loc A X).1).
Proof.
  induction l1 as [|s l1 IH]; intros A Hnd.
  - cbn [app checkShops length]. cbn [app] in Hnd.
    rewrite fmap_cons in Hnd. apply NoDup_cons in Hnd as [Hx _].
    destruct (checkShop loc A X) as [A1 call] eqn:E1.
    pose proof (checkShops_other loc l2 A1 (shop_id X) Hx) as H2.
    destruct (checkShops loc A1 l2) as [A2 calls]. cbn in *. split; [reflexivity|exact H2].
  - cbn [app] in Hnd. rewrite fmap_cons in Hnd. apply NoDup_cons in Hnd as [Hs Hnd].
    assert (Hne : shop_id s <> shop_id X).
    { intros E. apply Hs. rewrite E, fmap_app, fmap_cons.
      apply elem_of_app. right. apply elem_of_cons. left. reflexivity. }
    cbn [app checkShops length].
    pose proof (checkShop_other loc A s (shop_id X) Hne) as H1.
    destruct (checkShop loc A s) as [A1 call] eqn:E1. cbn in H1.
    destruct (IH A1 Hnd) as [Hcall Hmem].
    destruct (checkShops loc A1 (l1 ++ X :: l2)) as [A2 calls]. cbn in *.
    destruct (checkShop_congr loc A1 A X H1) as [Hc Hm].
    split; [rewrite <- Hc; exact Hcall | rewrite Hmem; exact Hm].
Qed.

Lemma checkShops_lookup (loc : GeoLocation) (shops : list Shop) (i : nat) (X : Shop)
    (A : gset string) :
  NoDup (shop_id <$> shops) ->
  shops !! i = Some X ->
  (checkShops loc A shops).2 !! i = Some (checkShop loc A X).2 /\
  (shop_id X ∈ (checkShops loc A shops).1 <-> shop_id X ∈ (checkShop loc A X).1).
Proof.
  intros Hnd Hi.
  pose proof (take_drop_middle shops i X Hi) as E.
  assert (Hlen : length (take i shops) = i).
  { apply length_take_le. apply lookup_lt_Some in Hi. lia. }
  rewrite <- E in Hnd |- *.
  pose proof (checkShops_at loc X (drop (S i) shops) (take i shops) A Hnd) as H.
  rewrite Hlen in H. exact H.
Qed.

(** While every reading of the distance of a shop in the alerted set
    stays at or below 100, the shop stays in the set and raises no
    alert. *)
Lemma checkShopsRun_quiet (shops : list Shop) (i : nat) (X : Shop) (locs : list GeoLocation) :
  NoDup (shop_id <$> shops) ->
  shops !! i = Some X ->
  forall A : gset string,
    shop_id X ∈ A ->
    (forall loc, loc ∈ locs -> calculateDistance loc (shop_location X) <= 100) ->
    shop_id X ∈ (checkShopsRun locs A shops).1 /\
    forall m calls, (checkShopsRun locs A shops).2 !! m = Some calls -> calls !! i = Some None.
Proof.
  intros Hnd Hi. induction locs as [|loc locs IH]; intros A HA Hnear.
  - split; [exact HA|]. intros m calls Hm. destruct m; discriminate.
  - cbn [checkShopsRun].
    destruct (checkShops_lookup loc shops i X A Hnd Hi) as [Hcall Hmem].
    assert (Hstep : checkShop loc A X = (A, None)).
    { destruct (checkShop_cases loc A X) as (_ & Hin & _ & Hband).
      destruct (Qlt_le_dec (calculateDistance loc (shop_location X)) 40) as [Hd|Hd].
      - apply Hin; assumption.
      - apply Hband; [exact Hd|]. apply Hnear. apply elem_of_cons. left. reflexivity. }
    rewrite Hstep in Hcall, Hmem. cbn in Hcall, Hmem.
    destruct (checkShops loc A shops) as [A1 calls1]. cbn in Hcall, Hmem.
    destruct (IH A1) as [Hfin Htrace].
    + apply Hmem. exact HA.
    + intros loc' Hloc'. apply Hnear. apply elem_of_cons. right. exact Hloc'.
    + destruct (checkShopsRun locs A1 shops) as [A2 trace]. cbn in *.
      split; [exact Hfin|].
      intros [|m] calls Hm; cbn in Hm.
      * injection Hm as <-. exact Hcall.
      * eapply Htrace. exact Hm.
Qed.

End Alerts.

Section AlertClaims.

Context {M : MathLib}.

(** The position callback runs the [forEach] on the smoothed location,
    over the active shops and the alerted set of the session. *)
Lemma watchCallback_alerts (c : Coords) (now : Z) (st : App) :
  exists st1 calls newLoc,
    watchCallback c now st = Some (st1, calls) /\
    currentLocation st1 = Some newLoc /\
    (alertedShopsRef st1, calls)
    = checkShops newLoc (alertedShopsRef st) (app_activeShops st) /\
    alertInfo st1 = lastAlert (alertInfo st) calls.
Proof.
  unfold watchCallback.
  destruct (applyKalmanFilter_total (kalmanStateRef st) (latitude c) (longitude c)
              (effectiveAccuracy c)) as [[kalman1 smoothed] E].
  rewrite E. cbn [mbind option_bind].
  set (newLoc := mkLoc _ _ _ _).
  destruct (checkShops newLoc (alertedShopsRef st) (app_activeShops st))
    as [alerted1 calls1] eqn:Ecs.
  eexists _, calls1, newLoc. split; [reflexivity|]. cbn.
  split; [reflexivity|]. split; [symmetry; exact Ecs | reflexivity].
Qed.

(** C2, amended.  In a registry with unique shop ids, for every shop [X]
    (at position [i] of the registry) and every update: the [forEach]
    makes one iteration per shop; if [X] is nearer than 40 and its id is
    not in the alerted set, the id is added and the iteration of [X] raises
    exactly one alert, whose payload is [{show: true, shopName, ownerName}]
    (it carries no shop id); if [X] is nearer than 40 and already alerted
    it stays alerted and raises nothing; a distance above 100 removes the
    id and raises nothing; a distance in [[40, 100]] leaves the membership
    of the id unchanged and raises nothing.  Hence, once an alert has been
    raised for [X], no further alert is raised for [X] by the following
    updates as long as every one of them observes [X] at a distance of at
    most 100.  The position callback runs this [forEach] on every fix. *)
Theorem C2_enter_alert_hysteresis (shops : list Shop) (i : nat) (X : Shop) :
  NoDup (shop_id <$> shops) ->
  shops !! i = Some X ->
  (forall (loc : GeoLocation) (A : gset string),
      let dist := calculateDistance loc (shop_location X) in
      let result := checkShops loc A shops in
      length result.2 = length shops /\
      (dist < 40 -> shop_id X ∉ A ->
       shop_id X ∈ result.1 /\
       result.2 !! i = Some (Some (mkAlert true (shop_name X) (shop_ownerName X)))) /\
      (dist < 40 -> shop_id X ∈ A ->
       shop_id X ∈ result.1 /\ result.2 !! i = Some None) /\
      (100 < dist -> (shop_id X ∉ result.1) /\ result.2 !! i = Some None) /\
      (40 <= dist -> dist <= 100 ->
       (shop_id X ∈ result.1 <-> shop_id X ∈ A) /\ result.2 !! i = Some None)) /\
  (forall (loc0 : GeoLocation) (locs : list GeoLocation) (A : gset string) (ev : AlertInfo),
      (checkShops loc0 A shops).2 !! i = Some (Some ev) ->
      (forall loc, loc ∈ locs -> calculateDistance loc (shop_location X) <= 100) ->
      forall m calls,
        (checkShopsRun locs (checkShops loc0 A shops).1 shops).2 !! m = Some calls ->
        calls !! i = Some None) /\
  (forall (c : Coords) (now : Z) (st : App),
      exists st1 calls newLoc,
        watchCallback c now st = Some (st1, calls) /\
        currentLocation st1 = Some newLoc /\
        (alertedShopsRef st1, calls)
        = checkShops newLoc (alertedShopsRef st) (app_activeShops st)).
Proof.
  intros Hnd Hi. split; [|split].
  - intros loc A dist result.
    destruct (checkShops_lookup loc shops i X A Hnd Hi) as [Hcall Hmem].
    fold result in Hcall, Hmem.
    destruct (checkShop_cases loc A X) as (Henter & Hin & Hout & Hband). fold dist in Henter, Hin, Hout, Hband.
    split; [apply checkShops_length|]. repeat split.
    + rewrite Hmem, Henter by assumption. cbn. set_solver.
    + rewrite Hcall, Henter by assumption. reflexivity.
    + rewrite Hmem, Hin by assumption. assumption.
    + rewrite Hcall, Hin by assumption. reflexivity.
    + rewrite Hmem, Hout by assumption. cbn. set_solver.
    + rewrite Hcall, Hout by assumption. reflexivity.
    + rewrite Hmem, Hband by assumption. cbn. tauto.
    + rewrite Hmem, Hband by assumption. cbn. tauto.
    + rewrite Hcall, Hband by assumption. reflexivity.
  - intros loc0 locs A ev Hfire Hnear.
    destruct (checkShops_lookup loc0 shops i X A Hnd Hi) as [Hcall Hmem].
    rewrite Hcall in Hfire. injection Hfire as Hfire.
    assert (Hin : shop_id X ∈ (checkShops loc0 A shops).1).
    { apply Hmem. revert Hfire. unfold checkShop.
      destruct (Num.ltb _ 40); [destruct (decide _)|destruct (Num.gtb _ 100)];
        cbn; try discriminate.
      intros _. set_solver. }
    apply (checkShopsRun_quiet shops i X locs Hnd Hi _ Hin Hnear).
  - intros c now st.
    destruct (watchCallback_alerts c now st) as (st1 & calls & newLoc & Hcb & Hloc & Hcs & _).
    eauto 10.
Qed.

(** Every alert raised by the [forEach] is the alert of the shop of its
    iteration. *)
Lemma checkShops_raised (loc : GeoLocation) (shops : list Shop) :
  forall (A : gset string) (i : nat) (ev : AlertInfo),
    (checkShops loc A shops).2 !! i = Some (Some ev) ->
    exists s, shops !! i = Some s /\ ev = enterAlert s.
Proof.
  induction shops as [|s shops IH]; intros A i ev Hev; [destruct i; discriminate|].
  cbn [checkShops] in Hev.
  destruct (checkShop loc A s) as [A1 call] eqn:E1.
  specialize (IH A1). destruct (checkShops loc A1 shops) as [A2 calls].
  destruct i as [|i]; cbn in Hev.
  - injection Hev as ->. exists s. split; [reflexivity|].
    revert E1. unfold checkShop.
    destruct (Num.ltb _ 40); [destruct (decide _)|destruct (Num.gtb _ 100)];
      intros E; injection E as _ E; congruence.
  - apply (IH i ev Hev).
Qed.

End AlertClaims.

(** ** Route recording *)

Section Recording.

Context {M : MathLib}.

Lemma samplePath_cases (newLoc lastPoint : GeoLocation) (p : list GeoLocation) :
  last p = Some lastPoint ->
  (3 <= calculateDistance newLoc lastPoint -> samplePath newLoc p = p ++ [newLoc]) /\
  (calculateDistance newLoc lastPoint < 3 -> samplePath newLoc p = p).
Proof.
  intros Hlast. unfold samplePath. rewrite Hlast. split; intros Hd.
  - apply geb_ge in Hd. rewrite Hd. reflexivity.
  - apply geb_lt in Hd. rewrite Hd. reflexivity.
Qed.

Lemma samplePath_prefix (newLoc : GeoLocation) (p : list GeoLocation) :
  p `prefix_of` samplePath newLoc p.
Proof.
  unfold samplePath. destruct (Num.geb _ 3); [apply prefix_app_r|]; reflexivity.
Qed.

Lemma path_recordUpdate (newLoc : GeoLocation) (now : Z) (shops : list Shop)
    (areas : list Area) (rc : Recorder) :
  path (rec_route (recordUpdate newLoc now shops areas rc))
  = samplePath newLoc (path (rec_route rc)).
Proof.
  unfold recordUpdate.
  destruct (rec_anchor rc) as [anchor|]; [|reflexivity].
  destruct (Num.ltb _ 15); [|reflexivity].
  destruct (Nat.eqb _ 3); reflexivity.
Qed.

Lemma recordRun_cons (u : GeoLocation * Z) (updates : list (GeoLocation * Z))
    (shops : list Shop) (areas : list Area) (rc : Recorder) :
  recordRun (u :: updates) shops areas rc
  = recordRun updates shops areas (recordUpdate u.1 u.2 shops areas rc).
Proof. reflexivity. Qed.

Lemma path_recordRun_prefix (shops : list Shop) (areas : list Area)
    (updates : list (GeoLocation * Z)) :
  forall rc : Recorder,
    path (rec_route rc) `prefix_of` path (rec_route (recordRun updates shops areas rc)).
Proof.
  induction updates as [|u updates IH]; intros rc; [reflexivity|].
  rewrite recordRun_cons. etransitivity; [|apply IH].
  rewrite path_recordUpdate. apply samplePath_prefix.
Qed.

Lemma path_recordRun_jitter (shops : list Shop) (areas : list Area) (lastPoint : GeoLocation)
    (updates : list (GeoLocation * Z)) :
  forall rc : Recorder,
    last (path (rec_route rc)) = Some lastPoint ->
    (forall u, u ∈ updates -> calculateDistance u.1 lastPoint < 3) ->
    path (rec_route (recordRun updates shops areas rc)) = path (rec_route rc).
Proof.
  induction updates as [|u updates IH]; intros rc Hlast Hnear; [reflexivity|].
  rewrite recordRun_cons.
  assert (Hstep : path (rec_route (recordUpdate u.1 u.2 shops areas rc)) = path (rec_route rc)).
  { rewrite path_recordUpdate.
    apply (samplePath_cases u.1 lastPoint _ Hlast).
    apply Hnear. apply elem_of_cons. left. reflexivity. }
  rewrite IH.
  - exact Hstep.
  - rewrite Hstep. exact Hlast.
  - intros u' Hu'. apply Hnear. apply elem_of_cons. right. exact Hu'.
Qed.

(** While a route is being recorded the callback returns, and it runs
    [recordUpdate] on the smoothed location, which is also the new current
    location. *)
Lemma watchCallback_recording (c : Coords) (now : Z) (st : App) (r : SalesRoute) :
  isTracking st = true ->
  activeRoute st = Some r ->
  exists st1 calls newLoc,
    watchCallback c now st = Some (st1, calls) /\
    currentLocation st1 = Some newLoc /\
    isTracking st1 = true /\
    let rc1 :=
      recordUpdate newLoc now (app_activeShops st) (app_activeAreas st)
        (mkRecorder r (lastStopCheckLocRef st) (staticTimeCounterRef st)) in
    activeRoute st1 = Some (rec_route rc1) /\
    lastStopCheckLocRef st1 = rec_anchor rc1 /\
    staticTimeCounterRef st1 = rec_counter rc1.
Proof.
  intros Htr Hroute. unfold watchCallback.
  destruct (applyKalmanFilter_total (kalmanStateRef st) (latitude c) (longitude c)
              (effectiveAccuracy c)) as [[kalman1 smoothed] E].
  rewrite E. cbn [mbind option_bind].
  destruct (checkShops _ _ _) as [alerted1 calls1].
  rewrite Htr, Hroute.
  eexists _, _, _. split; [reflexivity|]. cbn. repeat split; reflexivity.
Qed.

(** C3.  While a route is being recorded, an update appends the (smoothed)
    location to the path if its distance to the last path point is at least
    3, and leaves the path unchanged if that distance is below 3; hence
    through any run of updates the path only grows (the old path is a
    prefix of the new one), and a run of updates that are all nearer than 3
    to the last accepted point leaves the path as it was; a session starts
    with a path of exactly one point. *)
Theorem C3_path_sampling :
  (forall (c : Coords) (now : Z) (st : App) (r : SalesRoute) (lastPoint : GeoLocation),
      isTracking st = true ->
      activeRoute st = Some r ->
      last (path r) = Some lastPoint ->
      exists st1 calls newLoc r1,
        watchCallback c now st = Some (st1, calls) /\
        currentLocation st1 = Some newLoc /\
        activeRoute st1 = Some r1 /\
        (3 <= calculateDistance newLoc lastPoint -> path r1 = path r ++ [newLoc]) /\
        (calculateDistance newLoc lastPoint < 3 -> path r1 = path r)) /\
  (forall (updates : list (GeoLocation * Z)) (shops : list Shop) (areas : list Area)
          (rc : Recorder),
      path (rec_route rc) `prefix_of` path (rec_route (recordRun updates shops areas rc)) /\
      (length (path (rec_route rc))
       <= length (path (rec_route (recordRun updates shops areas rc))))%nat) /\
  (forall (updates : list (GeoLocation * Z)) (shops : list Shop) (areas : list Area)
          (rc : Recorder) (lastPoint : GeoLocation),
      last (path (rec_route rc)) = Some lastPoint ->
      (forall u, u ∈ updates -> calculateDistance u.1 lastPoint < 3) ->
      path (rec_route (recordRun updates shops areas rc)) = path (rec_route rc)) /\
  (forall (newId today : string) (now : Z) (st : App),
      isTracking st = false ->
      exists r,
        activeRoute (toggleTracking newId today now st) = Some r /\
        path r = [startLocation st]).
Proof.
  split; [|split; [|split]].
  - intros c now st r lastPoint Htr Hroute Hlast.
    destruct (watchCallback_recording c now st r Htr Hroute)
      as (st1 & calls & newLoc & Hcb & Hloc & _ & Hr1 & _).
    eexists st1, calls, newLoc, _.
    split; [exact Hcb|]. split; [exact Hloc|]. split; [exact Hr1|].
    rewrite path_recordUpdate. cbn [rec_route].
    apply samplePath_cases. exact Hlast.
  - intros updates shops areas rc.
    pose proof (path_recordRun_prefix shops areas updates rc) as Hp.
    split; [exact Hp | apply prefix_length; exact Hp].
  - intros updates shops areas rc lastPoint. apply path_recordRun_jitter.
  - intros newId today now st Hidle. unfold toggleTracking. rewrite Hidle. cbn.
    eexists. split; reflexivity.
Qed.

End Recording.

(** ** Stop detection *)

Lemma firstMin_unique {A : Type} (key : A -> Q) (l : list A) (m m' : A) :
  firstMin key l m -> firstMin key l m' -> m = m'.
Proof.
  intros (l1 & l2 & E & H1 & H2) (l1' & l2' & E' & H1' & H2').
  assert (Hm : l !! length l1 = Some m) by (rewrite E; apply list_lookup_middle; reflexivity).
  assert (Hm' : l !! length l1' = Some m')
    by (rewrite E'; apply list_lookup_middle; reflexivity).
  destruct (lt_eq_lt_dec (length l1) (length l1')) as [[Hlt|Heq]|Hlt].
  - exfalso.
    assert (Hin : m ∈ l1').
    { rewrite E', lookup_app_l in Hm by exact Hlt. eapply list_elem_of_lookup_2. exact Hm. }
    assert (Hin' : m' ∈ l2).
    { rewrite E, lookup_app_r in Hm' by lia.
      destruct (length l1' - length l1)%nat as [|n] eqn:En; [lia|].
      cbn in Hm'. eapply list_elem_of_lookup_2. exact Hm'. }
    specialize (H1' m Hin). specialize (H2 m' Hin'). lra.
  - rewrite Heq in Hm. congruence.
  - exfalso.
    assert (Hin : m' ∈ l1).
    { rewrite E, lookup_app_l in Hm' by exact Hlt. eapply list_elem_of_lookup_2. exact Hm'. }
    assert (Hin' : m ∈ l2').
    { rewrite E', lookup_app_r in Hm by lia.
      destruct (length l1 - length l1')%nat as [|n] eqn:En; [lia|].
      cbn in Hm. eapply list_elem_of_lookup_2. exact Hm. }
    specialize (H1 m' Hin). specialize (H2' m Hin'). lra.
Qed.

Section Stops.

Context {M : MathLib}.

Lemma stopAreaName_nil (newLoc : GeoLocation) (areas : list Area) :
  stopAreaName newLoc [] areas = "Field Point".
Proof. reflexivity. Qed.

Lemma stopAreaName_nearest (newLoc : GeoLocation) (shops : list Shop) (areas : list Area)
    (near : Shop) :
  nearestShop shops newLoc near ->
  stopAreaName newLoc shops areas
  = if Num.ltb (calculateDistance newLoc (shop_location near)) 100
    then string_or (area_name <$> findArea areas (shop_areaId near)) "Point"
    else "Field Point".
Proof.
  intros Hnear. unfold stopAreaName.
  set (g := fun s => mkSWD s (calculateDistance newLoc (shop_location s))).
  pose proof (head_sortBy_firstMin distance (g <$> shops)) as Hmin.
  change (fun a b => distance a - distance b) with byDistance in Hmin.
  destruct (head (sortBy byDistance (g <$> shops))) as [x|].
  - destruct Hmin as (f1 & f2 & E & H1 & H2).
    apply fmap_app_inv in E as (l1 & l2' & -> & E2 & ->).
    symmetry in E2. apply fmap_cons_inv in E2 as (s & l2 & -> & -> & ->).
    assert (Hs : nearestShop (l1 ++ s :: l2) newLoc s).
    { exists l1, l2. split; [reflexivity|]. split.
      - intros y Hy. apply (H1 (g y)). apply list_elem_of_fmap_2. exact Hy.
      - intros y Hy. apply (H2 (g y)). apply list_elem_of_fmap_2. exact Hy. }
    rewrite (firstMin_unique _ _ _ _ Hnear Hs). reflexivity.
  - apply fmap_nil_inv in Hmin. subst shops.
    destruct Hnear as (l1 & l2 & E & _). destruct l1; discriminate.
Qed.

Lemma recordUpdate_dwell (newLoc : GeoLocation) (now : Z) (shops : list Shop)
    (areas : list Area) (rc : Recorder) (anchor : GeoLocation) :
  rec_anchor rc = Some anchor ->
  calculateDistance newLoc anchor < 15 ->
  let rc1 := recordUpdate newLoc now shops areas rc in
  rec_anchor rc1 = Some anchor /\
  rec_counter rc1 = S (rec_counter rc) /\
  stops (rec_route rc1)
  = stops (rec_route rc)
    ++ (if decide (S (rec_counter rc) = 3%nat)
        then [mkStop newLoc (stopAreaName newLoc shops areas)
                (length (stops (rec_route rc)) + 1) now]
        else []).
Proof.
  intros Ha Hd rc1. unfold rc1, recordUpdate. rewrite Ha.
  apply ltb_lt in Hd. rewrite Hd.
  destruct (decide (S (rec_counter rc) = 3%nat)) as [E|E].
  - rewrite E. cbn. auto.
  - apply Nat.eqb_neq in E. rewrite E. cbn. rewrite app_nil_r. auto.
Qed.

Lemma recordUpdate_move (newLoc : GeoLocation) (now : Z) (shops : list Shop)
    (areas : list Area) (rc : Recorder) (anchor : GeoLocation) :
  rec_anchor rc = Some anchor ->
  15 <= calculateDistance newLoc anchor ->
  let rc1 := recordUpdate newLoc now shops areas rc in
  rec_anchor rc1 = Some newLoc /\
  rec_counter rc1 = 0%nat /\
  stops (rec_route rc1) = stops (rec_route rc).
Proof.
  intros Ha Hd rc1. unfold rc1, recordUpdate. rewrite Ha.
  apply ltb_ge in Hd. rewrite Hd. cbn. auto.
Qed.

(** A run of updates that all stay within 15 of the anchor: the counter
    counts them, the anchor stays, and the only stop appended is the one of
    the update that brings the counter to 3. *)
Lemma recordRun_dwell (shops : list Shop) (areas : list Area) (anchor : GeoLocation)
    (updates : list (GeoLocation * Z)) :
  forall rc : Recorder,
    rec_anchor rc = Some anchor ->
    (forall u, u ∈ updates -> calculateDistance u.1 anchor < 15) ->
    let rc1 := recordRun updates shops areas rc in
    rec_anchor rc1 = Some anchor /\
    rec_counter rc1 = (rec_counter rc + length updates)%nat /\
    stops (rec_route rc1)
    = stops (rec_route rc)
      ++ match updates !! (2 - rec_counter rc)%nat with
         | Some u =>
             if decide (rec_counter rc < 3)%nat
             then [mkStop u.1 (stopAreaName u.1 shops areas)
                     (length (stops (rec_route rc)) + 1) u.2]
             else []
         | None => []
         end.
Proof.
  induction updates as [|u updates IH]; intros rc Ha Hnear rc1.
  - subst rc1. cbn. rewrite app_nil_r. auto with lia.
  - subst rc1. rewrite recordRun_cons.
    assert (Hu : calculateDistance u.1 anchor < 15).
    { apply Hnear. apply elem_of_cons. left. reflexivity. }
    destruct (recordUpdate_dwell u.1 u.2 shops areas rc anchor Ha Hu) as (Ha1 & Hc1 & Hs1).
    destruct (IH (recordUpdate u.1 u.2 shops areas rc) Ha1) as (Ha2 & Hc2 & Hs2).
    { intros u' Hu'. apply Hnear. apply elem_of_cons. right. exact Hu'. }
    split; [exact Ha2|]. split; [rewrite Hc2, Hc1; cbn; lia|].
    rewrite Hs2, Hc1, Hs1. clear IH Hs2 Hs1 Hc2.
    destruct (decide (S (rec_counter rc) = 3%nat)) as [E|E].
    + assert (Ec : rec_counter rc = 2%nat) by lia. rewrite Ec. cbn [lookup list_lookup Nat.sub].
      destruct (updates !! 0%nat); repeat case_decide; try lia; rewrite app_nil_r; reflexivity.
    + rewrite app_nil_r.
      destruct (decide (rec_counter rc < 3)%nat) as [Hlt|Hge].
      * assert (E2 : (2 - rec_counter rc = S (2 - S (rec_counter rc)))%nat) by lia.
        rewrite E2. cbn [lookup list_lookup].
        destruct (updates !! (2 - S (rec_counter rc))%nat); [|reflexivity].
        case_decide; [reflexivity | lia].
      * destruct (updates !! (2 - S (rec_counter rc))%nat);
          [case_decide; [lia|]|];
          (destruct ((u :: updates) !! (2 - rec_counter rc)%nat); reflexivity).
Qed.

End Stops.

Lemma string_or_nonempty (v d : string) : v <> "" -> string_or (Some v) d = v.
Proof.
  intros Hv. unfold string_or. apply String.eqb_neq in Hv. rewrite Hv. reflexivity.
Qed.

Section StopClaims.

Context {M : MathLib}.

(** C1, amended.  While a route is being recorded, an update whose
    (smoothed) location is nearer than 15 to the dwell anchor increments
    the dwell counter and keeps the anchor; on the update that brings the
    counter to exactly 3, exactly one stop is appended, with the location
    of the update, [stopNumber = stops.length + 1] and the clock reading of
    the update, and otherwise no stop is appended.  The label of the stop
    is ["Field Point"] when there is no active shop or the nearest one is
    at 100 or farther; when the nearest shop is nearer than 100 it is the
    name of the area of that shop if the area is found and its name is not
    empty, and ["Point"] if the area is not found or its name is empty.
    The counter is not reset by the emission: through a run of consecutive
    updates nearer than 15 to the anchor the counter counts every update
    and the only stop appended is the one of the update on which the
    counter reaches 3. *)
Theorem C1_stop_detection :
  (forall (c : Coords) (now : Z) (st : App) (r : SalesRoute) (anchor : GeoLocation),
      isTracking st = true ->
      activeRoute st = Some r ->
      lastStopCheckLocRef st = Some anchor ->
      exists st1 calls newLoc r1,
        watchCallback c now st = Some (st1, calls) /\
        currentLocation st1 = Some newLoc /\
        activeRoute st1 = Some r1 /\
        (calculateDistance newLoc anchor < 15 ->
         staticTimeCounterRef st1 = S (staticTimeCounterRef st) /\
         lastStopCheckLocRef st1 = Some anchor /\
         (S (staticTimeCounterRef st) = 3%nat ->
          stops r1
          = stops r
            ++ [mkStop newLoc
                  (stopAreaName newLoc (app_activeShops st) (app_activeAreas st))
                  (length (stops r) + 1) now]) /\
         (S (staticTimeCounterRef st) <> 3%nat -> stops r1 = stops r))) /\
  (forall (newLoc : GeoLocation) (areas : list Area),
      stopAreaName newLoc [] areas = "Field Point") /\
  (forall (newLoc : GeoLocation) (shops : list Shop) (areas : list Area) (near : Shop),
      nearestShop shops newLoc near ->
      (100 <= calculateDistance newLoc (shop_location near) ->
       stopAreaName newLoc shops areas = "Field Point") /\
      (calculateDistance newLoc (shop_location near) < 100 ->
       (forall a, findArea areas (shop_areaId near) = Some a -> area_name a <> "" ->
                  stopAreaName newLoc shops areas = area_name a) /\
       (forall a, findArea areas (shop_areaId near) = Some a -> area_name a = "" ->
                  stopAreaName newLoc shops areas = "Point") /\
       (findArea areas (shop_areaId near) = None ->
        stopAreaName newLoc shops areas = "Point"))) /\
  (forall (updates : list (GeoLocation * Z)) (shops : list Shop) (areas : list Area)
          (rc : Recorder) (anchor : GeoLocation),
      rec_anchor rc = Some anchor ->
      (forall u, u ∈ updates -> calculateDistance u.1 anchor < 15) ->
      let rc1 := recordRun updates shops areas rc in
      rec_anchor rc1 = Some anchor /\
      rec_counter rc1 = (rec_counter rc + length updates)%nat /\
      stops (rec_route rc1)
      = stops (rec_route rc)
        ++ match updates !! (2 - rec_counter rc)%nat with
           | Some u =>
               if decide (rec_counter rc < 3)%nat
               then [mkStop u.1 (stopAreaName u.1 shops areas)
                       (length (stops (rec_route rc)) + 1) u.2]
               else []
           | None => []
           end).
Proof.
  split; [|split; [|split]].
  - intros c now st r anchor Htr Hroute Hanchor.
    destruct (watchCallback_recording c now st r Htr Hroute)
      as (st1 & calls & newLoc & Hcb & Hloc & _ & Hr1 & Ha1 & Hc1).
    eexists st1, calls, newLoc, _.
    split; [exact Hcb|]. split; [exact Hloc|]. split; [exact Hr1|].
    intros Hd. rewrite Hc1, Ha1.
    destruct (recordUpdate_dwell newLoc now (app_activeShops st) (app_activeAreas st)
                (mkRecorder r (lastStopCheckLocRef st) (staticTimeCounterRef st)) anchor
                Hanchor Hd) as (Ha & Hc & Hs).
    cbn [rec_route rec_counter rec_anchor] in Ha, Hc, Hs.
    split; [exact Hc|]. split; [exact Ha|]. rewrite Hs. split; intros E.
    + rewrite decide_True by exact E. reflexivity.
    + rewrite decide_False by exact E. apply app_nil_r.
  - intros. reflexivity.
  - intros newLoc shops areas near Hnear.
    rewrite (stopAreaName_nearest newLoc shops areas near Hnear). split.
    + intros Hd. apply ltb_ge in Hd. rewrite Hd. reflexivity.
    + intros Hd. apply ltb_lt in Hd. rewrite Hd. repeat split.
      * intros a Ha Hn. rewrite Ha. apply string_or_nonempty. exact Hn.
      * intros a Ha Hn. rewrite Ha. cbn. rewrite Hn. reflexivity.
      * intros Ha. rewrite Ha. reflexivity.
  - intros updates shops areas rc anchor. apply recordRun_dwell.
Qed.

End StopClaims.

(** ** Finalising a route *)

(** C6.  Finalising a route being recorded (stop tracking, fill in the
    save form, confirm) stores a route with [endTime] set to the time of
    the confirmation, [isArchived = false] and the supplied day and area
    labels, and otherwise the recorded route (same id, area, path, stops
    and start time); the recorder is idle afterwards (not tracking, no
    active route, form closed), so that toggling tracking again starts a
    new route with a one-point path and no stops.  Without an active route
    the confirmation does nothing. *)
Theorem C6_finalize_route (st : App) (r : SalesRoute) (day area today : string) (now : Z)
    (newId today1 : string) (now1 : Z) :
  isTracking st = true ->
  activeRoute st = Some r ->
  let saved :=
    confirmSaveRoute today now
      (setFormAreaName area (setFormDay day (toggleTracking newId today now st))) in
  (exists f,
      routes saved = f :: routes st /\
      endTime f = Some now /\
      route_isArchived f = Some false /\
      route_day f = Some day /\
      route_customAreaName f = Some area /\
      route_id f = route_id r /\ route_areaId f = route_areaId r /\
      path f = path r /\ stops f = stops r /\ startTime f = startTime r) /\
  isTracking saved = false /\
  activeRoute saved = None /\
  isSavingRoute saved = false /\
  (let restarted := toggleTracking newId today1 now1 saved in
   isTracking restarted = true /\
   exists r1,
     activeRoute restarted = Some r1 /\
     route_id r1 = newId /\ path r1 = [startLocation saved] /\ stops r1 = [] /\
     startTime r1 = now1 /\ endTime r1 = None) /\
  (forall st0 : App, activeRoute st0 = None -> confirmSaveRoute today now st0 = st0).
Proof.
  intros Htr Hroute saved.
  assert (Esaved : saved
    = mkApp (shops st) (areas st)
        (finalRoute r (mkForm day area) today now :: routes st)
        (detectionRange st) (nearbyRange st)
        (currentLocation st) false None (selectedAreaId st) None
        (alertInfo st) false (mkForm day area)
        (kalmanStateRef st) (alertedShopsRef st) (lastStopCheckLocRef st)
        (staticTimeCounterRef st)).
  { unfold saved, toggleTracking. rewrite Htr. cbn.
    unfold confirmSaveRoute. cbn. rewrite Hroute. reflexivity. }
  rewrite Esaved. cbn. repeat split.
  - eexists. repeat split; reflexivity.
  - eexists. repeat split; reflexivity.
  - intros st0 H0. unfold confirmSaveRoute. rewrite H0. reflexivity.
Qed.

(** ** Archived shops and areas *)

Section ActiveClaims.

Context {M : MathLib}.

Lemma app_activeShops_active (st : App) (s : Shop) :
  s ∈ app_activeShops st <-> isActiveShop st s.
Proof. apply elem_of_activeShops. Qed.

Lemma elem_of_shopsWithDistances (S : list Shop) (loc : option GeoLocation)
    (x : ShopWithDistance) :
  x ∈ shopsWithDistances S loc -> swd_shop x ∈ S.
Proof.
  destruct loc as [p|]; cbn.
  - intros Hx. apply list_elem_of_fmap in Hx as (s & -> & Hs). exact Hs.
  - intros Hx. inversion Hx.
Qed.

(** C10.  Every proximity computation looks at active shops only: the
    shop returned by [atShop], every shop returned by [nearbyShops] and
    every shop for which the position callback raises an alert is a shop of
    the registry that is not archived and whose area is not archived; the
    callback makes one iteration per active shop and none for any other
    shop, whatever the distances. *)
Theorem C10_only_active_shops (st : App) :
  (forall x, app_atShop st = Some x -> isActiveShop st (swd_shop x)) /\
  (forall x, x ∈ app_nearbyShops st -> isActiveShop st (swd_shop x)) /\
  (forall (c : Coords) (now : Z),
      exists st1 calls,
        watchCallback c now st = Some (st1, calls) /\
        length calls = length (app_activeShops st) /\
        forall (i : nat) (ev : AlertInfo),
          calls !! i = Some (Some ev) ->
          exists s,
            app_activeShops st !! i = Some s /\ ev = enterAlert s /\ isActiveShop st s) /\
  (forall s, shop_isArchived s = Some true -> s ∉ app_activeShops st) /\
  (forall s,
      (forall a, a ∈ areas st -> area_id a = shop_areaId s -> area_isArchived a = Some true) ->
      s ∉ app_activeShops st).
Proof.
  split; [|split; [|split; [|split]]].
  - intros x Hx. apply app_activeShops_active.
    apply (elem_of_shopsWithDistances _ (currentLocation st)).
    unfold app_atShop in Hx. rewrite atShop_head in Hx.
    apply head_Some_elem_of in Hx.
    apply elem_of_sortBy, list_elem_of_filter in Hx as [_ Hx]. exact Hx.
  - intros x Hx. apply app_activeShops_active.
    apply (elem_of_shopsWithDistances _ (currentLocation st)).
    unfold app_nearbyShops, nearbyShops in Hx.
    apply elem_of_sortBy, list_elem_of_filter in Hx as [_ Hx]. exact Hx.
  - intros c now. unfold watchCallback.
    destruct (applyKalmanFilter_total (kalmanStateRef st) (latitude c) (longitude c)
                (effectiveAccuracy c)) as [[kalman1 smoothed] E].
    rewrite E. cbn [mbind option_bind].
    set (newLoc := mkLoc _ _ _ _).
    pose proof (checkShops_length newLoc (app_activeShops st) (alertedShopsRef st)) as Hlen.
    pose proof (checkShops_raised newLoc (app_activeShops st) (alertedShopsRef st)) as Hraised.
    destruct (checkShops newLoc (alertedShopsRef st) (app_activeShops st))
      as [alerted1 calls1].
    cbn in Hlen, Hraised.
    eexists _, calls1. split; [reflexivity|].
    split; [exact Hlen|].
    intros i ev Hev. destruct (Hraised i ev Hev) as (s & Hs & ->).
    exists s. split; [exact Hs|]. split; [reflexivity|].
    apply app_activeShops_active. eapply list_elem_of_lookup_2. exact Hs.
  - intros s Harch Hs. apply app_activeShops_active in Hs as (_ & Hn & _). congruence.
  - intros s Hareas Hs. apply app_activeShops_active in Hs as (_ & _ & a & Ha & Hn & E).
    apply Hn. apply Hareas; assumption.
Qed.

End ActiveClaims.

(** ** The claims on concrete data *)

Import Scenario.

(** C1, as stated, fails: with one active shop at the start point, in an
    area whose name is empty, three fixes at the start point emit one stop
    (number 1) whose label is ["Point"], although the nearest shop is
    nearer than 100 and the name of its area is the empty string. *)
Lemma C1_counterexample_empty_area_name :
  exists st r stop,
    watchRun (M := decimalMath)
      [(fixAt dhaka, 1%Z); (fixAt dhaka, 2%Z); (fixAt dhaka, 3%Z)]
      (toggleTracking "r1" "02/11/2026" 0
         (initialApp [cornerShop] [unnamedArea] [] None None)) = Some st /\
    activeRoute st = Some r /\
    stops r = [stop] /\
    stopNumber stop = 1%nat /\
    app_activeShops st = [cornerShop] /\
    nearestShop (M := decimalMath) [cornerShop] (stop_location stop) cornerShop /\
    calculateDistance (M := decimalMath) (stop_location stop) (shop_location cornerShop) < 100 /\
    findArea (app_activeAreas st) (shop_areaId cornerShop) = Some unnamedArea /\
    area_name unnamedArea = "" /\
    stop_areaName stop = "Point".
Proof.
  eexists _, _, _.
  split; [vm_compute; reflexivity|].
  split; [reflexivity|].
  split; [reflexivity|].
  split; [reflexivity|].
  split; [reflexivity|].
  split.
  { exists [], []. split; [reflexivity|]. split; intros y Hy; inversion Hy. }
  split; [vm_compute; reflexivity|].
  repeat split.
Qed.

Lemma C1_stop_detection_witness :
  rec_counter
    (recordRun (M := decimalMath)
       [(north 9, 1%Z); (dhaka, 2%Z); (north 18, 3%Z); (north 9, 4%Z)]
       [bazarShop] [uttara] startedRecorder) = 4%nat /\
  length
    (stops
       (rec_route
          (recordRun (M := decimalMath)
             [(north 9, 1%Z); (dhaka, 2%Z); (north 18, 3%Z); (north 9, 4%Z)]
             [bazarShop] [uttara] startedRecorder))) = 1%nat.
Proof.
  destruct (proj2 (proj2 (proj2 (C1_stop_detection (M := decimalMath))))
              [(north 9, 1%Z); (dhaka, 2%Z); (north 18, 3%Z); (north 9, 4%Z)]
              [bazarShop] [uttara] startedRecorder dhaka eq_refl) as (_ & Hc & Hs).
  - intros u Hu.
    repeat (apply elem_of_cons in Hu as [->|Hu]; [vm_compute; reflexivity|]).
    inversion Hu.
  - split; [exact Hc|]. rewrite Hs. reflexivity.
Defined.

(** C2, as stated, fails on the payload: the alert raised for a shop is
    [{show: true, shopName, ownerName}] and carries no shop id, so two
    shops with different ids and the same names raise the same alert. *)
Lemma C2_counterexample_alert_without_shop_id :
  shop_id cornerShop <> shop_id cornerShopAgain /\
  calculateDistance (M := decimalMath) dhaka (shop_location cornerShop) < 40 /\
  (checkShops (M := decimalMath) dhaka ∅ [cornerShop]).2
  = [Some (mkAlert true "Rahim Store" "Rahim")] /\
  (checkShops (M := decimalMath) dhaka ∅ [cornerShopAgain]).2
  = [Some (mkAlert true "Rahim Store" "Rahim")].
Proof.
  split; [discriminate|]. split; [vm_compute; reflexivity|].
  split; vm_compute; reflexivity.
Qed.

Lemma C2_enter_alert_hysteresis_witness :
  NoDup (shop_id <$> [bazarShop; cornerShop]) /\
  shop_id cornerShop ∈ (checkShops (M := decimalMath) dhaka ∅ [bazarShop; cornerShop]).1 /\
  (checkShops (M := decimalMath) dhaka ∅ [bazarShop; cornerShop]).2 !! 1%nat
  = Some (Some (mkAlert true "Rahim Store" "Rahim")).
Proof.
  assert (Hnd : NoDup (shop_id <$> [bazarShop; cornerShop])).
  { cbn. apply NoDup_cons. split; [set_solver | apply NoDup_singleton]. }
  split; [exact Hnd|].
  destruct (C2_enter_alert_hysteresis (M := decimalMath) [bazarShop; cornerShop] 1 cornerShop
              Hnd eq_refl) as [Hstep _].
  destruct (Hstep dhaka ∅) as (_ & Henter & _).
  apply Henter.
  - vm_compute. reflexivity.
  - apply not_elem_of_empty.
Defined.

Lemma C3_path_sampling_witness :
  path
    (rec_route
       (recordRun (M := decimalMath)
          [(north 9, 1%Z); (dhaka, 2%Z); (north 18, 3%Z); (north 9, 4%Z); (north 18, 5%Z)]
          [] [] startedRecorder)) = [dhaka].
Proof.
  apply (proj1 (proj2 (proj2 (C3_path_sampling (M := decimalMath))))
           [(north 9, 1%Z); (dhaka, 2%Z); (north 18, 3%Z); (north 9, 4%Z); (north 18, 5%Z)]
           [] [] startedRecorder dhaka eq_refl).
  intros u Hu.
  repeat (apply elem_of_cons in Hu as [->|Hu]; [vm_compute; reflexivity|]).
  inversion Hu.
Defined.

Lemma C4_atShop_nearest_witness :
  is_Some (atShop (shopsWithDistances (M := decimalMath) [bazarShop; cornerShop] (Some dhaka)) 10).
Proof.
  apply (proj1 (C4_atShop_nearest (M := decimalMath) [bazarShop; cornerShop] dhaka 10)).
  exists cornerShop. split.
  - apply elem_of_cons. right. apply elem_of_cons. left. reflexivity.
  - vm_compute. discriminate.
Defined.

Lemma C6_finalize_route_witness :
  isTracking
    (confirmSaveRoute "02/11/2026" 900
       (setFormAreaName "Uttara Trip"
          (setFormDay "Saturday"
             (toggleTracking "r2" "02/11/2026" 900
                (toggleTracking "r1" "02/11/2026" 0 (initialApp [] [] [] None None))))))
  = false.
Proof.
  exact (proj1 (proj2
    (C6_finalize_route
       (toggleTracking "r1" "02/11/2026" 0 (initialApp [] [] [] None None))
       (mkRoute "r1" "02/11/2026" None None "General" [dhaka] [] 0 None (Some false))
       "Saturday" "Uttara Trip" "02/11/2026" 900 "r2" "03/11/2026" 1000
       eq_refl eq_refl))).
Defined.

Lemma C10_only_active_shops_witness :
  (closedShop ∉ app_activeShops
                  (initialApp [closedShop; oldTownShop; bazarShop] [uttara; oldTown] [] None None))
  /\
  (oldTownShop ∉ app_activeShops
                   (initialApp [closedShop; oldTownShop; bazarShop] [uttara; oldTown] [] None None)).
Proof.
  split.
  - apply (proj1 (proj2 (proj2 (proj2 (C10_only_active_shops (M := decimalMath) _))))).
    reflexivity.
  - apply (proj2 (proj2 (proj2 (proj2 (C10_only_active_shops (M := decimalMath) _))))).
    intros a Ha E.
    repeat (apply elem_of_cons in Ha as [->|Ha]; [first [discriminate E | reflexivity]|]).
    inversion Ha.
Defined.

(** ** The scenarios of the specification, evaluated *)

(** Scenarios A and B: after the start, five locations within about 2 m of
    the start leave the path at one point; a location 5 m away is then
    appended. *)
Example scenario_path_growth :
  length
    (path
       (rec_route
          (recordRun (M := decimalMath)
             [(north 9, 1%Z); (dhaka, 2%Z); (north 18, 3%Z); (north 9, 4%Z); (north 18, 5%Z)]
             [] [] startedRecorder))) = 1%nat /\
  length
    (path
       (rec_route
          (recordRun (M := decimalMath)
             [(north 9, 1%Z); (dhaka, 2%Z); (north 18, 3%Z); (north 9, 4%Z); (north 18, 5%Z);
              (north 45, 6%Z)]
             [] [] startedRecorder))) = 2%nat.
Proof. split; vm_compute; reflexivity. Qed.

(** Scenario C: a shop 35 m away raises an alert on the first update and
    none while the distance is held; a reading of 150 m clears the alerted
    set, and the return to 35 m raises the alert again. *)
Example scenario_hysteresis :
  (checkShopsRun (M := decimalMath) [north 365; north 365; north 1400; north 365] ∅
     [bazarShop]).2
  = [[Some (mkAlert true "Bazar Traders" "Karim")]; [None]; [None];
     [Some (mkAlert true "Bazar Traders" "Karim")]] /\
  (checkShopsRun (M := decimalMath) [north 365; north 365; north 1400] ∅ [bazarShop]).1 = ∅.
Proof. split; vm_compute; reflexivity. Qed.

(** Scenario D: three consecutive locations within 15 m of the anchor give
    one stop, numbered 1 and labelled with the area of the nearest shop; a
    fourth one gives no second stop. *)
Example scenario_stop_emission :
  (fun s => (stop_areaName s, stopNumber s, stop_timestamp s)) <$>
    stops
      (rec_route
         (recordRun (M := decimalMath)
            [(north 9, 1%Z); (dhaka, 2%Z); (north 18, 3%Z); (north 9, 4%Z)]
            [bazarShop] [uttara] startedRecorder))
  = [("Uttara", 1%nat, 3%Z)].
Proof. vm_compute. reflexivity. Qed.

(** * Further properties of the tracking core *)

(** ** The position callback and the recorder, continued *)

Section RecorderExtras.

Context {M : MathLib}.

(** The part of the state the position callback leaves alone. *)
Lemma watchCallback_frame (c : Coords) (now : Z) (st : App) :
  exists st1 calls,
    watchCallback c now st = Some (st1, calls) /\
    shops st1 = shops st /\ areas st1 = areas st /\ routes st1 = routes st /\
    detectionRange st1 = detectionRange st /\ nearbyRange st1 = nearbyRange st /\
    isTracking st1 = isTracking st /\ selectedAreaId st1 = selectedAreaId st /\
    viewingRoute st1 = viewingRoute st /\
    isSavingRoute st1 = isSavingRoute st /\ routeSaveForm st1 = routeSaveForm st /\
    (is_Some (activeRoute st1) <-> is_Some (activeRoute st)) /\
    (isTracking st = false \/ activeRoute st = None ->
     activeRoute st1 = activeRoute st /\
     lastStopCheckLocRef st1 = lastStopCheckLocRef st /\
     staticTimeCounterRef st1 = staticTimeCounterRef st).
Proof.
  unfold watchCallback.
  destruct (applyKalmanFilter_total (kalmanStateRef st) (latitude c) (longitude c)
              (effectiveAccuracy c)) as [[kalman1 smoothed] E].
  rewrite E. cbn [mbind option_bind].
  destruct (checkShops _ _ _) as [alerted1 calls1].
  eexists _, _. split; [reflexivity|]. cbn.
  do 10 (split; [reflexivity|]).
  destruct (isTracking st), (activeRoute st) as [r|]; cbn; split;
    try (split; intros [x Hx]; first [discriminate | eauto]);
    try (intros [H|H]; first [discriminate | auto]).
Qed.

(** X3.  The position callback never changes the registry, the saved
    routes, the radii, the tracking flag, the selected area, the viewed
    route or the save form, it never creates or drops the active route, and
    unless a route is being recorded (tracking on and an active route
    present) it leaves the active route, the dwell anchor and the dwell
    counter as they are. *)
Theorem X3_callback_frame (c : Coords) (now : Z) (st : App) :
  exists st1 calls,
    watchCallback c now st = Some (st1, calls) /\
    shops st1 = shops st /\ areas st1 = areas st /\ routes st1 = routes st /\
    detectionRange st1 = detectionRange st /\ nearbyRange st1 = nearbyRange st /\
    isTracking st1 = isTracking st /\ selectedAreaId st1 = selectedAreaId st /\
    viewingRoute st1 = viewingRoute st /\
    isSavingRoute st1 = isSavingRoute st /\ routeSaveForm st1 = routeSaveForm st /\
    (is_Some (activeRoute st1) <-> is_Some (activeRoute st)) /\
    (isTracking st = false \/ activeRoute st = None ->
     activeRoute st1 = activeRoute st /\
     lastStopCheckLocRef st1 = lastStopCheckLocRef st /\
     staticTimeCounterRef st1 = staticTimeCounterRef st).
Proof. apply watchCallback_frame. Qed.

(** Whatever the case, an update appends nothing or one stop, numbered
    one more than the number of stops so far. *)
Lemma stops_recordUpdate (newLoc : GeoLocation) (now : Z) (shops : list Shop)
    (areas : list Area) (rc : Recorder) :
  stops (rec_route (recordUpdate newLoc now shops areas rc)) = stops (rec_route rc) \/
  stops (rec_route (recordUpdate newLoc now shops areas rc))
  = stops (rec_route rc)
    ++ [mkStop newLoc (stopAreaName newLoc shops areas)
          (length (stops (rec_route rc)) + 1) now].
Proof.
  unfold recordUpdate.
  destruct (rec_anchor rc) as [anchor|]; [|left; reflexivity].
  destruct (Num.ltb _ 15); [|left; reflexivity].
  destruct (Nat.eqb _ 3); [right|left]; reflexivity.
Qed.

(** X4.  A move of 15 or more away from the anchor starts the dwell over:
    the moved-to location becomes the anchor, the counter restarts from
    zero and no stop is emitted by the move; if the following updates all
    stay within 15 of the new anchor, the third of them (and only it) emits
    a stop. *)
Theorem X4_move_restarts_dwell (u0 : GeoLocation * Z) (us : list (GeoLocation * Z))
    (shops : list Shop) (areas : list Area) (rc : Recorder) (anchor : GeoLocation) :
  rec_anchor rc = Some anchor ->
  15 <= calculateDistance u0.1 anchor ->
  (forall u, u ∈ us -> calculateDistance u.1 u0.1 < 15) ->
  let rc1 := recordRun (u0 :: us) shops areas rc in
  rec_anchor rc1 = Some u0.1 /\
  rec_counter rc1 = length us /\
  stops (rec_route rc1)
  = stops (rec_route rc)
    ++ match us !! 2%nat with
       | Some u =>
           [mkStop u.1 (stopAreaName u.1 shops areas)
              (length (stops (rec_route rc)) + 1) u.2]
       | None => []
       end.
Proof.
  intros Ha Hfar Hnear rc1. subst rc1. rewrite recordRun_cons.
  destruct (recordUpdate_move u0.1 u0.2 shops areas rc anchor Ha Hfar) as (Ha1 & Hc1 & Hs1).
  destruct (recordRun_dwell shops areas u0.1 us (recordUpdate u0.1 u0.2 shops areas rc)
              Ha1 Hnear) as (Ha2 & Hc2 & Hs2).
  split; [exact Ha2|]. split; [rewrite Hc2, Hc1; reflexivity|].
  rewrite Hs2, Hc1, Hs1. cbn [Nat.sub].
  destruct (us !! 2%nat); [|reflexivity].
  rewrite decide_True by lia. reflexivity.
Qed.

(** X5.  The stops of a route being recorded stay numbered 1, 2, 3, ...
    in order: if they are so numbered, they are so numbered after any run
    of updates. *)
Theorem X5_stop_numbers_consecutive (updates : list (GeoLocation * Z)) (shops : list Shop)
    (areas : list Area) :
  forall rc : Recorder,
    stopNumber <$> stops (rec_route rc) = seq 1 (length (stops (rec_route rc))) ->
    stopNumber <$> stops (rec_route (recordRun updates shops areas rc))
    = seq 1 (length (stops (rec_route (recordRun updates shops areas rc)))).
Proof.
  induction updates as [|u updates IH]; intros rc Hnum; [exact Hnum|].
  rewrite recordRun_cons. apply IH.
  destruct (stops_recordUpdate u.1 u.2 shops areas rc) as [E|E]; rewrite E.
  - exact Hnum.
  - rewrite fmap_app, length_app, Hnum. cbn [fmap list_fmap length stopNumber].
    rewrite seq_app. rewrite Nat.add_comm. reflexivity.
Qed.

(** X6.  Stops cannot come faster than one per three updates: through a
    run of [n] updates the number of stops grows by at most
    [(n + credit) / 3], where the credit is the dwell count already
    accumulated (0, 1 or 2; none once the stop of the dwell is emitted). *)
Theorem X6_stops_rate (updates : list (GeoLocation * Z)) (shops : list Shop)
    (areas : list Area) :
  forall rc : Recorder,
    (3 * length (stops (rec_route (recordRun updates shops areas rc)))
     <= 3 * length (stops (rec_route rc)) + length updates
        + (if (rec_counter rc <? 3)%nat then rec_counter rc else 0))%nat.
Proof.
  assert (Hpot : forall rc : Recorder,
             (3 * length (stops (rec_route (recordRun updates shops areas rc)))
              + (if (rec_counter (recordRun updates shops areas rc) <? 3)%nat
                 then rec_counter (recordRun updates shops areas rc) else 0)
              <= 3 * length (stops (rec_route rc)) + length updates
                 + (if (rec_counter rc <? 3)%nat then rec_counter rc else 0))%nat).
  { induction updates as [|u updates IH]; intros rc; [cbn; lia|].
    rewrite recordRun_cons. etransitivity; [apply IH|]. cbn [length].
    assert (Hstep :
      (3 * length (stops (rec_route (recordUpdate u.1 u.2 shops areas rc)))
       + (if (rec_counter (recordUpdate u.1 u.2 shops areas rc) <? 3)%nat
          then rec_counter (recordUpdate u.1 u.2 shops areas rc) else 0)
       <= 3 * length (stops (rec_route rc)) + 1
          + (if (rec_counter rc <? 3)%nat then rec_counter rc else 0))%nat).
    { unfold recordUpdate.
      destruct (rec_anchor rc) as [anchor|]; [|cbn; lia].
      destruct (Num.ltb _ 15); [|cbn; destruct (Nat.ltb_spec (rec_counter rc) 3); lia].
      destruct (Nat.eqb (S (rec_counter rc)) 3) eqn:E3.
      - apply Nat.eqb_eq in E3. cbn. rewrite length_app. cbn.
        assert (Ec : rec_counter rc = 2%nat) by lia. rewrite Ec. cbn. lia.
      - apply Nat.eqb_neq in E3. cbn [rec_route rec_counter stops setPath].
        destruct (Nat.ltb_spec (S (rec_counter rc)) 3), (Nat.ltb_spec (rec_counter rc) 3);
          lia. }
    lia. }
  intros rc. specialize (Hpot rc).
  destruct (Nat.ltb_spec (rec_counter (recordRun updates shops areas rc)) 3); lia.
Qed.

End RecorderExtras.

Section OrderExtras.

Context {M : MathLib}.

(** X7.  Path and stops preserve the arrival order of the updates: through
    a run of updates the path is extended by some of the update locations,
    in their order of arrival, and the stops are extended by stops whose
    locations and timestamps are those of some of the updates, in their
    order of arrival; nothing already recorded is changed or reordered. *)
Theorem X7_arrival_order (updates : list (GeoLocation * Z)) (shops : list Shop)
    (areas : list Area) :
  forall rc : Recorder,
    exists (points : list GeoLocation) (newStops : list StopPoint),
      path (rec_route (recordRun updates shops areas rc)) = path (rec_route rc) ++ points /\
      points `sublist_of` (fst <$> updates) /\
      stops (rec_route (recordRun updates shops areas rc))
      = stops (rec_route rc) ++ newStops /\
      ((fun s => (stop_location s, stop_timestamp s)) <$> newStops) `sublist_of` updates.
Proof.
  induction updates as [|u updates IH]; intros rc.
  - exists [], []. cbn. rewrite !app_nil_r. repeat split; constructor.
  - rewrite recordRun_cons.
    destruct (IH (recordUpdate u.1 u.2 shops areas rc)) as (points & newStops & Hp & Hps & Hs & Hss).
    assert (Hpath : exists p0,
               path (rec_route (recordUpdate u.1 u.2 shops areas rc))
               = path (rec_route rc) ++ p0 /\ (p0 = [] \/ p0 = [u.1])).
    { rewrite path_recordUpdate. unfold samplePath.
      destruct (Num.geb _ 3); [exists [u.1] | exists []]; rewrite ?app_nil_r; auto. }
    destruct Hpath as (p0 & Ep0 & Hp0).
    assert (Hstops : exists s0,
               stops (rec_route (recordUpdate u.1 u.2 shops areas rc))
               = stops (rec_route rc) ++ s0 /\
               (s0 = [] \/ exists name n, s0 = [mkStop u.1 name n u.2])).
    { destruct (stops_recordUpdate u.1 u.2 shops areas rc) as [E|E]; rewrite E.
      - exists []. rewrite app_nil_r. auto.
      - eexists. split; [reflexivity|]. right. eauto. }
    destruct Hstops as (s0 & Es0 & Hs0).
    exists (p0 ++ points), (s0 ++ newStops).
    rewrite Hp, Ep0, Hs, Es0, <- !app_assoc.
    split; [reflexivity|]. split; [|split; [reflexivity|]].
    + rewrite fmap_cons. destruct Hp0 as [->| ->]; cbn.
      * apply sublist_cons. exact Hps.
      * apply sublist_skip. exact Hps.
    + destruct Hs0 as [->|(name & n & ->)]; cbn.
      * apply sublist_cons. exact Hss.
      * destruct u as [loc t]. cbn. apply sublist_skip. exact Hss.
Qed.

Lemma raised_all_none (calls : list (option AlertInfo)) :
  (forall call, call ∈ calls -> call = None) -> raised calls = [].
Proof.
  unfold raised. induction calls as [|call calls IH]; intros Hnone; [reflexivity|].
  rewrite (Hnone call) by (apply elem_of_cons; left; reflexivity). cbn.
  apply IH. intros call' Hc. apply Hnone. apply elem_of_cons. right. exact Hc.
Qed.

(** X8.  The toast shows one alert at a time: after a fix the alert state
    is the alert of the last shop, in registry order, entered by that fix
    (alerts of shops entered earlier by the same fix are overwritten), and
    it is left as it was when the fix enters no shop. *)
Theorem X8_last_alert_wins (c : Coords) (now : Z) (st : App) :
  exists st1 calls,
    watchCallback c now st = Some (st1, calls) /\
    ((forall call, call ∈ calls -> call = None) -> alertInfo st1 = alertInfo st) /\
    (forall pre ev post,
        calls = pre ++ Some ev :: post ->
        (forall call, call ∈ post -> call = None) ->
        alertInfo st1 = ev /\
        exists s, app_activeShops st !! length pre = Some s /\ ev = enterAlert s).
Proof.
  destruct (watchCallback_alerts c now st) as (st1 & calls & newLoc & Hcb & _ & Hcs & Halert).
  exists st1, calls. split; [exact Hcb|]. rewrite Halert. unfold lastAlert. split.
  - intros Hnone. rewrite raised_all_none by exact Hnone. reflexivity.
  - intros pre ev post -> Hnone. split.
    + pose proof (raised_all_none post Hnone) as Epost. unfold raised in *.
      rewrite omap_app. cbn. rewrite Epost, last_snoc. reflexivity.
    + apply (checkShops_raised newLoc (app_activeShops st) (alertedShopsRef st)).
      rewrite <- Hcs. cbn. apply list_lookup_middle. reflexivity.
Qed.

End OrderExtras.

(** ** Proximity lookups, continued *)

Lemma insertBy_sorted {A : Type} (key : A -> Q) (x : A) (l : list A) :
  StronglySorted (fun a b => key a <= key b) l ->
  StronglySorted (fun a b => key a <= key b) (insertBy (fun a b => key a - key b) x l).
Proof.
  induction 1 as [|y l Hs IH Hall]; cbn.
  - repeat constructor.
  - destruct (Qle_bool (key x - key y) 0) eqn:E.
    + apply Qle_bool_iff in E.
      constructor; [constructor; assumption|].
      constructor; [lra|].
      eapply Forall_impl; [exact Hall|]. cbn. intros z Hz. lra.
    + assert (key y < key x).
      { apply Qnot_le_lt. intros H.
        assert (Qle_bool (key x - key y) 0 = true) by (apply Qle_bool_iff; lra).
        congruence. }
      constructor; [exact IH|].
      rewrite insertBy_perm. constructor; [lra | exact Hall].
Qed.

Lemma sortBy_sorted {A : Type} (key : A -> Q) (l : list A) :
  StronglySorted (fun a b => key a <= key b) (sortBy (fun a b => key a - key b) l).
Proof.
  induction l as [|x l IH]; [constructor|].
  apply insertBy_sorted. exact IH.
Qed.

Section ProximityExtras.

Context {M : MathLib}.

(** X9.  The nearby list holds exactly the entries within the nearby
    radius, each as often as it occurs, in ascending order of distance; in
    the component, every active shop within the radius of the current
    location is listed. *)
Theorem X9_nearbyShops_sorted_complete :
  (forall (swd : list ShopWithDistance) (range : Q),
      StronglySorted (fun a b => distance a <= distance b) (nearbyShops swd range) /\
      nearbyShops swd range
      ≡ₚ filter (fun shop => Num.leb (distance shop) range = true) swd /\
      (forall x, x ∈ nearbyShops swd range <-> x ∈ swd /\ distance x <= range)) /\
  (forall (st : App) (loc : GeoLocation) (s : Shop),
      currentLocation st = Some loc ->
      s ∈ app_activeShops st ->
      calculateDistance loc (shop_location s) <= nearbyRange st ->
      mkSWD s (calculateDistance loc (shop_location s)) ∈ app_nearbyShops st).
Proof.
  assert (Hmem : forall (swd : list ShopWithDistance) (range : Q) x,
             x ∈ nearbyShops swd range <-> x ∈ swd /\ distance x <= range).
  { intros swd range x. unfold nearbyShops.
    rewrite elem_of_sortBy, list_elem_of_filter, leb_le. tauto. }
  split.
  - intros swd range. split; [|split; [|apply Hmem]].
    + apply (sortBy_sorted distance).
    + apply sortBy_perm.
  - intros st loc s Hloc Hs Hd. apply Hmem. split; [|exact Hd].
    unfold app_shopsWithDistances. rewrite Hloc. cbn.
    apply (list_elem_of_fmap_2 (fun shop => mkSWD shop (calculateDistance loc (shop_location shop)))).
    exact Hs.
Qed.

Lemma atShop_within (swd : list ShopWithDistance) (r : Q) (x : ShopWithDistance) :
  atShop swd r = Some x -> x ∈ swd /\ distance x <= r.
Proof.
  rewrite atShop_head. intros Hx. apply head_Some_elem_of in Hx.
  apply elem_of_sortBy, list_elem_of_filter in Hx as [Hr Hx].
  split; [exact Hx | apply leb_le; exact Hr].
Qed.

Lemma atShop_none (swd : list ShopWithDistance) (r : Q) :
  atShop swd r = None -> forall y, y ∈ swd -> r < distance y.
Proof.
  rewrite atShop_head. intros Hnone y Hy.
  pose proof (head_sortBy_firstMin distance
                (filter (fun shop => Num.leb (distance shop) r = true) swd)) as Hmin.
  change (fun a b => distance a - distance b) with byDistance in Hmin.
  rewrite Hnone in Hmin.
  apply leb_gt. destruct (Num.leb (distance y) r) eqn:E; [|reflexivity].
  exfalso. eapply filter_nil_not_elem_of; [exact Hmin | exact E | exact Hy].
Qed.

Lemma atShop_cons (y : ShopWithDistance) (swd : list ShopWithDistance) (r : Q) :
  atShop (y :: swd) r
  = if Num.leb (distance y) r
    then match atShop swd r with
         | None => Some y
         | Some m => if Qle_bool (distance y - distance m) 0 then Some y else Some m
         end
    else atShop swd r.
Proof.
  rewrite !atShop_head. rewrite filter_cons.
  destruct (Num.leb (distance y) r) eqn:E.
  - rewrite decide_True by reflexivity. apply head_sortBy_cons.
  - rewrite decide_False by discriminate. reflexivity.
Qed.

(** X10.  Widening the detection radius never changes which shop is
    detected once one is detected; hence, whenever the detection radius is
    at most the nearby radius, the detected shop is the first entry of the
    nearby list. *)
Theorem X10_atShop_radius_monotone (swd : list ShopWithDistance) (r r1 : Q)
    (x : ShopWithDistance) :
  atShop swd r = Some x ->
  r <= r1 ->
  atShop swd r1 = Some x /\ head (nearbyShops swd r1) = Some x.
Proof.
  intros Hx Hr.
  assert (H1 : atShop swd r1 = Some x).
  { revert x Hx. induction swd as [|y swd IH]; intros x Hx; [discriminate|].
    rewrite atShop_cons in Hx |- *.
    destruct (Num.leb (distance y) r) eqn:Ey.
    - apply leb_le in Ey.
      assert (Ey1 : Num.leb (distance y) r1 = true) by (apply leb_le; lra).
      rewrite Ey1.
      destruct (atShop swd r) as [m|] eqn:Em.
      + rewrite (IH m eq_refl). exact Hx.
      + injection Hx as <-.
        destruct (atShop swd r1) as [m1|] eqn:Em1; [|reflexivity].
        apply atShop_within in Em1 as [Hm1 _].
        pose proof (atShop_none swd r Em m1 Hm1).
        assert (E : Qle_bool (distance y - distance m1) 0 = true)
          by (apply Qle_bool_iff; lra).
        rewrite E. reflexivity.
    - rewrite (IH x Hx).
      destruct (Num.leb (distance y) r1) eqn:Ey1; [|reflexivity].
      apply leb_gt in Ey. apply atShop_within in Hx as [_ Hxr].
      assert (E : Qle_bool (distance y - distance x) 0 = false).
      { apply not_true_iff_false. intros H. apply Qle_bool_iff in H. lra. }
      rewrite E. reflexivity. }
  split; [exact H1|]. rewrite atShop_head in H1. exact H1.
Qed.

Lemma X10_atShop_radius_monotone_witness :
  exists x,
    atShop (shopsWithDistances (M := decimalMath) [bazarShop; cornerShop] (Some dhaka)) 20
    = Some x /\
    swd_shop x = cornerShop.
Proof.
  eexists. split.
  - apply (X10_atShop_radius_monotone
             (shopsWithDistances (M := decimalMath) [bazarShop; cornerShop] (Some dhaka))
             1 20).
    + vm_compute. reflexivity.
    + vm_compute. discriminate.
  - reflexivity.
Defined.

End ProximityExtras.

(** ** Range settings *)

Lemma Qfloor_unique (x : Q) (z : Z) :
  inject_Z z <= x -> x < inject_Z (z + 1) -> Qfloor x = z.
Proof.
  intros Hlo Hhi.
  pose proof (Qfloor_le x) as H1. pose proof (Qlt_floor x) as H2.
  rewrite inject_Z_plus in Hhi, H2. change (inject_Z 1) with 1 in Hhi, H2.
  assert (z < Qfloor x + 1)%Z.
  { rewrite Zlt_Qlt, inject_Z_plus. change (inject_Z 1) with 1. lra. }
  assert (Qfloor x < z + 1)%Z.
  { rewrite Zlt_Qlt, inject_Z_plus. change (inject_Z 1) with 1. lra. }
  lia.
Qed.





Section Slider.

(** A slider whose maximum is the grid point number [n]. *)
Variables (min max step : Q) (n : Z).
Hypothesis step_pos : 0 < step.
Hypothesis grid : max == min + step * inject_Z n.
Hypothesis n_nonneg : (0 <= n)%Z.





End Slider.




Section RangeClaims.

Context {M : MathLib}.




End RangeClaims.

(** The sliders on concrete requests: 100 metres asked of the detection
    slider stores 50, 5 metres asked of the nearby slider stores 10, and 17.3
    stores 17; a reload brings back what was stored. *)
Example scenario_sliders :
  session (M := decimalMath)
    [DetectionSlider 100; NearbySlider 5; Reload; DetectionSlider (173 # 10)]
    (mountApp emptyStorage)
  = Some (setDetectionRange 17 (setNearbyRange 10 (mountApp emptyStorage))) /\
  detectionRange (onDetectionRangeChange 100 (mountApp emptyStorage)) = 50.
Proof. split; reflexivity. Qed.

(** ** Sessions, continued *)

Section SessionExtras.

Context {M : MathLib}.

(** While tracking is off, fixes change neither the tracking flag, the
    active route, the saved routes nor the save form. *)
Lemma watchRun_idle (fixes : list (Coords * Z)) :
  forall st : App,
    isTracking st = false ->
    exists st1,
      watchRun fixes st = Some st1 /\
      isTracking st1 = false /\
      activeRoute st1 = activeRoute st /\
      routes st1 = routes st /\
      isSavingRoute st1 = isSavingRoute st /\
      routeSaveForm st1 = routeSaveForm st /\
      lastStopCheckLocRef st1 = lastStopCheckLocRef st /\
      staticTimeCounterRef st1 = staticTimeCounterRef st.
Proof.
  induction fixes as [|[c now] fixes IH]; intros st Hidle.
  - exists st. split; [reflexivity|]. split; [exact Hidle|]. repeat split; reflexivity.
  - destruct (watchCallback_frame c now st)
      as (st1 & calls & Hcb & _ & _ & Hroutes & _ & _ & Htr & _ & _ & Hsav & Hform & _ & Hrec).
    destruct (Hrec (or_introl Hidle)) as (Hroute & Hanchor & Hcounter).
    destruct (IH st1) as (st2 & Hrun & H1 & H2 & H3 & H4 & H5 & H6 & H7);
      [congruence|].
    exists st2. cbn [watchRun]. rewrite Hcb. cbn [mbind option_bind].
    split; [exact Hrun|]. repeat split; congruence.
Qed.

(** X11.  Fixes that arrive between stopping a recording and saving it do
    not alter the route: whatever fixes are delivered while the save form
    is open, the route that is saved has the path, the stops, the id and
    the start time the route had when tracking was stopped, and it is
    stored in front of the routes saved before. *)
Theorem X11_save_after_late_fixes (st : App) (r : SalesRoute) (fixes : list (Coords * Z))
    (newId today0 : string) (now0 : Z) (day area today : string) (now : Z) :
  isTracking st = true ->
  activeRoute st = Some r ->
  exists st1,
    watchRun fixes (toggleTracking newId today0 now0 st) = Some st1 /\
    routes (confirmSaveRoute today now (setFormAreaName area (setFormDay day st1)))
    = finalRoute r (mkForm day area) today now :: routes st /\
    path (finalRoute r (mkForm day area) today now) = path r /\
    stops (finalRoute r (mkForm day area) today now) = stops r /\
    route_id (finalRoute r (mkForm day area) today now) = route_id r /\
    startTime (finalRoute r (mkForm day area) today now) = startTime r.
Proof.
  intros Htr Hroute.
  assert (Hstop : isTracking (toggleTracking newId today0 now0 st) = false /\
                  activeRoute (toggleTracking newId today0 now0 st) = Some r /\
                  routes (toggleTracking newId today0 now0 st) = routes st).
  { unfold toggleTracking. rewrite Htr. cbn. auto. }
  destruct Hstop as (Hidle & Hr & Hrs).
  destruct (watchRun_idle fixes _ Hidle) as (st1 & Hrun & _ & Hr1 & Hrs1 & _).
  exists st1. split; [exact Hrun|].
  split; [|repeat split].
  unfold confirmSaveRoute. cbn. rewrite Hr1, Hr, Hrs1, Hrs. reflexivity.
Qed.

(** X12.  Discarding persists nothing: stopping a recording and pressing
    Discard leaves the saved routes exactly as they were and the recorder
    idle (not tracking, no active route, form closed); fixes delivered
    afterwards record nothing, and the next start begins a fresh route with
    a one-point path and no stops. *)
Theorem X12_discard_persists_nothing (st : App) (r : SalesRoute) (fixes : list (Coords * Z))
    (newId today0 : string) (now0 : Z) (newId1 today1 : string) (now1 : Z) :
  isTracking st = true ->
  activeRoute st = Some r ->
  let discarded := discardRoute (toggleTracking newId today0 now0 st) in
  routes discarded = routes st /\
  isTracking discarded = false /\
  activeRoute discarded = None /\
  isSavingRoute discarded = false /\
  (exists st1,
      watchRun fixes discarded = Some st1 /\
      activeRoute st1 = None /\ routes st1 = routes st) /\
  (exists r1,
      activeRoute (toggleTracking newId1 today1 now1 discarded) = Some r1 /\
      route_id r1 = newId1 /\ path r1 = [startLocation discarded] /\ stops r1 = [] /\
      staticTimeCounterRef (toggleTracking newId1 today1 now1 discarded) = 0%nat).
Proof.
  intros Htr Hroute discarded.
  assert (E : discarded
    = mkApp (shops st) (areas st) (routes st) (detectionRange st) (nearbyRange st)
        (currentLocation st) false None (selectedAreaId st) (viewingRoute st)
        (alertInfo st) false (mkForm "" "")
        (kalmanStateRef st) (alertedShopsRef st) (lastStopCheckLocRef st)
        (staticTimeCounterRef st)).
  { unfold discarded, toggleTracking. rewrite Htr. reflexivity. }
  rewrite E. cbn. do 4 (split; [reflexivity|]). split.
  - match goal with |- context [watchRun fixes ?s] =>
      destruct (watchRun_idle fixes s eq_refl) as (st1 & Hrun & _ & Hr1 & Hrs1 & _) end.
    exists st1. auto.
  - eexists. repeat split; reflexivity.
Qed.

(** X13.  Proximity alerts do not depend on tracking: starting, stopping,
    saving or discarding a recording never touches the alerted set, and
    two states with the same filter state, registry and alerted set raise
    the same alerts and reach the same alerted set on a fix, whether or not
    either of them is recording. *)
Theorem X13_alerts_independent_of_tracking :
  (forall (newId today : string) (now : Z) (st : App),
      alertedShopsRef (toggleTracking newId today now st) = alertedShopsRef st /\
      alertedShopsRef (confirmSaveRoute today now st) = alertedShopsRef st /\
      alertedShopsRef (discardRoute st) = alertedShopsRef st) /\
  (forall (c : Coords) (now now' : Z) (st st' : App),
      kalmanStateRef st = kalmanStateRef st' ->
      shops st = shops st' ->
      areas st = areas st' ->
      alertedShopsRef st = alertedShopsRef st' ->
      exists st1 st1' calls,
        watchCallback c now st = Some (st1, calls) /\
        watchCallback c now' st' = Some (st1', calls) /\
        alertedShopsRef st1 = alertedShopsRef st1' /\
        currentLocation st1 = currentLocation st1').
Proof.
  split.
  - intros newId today now st. split; [|split].
    + unfold toggleTracking. destruct (negb (isTracking st)); reflexivity.
    + unfold confirmSaveRoute. destruct (activeRoute st); reflexivity.
    + reflexivity.
  - intros c now now' st st' Hk Hs Ha Hal.
    unfold watchCallback, app_activeShops, app_activeAreas.
    rewrite <- Hk, <- Hs, <- Ha, <- Hal.
    destruct (applyKalmanFilter_total (kalmanStateRef st) (latitude c) (longitude c)
                (effectiveAccuracy c)) as [[kalman1 smoothed] E].
    rewrite E. cbn [mbind option_bind].
    destruct (checkShops _ _ _) as [alerted1 calls1].
    eexists _, _, _. split; [reflexivity|]. split; [reflexivity|]. cbn. split; reflexivity.
Qed.

End SessionExtras.

Lemma X11_save_after_late_fixes_witness :
  exists st1,
    watchRun (M := decimalMath) [(fixAt (north 500), 901%Z); (fixAt (north 900), 902%Z)]
      (toggleTracking "r2" "02/11/2026" 900
         (toggleTracking "r1" "02/11/2026" 0 (initialApp [] [] [] None None))) = Some st1 /\
    routes (confirmSaveRoute "02/11/2026" 950
              (setFormAreaName "Uttara Trip" (setFormDay "Saturday" st1)))
    = [finalRoute (mkRoute "r1" "02/11/2026" None None "General" [dhaka] [] 0 None (Some false))
         (mkForm "Saturday" "Uttara Trip") "02/11/2026" 950].
Proof.
  destruct (X11_save_after_late_fixes (M := decimalMath)
              (toggleTracking "r1" "02/11/2026" 0 (initialApp [] [] [] None None))
              (mkRoute "r1" "02/11/2026" None None "General" [dhaka] [] 0 None (Some false))
              [(fixAt (north 500), 901%Z); (fixAt (north 900), 902%Z)]
              "r2" "02/11/2026" 900 "Saturday" "Uttara Trip" "02/11/2026" 950
              eq_refl eq_refl) as (st1 & Hrun & Hroutes & _).
  exists st1. split; [exact Hrun | exact Hroutes].
Defined.

Lemma X12_discard_persists_nothing_witness :
  routes (discardRoute
            (toggleTracking "r2" "02/11/2026" 900
               (toggleTracking "r1" "02/11/2026" 0 (initialApp [] [] [] None None))))
  = [].
Proof.
  exact (proj1 (X12_discard_persists_nothing (M := decimalMath)
                  (toggleTracking "r1" "02/11/2026" 0 (initialApp [] [] [] None None))
                  (mkRoute "r1" "02/11/2026" None None "General" [dhaka] [] 0 None (Some false))
                  [] "r2" "02/11/2026" 900 "r3" "03/11/2026" 1000 eq_refl eq_refl)).
Defined.

(** ** Deleting areas and routes *)

Lemma activeAreas_archive (id : string) (areas : list Area) :
  activeAreas ((fun a => if String.eqb (area_id a) id then archiveArea a else a) <$> areas)
  = filter (fun a => area_id a <> id) (activeAreas areas).
Proof.
  unfold activeAreas. induction areas as [|a areas IH]; [reflexivity|].
  rewrite fmap_cons. destruct (String.eqb_spec (area_id a) id) as [E|E].
  - rewrite filter_cons_False by (cbn; discriminate). rewrite IH.
    rewrite (filter_cons (fun a => not_flag (area_isArchived a) = true)).
    destruct (decide _); [|reflexivity].
    rewrite filter_cons_False by (intros H; apply H; exact E). reflexivity.
  - rewrite !(filter_cons (fun a => not_flag (area_isArchived a) = true)).
    destruct (decide _); [|exact IH].
    rewrite filter_cons_True by exact E. rewrite IH. reflexivity.
Qed.

Lemma hasArea_filter (id : string) (active : list Area) (s : Shop) :
  hasArea (filter (fun a => area_id a <> id) active) s = true
  <-> hasArea active s = true /\ shop_areaId s <> id.
Proof.
  rewrite !hasArea_true. split.
  - intros (a & Ha & E). apply list_elem_of_filter in Ha as [Hne Ha].
    split; [eauto | congruence].
  - intros [(a & Ha & E) Hne]. exists a. split; [|exact E].
    apply list_elem_of_filter. split; [congruence | exact Ha].
Qed.

Lemma activeShops_archive (id : string) (shops : list Shop) (active : list Area) :
  activeShops shops (filter (fun a => area_id a <> id) active)
  = filter (fun s => shop_areaId s <> id) (activeShops shops active).
Proof.
  unfold activeShops. rewrite list_filter_filter. apply list_filter_iff.
  intros s. rewrite !andb_true_iff, hasArea_filter. tauto.
Qed.

Section DeleteExtras.

Context {M : MathLib}.

(** X14.  Deleting an area (once confirmed) takes all its shops out of
    every proximity computation and leaves the other active shops as they
    were, in their order: the active shops afterwards are the former ones
    whose area is not the deleted one, so no shop of the deleted area is
    returned by [atShop] or [nearbyShops] or raises an alert; the selected
    area falls back to "all" if it was the deleted one; a declined
    confirmation changes nothing. *)
Theorem X14_deleteArea_deactivates_shops (id : string) (st : App) :
  deleteArea id false st = st /\
  app_activeShops (deleteArea id true st)
  = filter (fun s => shop_areaId s <> id) (app_activeShops st) /\
  (forall x, app_atShop (deleteArea id true st) = Some x -> shop_areaId (swd_shop x) <> id) /\
  (forall x, x ∈ app_nearbyShops (deleteArea id true st) -> shop_areaId (swd_shop x) <> id) /\
  (forall (c : Coords) (now : Z),
      exists st1 calls,
        watchCallback c now (deleteArea id true st) = Some (st1, calls) /\
        forall (i : nat) (ev : AlertInfo),
          calls !! i = Some (Some ev) ->
          exists s, s ∈ app_activeShops st /\ shop_areaId s <> id /\ ev = enterAlert s) /\
  selectedAreaId (deleteArea id true st)
  = (if String.eqb (selectedAreaId st) id then "all" else selectedAreaId st) /\
  shops (deleteArea id true st) = shops st /\
  activeRoute (deleteArea id true st) = activeRoute st.
Proof.
  assert (Hactive : app_activeShops (deleteArea id true st)
                    = filter (fun s => shop_areaId s <> id) (app_activeShops st)).
  { unfold app_activeShops, app_activeAreas. cbn [deleteArea areas shops].
    rewrite activeAreas_archive. apply activeShops_archive. }
  assert (Hin : forall s, s ∈ app_activeShops (deleteArea id true st) ->
                          s ∈ app_activeShops st /\ shop_areaId s <> id).
  { intros s. rewrite Hactive, list_elem_of_filter. tauto. }
  split; [reflexivity|]. split; [exact Hactive|].
  split; [|split; [|split; [|split; [reflexivity|split; reflexivity]]]].
  - intros x Hx. apply (Hin (swd_shop x)).
    apply (elem_of_shopsWithDistances _ (currentLocation (deleteArea id true st))).
    unfold app_atShop in Hx. apply atShop_within in Hx as [Hx _]. exact Hx.
  - intros x Hx. apply (Hin (swd_shop x)).
    apply (elem_of_shopsWithDistances _ (currentLocation (deleteArea id true st))).
    unfold app_nearbyShops, nearbyShops in Hx.
    apply elem_of_sortBy, list_elem_of_filter in Hx as [_ Hx]. exact Hx.
  - intros c now.
    destruct (watchCallback_alerts c now (deleteArea id true st))
      as (st1 & calls & newLoc & Hcb & _ & Hcs & _).
    exists st1, calls. split; [exact Hcb|].
    intros i ev Hev.
    destruct (checkShops_raised newLoc (app_activeShops (deleteArea id true st))
                (alertedShopsRef (deleteArea id true st)) i ev) as (s & Hs & ->).
    { rewrite <- Hcs. exact Hev. }
    apply list_elem_of_lookup_2 in Hs. apply Hin in Hs as [Hs Hne].
    exists s. auto.
Qed.

End DeleteExtras.

Lemma activeRoutes_archive (id : string) (routes : list SalesRoute) :
  activeRoutes ((fun r => if String.eqb (route_id r) id then archiveRoute r else r) <$> routes)
  = filter (fun r => route_id r <> id) (activeRoutes routes).
Proof.
  unfold activeRoutes. induction routes as [|r routes IH]; [reflexivity|].
  rewrite fmap_cons. destruct (String.eqb_spec (route_id r) id) as [E|E].
  - rewrite filter_cons_False by (cbn; discriminate). rewrite IH.
    rewrite (filter_cons (fun r => not_flag (route_isArchived r) = true)).
    destruct (decide _); [|reflexivity].
    rewrite filter_cons_False by (intros H; apply H; exact E). reflexivity.
  - rewrite !(filter_cons (fun r => not_flag (route_isArchived r) = true)).
    destruct (decide _); [|exact IH].
    rewrite filter_cons_True by exact E. rewrite IH. reflexivity.
Qed.

(** X15.  Deleting a route is a soft delete: once confirmed, the active
    routes are the former ones with another id, in their order, while the
    stored list keeps every route (same length, same ids) and routes with
    another id are untouched; the viewed route is closed exactly when it is
    the deleted one; the recording in progress is not affected; a declined
    confirmation changes nothing.  In particular a route that has just been
    saved disappears from the active routes when it is deleted. *)
Theorem X15_deleteRoute_soft (id : string) (st : App) :
  deleteRoute id false st = st /\
  activeRoutes (routes (deleteRoute id true st))
  = filter (fun r => route_id r <> id) (activeRoutes (routes st)) /\
  route_id <$> routes (deleteRoute id true st) = route_id <$> routes st /\
  (forall r, r ∈ routes st -> route_id r <> id -> r ∈ routes (deleteRoute id true st)) /\
  (forall v, viewingRoute st = Some v ->
     viewingRoute (deleteRoute id true st) = if String.eqb (route_id v) id then None else Some v) /\
  activeRoute (deleteRoute id true st) = activeRoute st /\
  isTracking (deleteRoute id true st) = isTracking st /\
  (forall (r : SalesRoute) (today : string) (now : Z),
      activeRoute st = Some r ->
      finalRoute r (routeSaveForm st) today now
        ∈ activeRoutes (routes (confirmSaveRoute today now st)) /\
      (finalRoute r (routeSaveForm st) today now
         ∉ activeRoutes (routes (deleteRoute (route_id r) true
                                   (confirmSaveRoute today now st))))).
Proof.
  split; [reflexivity|]. split; [apply activeRoutes_archive|].
  split; [|split; [|split; [|split; [reflexivity|split; [reflexivity|]]]]].
  - cbn [deleteRoute routes]. rewrite <- list_fmap_compose. apply list_fmap_ext.
    intros i r _. cbn. destruct (String.eqb (route_id r) id); reflexivity.
  - intros r Hr Hne. cbn [deleteRoute routes].
    apply list_elem_of_fmap. exists r. split; [|exact Hr].
    apply String.eqb_neq in Hne. rewrite Hne. reflexivity.
  - intros v Hv. cbn [deleteRoute viewingRoute]. rewrite Hv. reflexivity.
  - intros r today now Hr. split.
    + unfold confirmSaveRoute. rewrite Hr. cbn [routes]. unfold activeRoutes.
      rewrite filter_cons_True by reflexivity. apply elem_of_cons. left. reflexivity.
    + intros Hx. cbn [deleteRoute routes] in Hx. rewrite activeRoutes_archive in Hx.
      apply list_elem_of_filter in Hx as [Hne _]. apply Hne. reflexivity.
Qed.

(** ** Visits *)

Lemma visitOf_true (shopId todayIso : string) (v : Visit) :
  visitOf shopId todayIso v = true <-> visit_shopId v = shopId /\ visit_date v = todayIso.
Proof.
  unfold visitOf. rewrite andb_true_iff, !String.eqb_eq. tauto.
Qed.

Lemma isVisitedToday_true (visits : list Visit) (todayIso shopId : string) :
  isVisitedToday visits todayIso shopId = true
  <-> exists v, v ∈ visits /\ visit_shopId v = shopId /\ visit_date v = todayIso.
Proof.
  unfold isVisitedToday. rewrite existsb_exists. split.
  - intros (v & Hv & E). exists v. split; [apply list_elem_of_In; exact Hv|].
    apply visitOf_true. exact E.
  - intros (v & Hv & E). exists v. split; [apply list_elem_of_In; exact Hv|].
    apply visitOf_true. exact E.
Qed.

Lemma elem_of_toggleVisit (shopId todayIso : string) (now : Z) (prev : list Visit)
    (v : Visit) :
  v ∈ toggleVisit shopId todayIso now prev <->
  if isVisitedToday prev todayIso shopId
  then v ∈ prev /\ ~ (visit_shopId v = shopId /\ visit_date v = todayIso)
  else v ∈ prev \/ v = mkVisit shopId now todayIso.
Proof.
  unfold toggleVisit, isVisitedToday.
  destruct (existsb (visitOf shopId todayIso) prev).
  - rewrite list_elem_of_filter, negb_true_iff, <- not_true_iff_false, visitOf_true. tauto.
  - rewrite elem_of_app, list_elem_of_singleton. tauto.
Qed.

(** X16.  Toggling the visit of a shop flips whether the shop counts as
    visited today and changes the visited status of no other shop and of no
    other day; unmarking removes every visit of that shop for today and no
    other visit. *)
Theorem X16_toggleVisit_flips (shopId todayIso : string) (now : Z) (prev : list Visit) :
  isVisitedToday (toggleVisit shopId todayIso now prev) todayIso shopId
  = negb (isVisitedToday prev todayIso shopId) /\
  (forall shopId1 day1,
      ~ (shopId1 = shopId /\ day1 = todayIso) ->
      isVisitedToday (toggleVisit shopId todayIso now prev) day1 shopId1
      = isVisitedToday prev day1 shopId1) /\
  (isVisitedToday prev todayIso shopId = true ->
   forall v, v ∈ toggleVisit shopId todayIso now prev <->
             v ∈ prev /\ ~ (visit_shopId v = shopId /\ visit_date v = todayIso)).
Proof.
  split; [|split].
  - destruct (isVisitedToday prev todayIso shopId) eqn:E; cbn.
    + apply not_true_iff_false. rewrite isVisitedToday_true. intros (v & Hv & Hs & Hd).
      apply elem_of_toggleVisit in Hv. rewrite E in Hv. tauto.
    + apply isVisitedToday_true. exists (mkVisit shopId now todayIso).
      split; [|split; reflexivity].
      apply elem_of_toggleVisit. rewrite E. right. reflexivity.
  - intros shopId1 day1 Hne. apply eq_true_iff_eq. rewrite !isVisitedToday_true.
    split; intros (v & Hv & Hs & Hd); exists v; (split; [|split; assumption]).
    + apply elem_of_toggleVisit in Hv.
      destruct (isVisitedToday prev todayIso shopId); [tauto|].
      destruct Hv as [Hv| ->]; [exact Hv|]. cbn in Hs, Hd. exfalso. apply Hne. auto.
    + apply elem_of_toggleVisit.
      destruct (isVisitedToday prev todayIso shopId); [|tauto].
      split; [exact Hv|]. intros [Hs1 Hd1]. apply Hne. split; congruence.
  - intros E v. rewrite elem_of_toggleVisit, E. reflexivity.
Qed.

(** X17.  Marking a shop visited and unmarking it again gives back the
    list of visits exactly as it was, for a shop that was not visited
    today. *)
Theorem X17_toggleVisit_twice (shopId todayIso : string) (now now1 : Z) (prev : list Visit) :
  isVisitedToday prev todayIso shopId = false ->
  toggleVisit shopId todayIso now1 (toggleVisit shopId todayIso now prev) = prev.
Proof.
  intros Hnot.
  assert (Hfirst : toggleVisit shopId todayIso now prev
                   = prev ++ [mkVisit shopId now todayIso]).
  { unfold toggleVisit. unfold isVisitedToday in Hnot. rewrite Hnot. reflexivity. }
  rewrite Hfirst. unfold toggleVisit.
  assert (Hex : existsb (visitOf shopId todayIso) (prev ++ [mkVisit shopId now todayIso]) = true).
  { rewrite existsb_app. cbn. unfold visitOf at 2. cbn.
    rewrite !String.eqb_refl. cbn. apply orb_true_r. }
  rewrite Hex. rewrite filter_app.
  rewrite filter_cons_False, filter_nil, app_nil_r.
  - clear Hfirst Hex. unfold isVisitedToday in Hnot.
    induction prev as [|v prev IH]; [reflexivity|].
    cbn in Hnot. apply orb_false_iff in Hnot as [Hv Hrest].
    rewrite filter_cons_True by (rewrite Hv; reflexivity).
    rewrite IH by exact Hrest. reflexivity.
  - unfold visitOf. cbn. rewrite !String.eqb_refl. cbn. discriminate.
Qed.

Lemma X17_toggleVisit_twice_witness :
  toggleVisit "s2" "2026-11-02" 300 (toggleVisit "s2" "2026-11-02" 200 [Samples.visitMonday])
  = [Samples.visitMonday].
Proof.
  apply (X17_toggleVisit_twice "s2" "2026-11-02" 200 300 [Samples.visitMonday]).
  reflexivity.
Defined.

(** ** Import *)

Section Merge.

Context {A : Type} (getKey : A -> string).

Lemma elem_of_mergeById (existing imported : list A) (x : A) :
  x ∈ mergeById getKey existing imported <->
  x ∈ existing \/ (x ∈ imported /\ getKey x ∉ getKey <$> existing).
Proof.
  unfold mergeById. rewrite elem_of_app, list_elem_of_filter, elem_of_list_to_set. tauto.
Qed.

Lemma filter_known_keys (K : gset string) (l : list A) :
  (forall x, x ∈ l -> getKey x ∈ K) -> filter (fun item => getKey item ∉ K) l = [].
Proof.
  induction l as [|x l IH]; intros Hall; [reflexivity|].
  rewrite filter_cons_False.
  - apply IH. intros y Hy. apply Hall. apply elem_of_cons. right. exact Hy.
  - intros Hx. apply Hx. apply Hall. apply elem_of_cons. left. reflexivity.
Qed.

Lemma mergeById_NoDup (existing imported : list A) :
  NoDup (getKey <$> existing) -> NoDup (getKey <$> imported) ->
  NoDup (getKey <$> mergeById getKey existing imported).
Proof.
  intros Hex Him. unfold mergeById. cbv zeta. rewrite fmap_app.
  apply NoDup_app. split; [exact Hex|]. split.
  - intros k Hk Hk2. apply list_elem_of_fmap in Hk2 as (x & -> & Hx).
    apply list_elem_of_filter in Hx as [Hx _]. apply Hx.
    apply elem_of_list_to_set. exact Hk.
  - eapply sublist_NoDup; [exact Him|].
    apply fmap_sublist, sublist_filter.
Qed.

(** X18.  An import never replaces or reorders what is already stored: the
    merged list is the existing list followed by the imported records whose
    key is not the key of an existing record, in their order; importing the
    same file again adds nothing; and if the keys of the existing records
    and the keys of the imported records are each free of duplicates, so
    are the keys of the merged list. *)
Theorem X18_mergeById (existing imported : list A) :
  existing `prefix_of` mergeById getKey existing imported /\
  (forall x, x ∈ mergeById getKey existing imported <->
             x ∈ existing \/ (x ∈ imported /\ getKey x ∉ getKey <$> existing)) /\
  mergeById getKey (mergeById getKey existing imported) imported
  = mergeById getKey existing imported /\
  (NoDup (getKey <$> existing) -> NoDup (getKey <$> imported) ->
   NoDup (getKey <$> mergeById getKey existing imported)).
Proof.
  split; [|split; [|split]].
  - unfold mergeById. apply prefix_app_r. reflexivity.
  - apply elem_of_mergeById.
  - unfold mergeById at 1. cbv zeta.
    rewrite filter_known_keys; [apply app_nil_r|].
    intros x Hx. apply elem_of_list_to_set.
    destruct (decide (getKey x ∈ getKey <$> existing)) as [Hk|Hk].
    + unfold mergeById. rewrite fmap_app. apply elem_of_app. left. exact Hk.
    + apply list_elem_of_fmap_2. apply elem_of_mergeById. right. auto.
  - apply mergeById_NoDup.
Qed.

End Merge.

Lemma shopKey_id (s : Shop) : shop_id s <> "" -> shopKey s = shop_id s.
Proof. intros Hs. unfold shopKey, recordKey. apply string_or_nonempty. exact Hs. Qed.

(** X19.  Importing shops keeps the shop ids unique, which is what the
    alert hysteresis relies on: if the stored shops and the shops of the
    file each have non-empty, pairwise different ids, then so have the
    merged shops, and every stored shop keeps its place in front of the
    imported ones. *)
Theorem X19_import_keeps_shop_ids_unique (existing imported : list Shop) :
  (forall s, s ∈ existing ++ imported -> shop_id s <> "") ->
  NoDup (shop_id <$> existing) ->
  NoDup (shop_id <$> imported) ->
  NoDup (shop_id <$> mergeById shopKey existing imported) /\
  existing `prefix_of` mergeById shopKey existing imported.
Proof.
  intros Hne Hex Him.
  assert (Hkeys : forall l : list Shop,
             (forall s, s ∈ l -> shop_id s <> "") -> shopKey <$> l = shop_id <$> l).
  { intros l Hl. apply list_fmap_ext. intros i s Hs. apply shopKey_id.
    apply Hl. eapply list_elem_of_lookup_2. exact Hs. }
  split; [|unfold mergeById; apply prefix_app_r; reflexivity].
  rewrite <- Hkeys.
  - apply mergeById_NoDup.
    + rewrite Hkeys; [exact Hex|]. intros s Hs. apply Hne. apply elem_of_app. auto.
    + rewrite Hkeys; [exact Him|]. intros s Hs. apply Hne. apply elem_of_app. auto.
  - intros s Hs. apply Hne. apply elem_of_mergeById in Hs as [Hs|[Hs _]];
      apply elem_of_app; auto.
Qed.

Lemma X19_import_keeps_shop_ids_unique_witness :
  NoDup (shop_id <$> mergeById shopKey [cornerShop; bazarShop] [cornerShop; closedShop]).
Proof.
  refine (proj1 (X19_import_keeps_shop_ids_unique [cornerShop; bazarShop]
                   [cornerShop; closedShop] _ _ _)).
  - intros s Hs.
    repeat (apply elem_of_cons in Hs as [->|Hs]; [discriminate|]).
    inversion Hs.
  - cbn. apply NoDup_cons. split; [|apply NoDup_singleton].
    intros H. apply list_elem_of_singleton in H. discriminate.
  - cbn. apply NoDup_cons. split; [|apply NoDup_singleton].
    intros H. apply list_elem_of_singleton in H. discriminate.
Defined.

(** ** The order cart *)

Section FindByKey.

Context {A : Type} (key : A -> string).

Lemma find_key_Some (id : string) (l : list A) (x : A) :
  find (fun y => String.eqb (key y) id) l = Some x -> x ∈ l /\ key x = id.
Proof.
  intros H. apply find_some in H as [Hin E].
  split; [apply list_elem_of_In; exact Hin | apply String.eqb_eq; exact E].
Qed.

Lemma find_key_None (id : string) (l : list A) :
  find (fun y => String.eqb (key y) id) l = None <-> id ∉ key <$> l.
Proof.
  induction l as [|y l IH]; cbn.
  - split; [intros _ H; inversion H | reflexivity].
  - rewrite not_elem_of_cons. destruct (String.eqb_spec (key y) id) as [E|E].
    + split; [discriminate | intros [H _]; congruence].
    + rewrite IH. split; [intros H; split; [congruence | exact H] | tauto].
Qed.

Lemma find_key_NoDup (l : list A) (x : A) :
  NoDup (key <$> l) -> x ∈ l -> find (fun y => String.eqb (key y) (key x)) l = Some x.
Proof.
  induction l as [|y l IH]; intros Hnd Hx; [inversion Hx|].
  rewrite fmap_cons in Hnd. apply NoDup_cons in Hnd as [Hy Hnd].
  cbn. apply elem_of_cons in Hx as [->|Hx].
  - rewrite String.eqb_refl. reflexivity.
  - destruct (String.eqb_spec (key y) (key x)) as [E|E]; [|apply IH; assumption].
    exfalso. apply Hy. rewrite E. apply list_elem_of_fmap_2. exact Hx.
Qed.

Lemma find_key_fmap (f : A -> A) (id : string) (l : list A) :
  (forall y, key (f y) = key y) ->
  find (fun y => String.eqb (key y) id) (f <$> l)
  = f <$> find (fun y => String.eqb (key y) id) l.
Proof.
  intros Hf. induction l as [|y l IH]; [reflexivity|].
  cbn. rewrite Hf. destruct (String.eqb (key y) id); [reflexivity | exact IH].
Qed.

Lemma find_key_app (id : string) (l k : list A) :
  find (fun y => String.eqb (key y) id) (l ++ k)
  = match find (fun y => String.eqb (key y) id) l with
    | Some x => Some x
    | None => find (fun y => String.eqb (key y) id) k
    end.
Proof.
  induction l as [|y l IH]; [reflexivity|].
  cbn. destruct (String.eqb (key y) id); [reflexivity | exact IH].
Qed.

End FindByKey.

(** X20.  Adding a product to the cart: the cart then holds the product,
    with quantity 1 if it was not in the cart and one more than before if it
    was; the entries of all other products are unchanged; the products stay
    in their order (a new one goes last); and a cart in which every product
    occurs once stays such a cart. *)
Theorem X20_addToCart (product : Product) (prev : list OrderItem) :
  (exists item,
      findItem (addToCart product prev) (product_id product) = Some item /\
      item_quantity item
      = match findItem prev (product_id product) with
        | Some old => item_quantity old + 1
        | None => 1
        end) /\
  (forall id, id <> product_id product ->
     findItem (addToCart product prev) id = findItem prev id) /\
  (item_productId <$> prev) `prefix_of` (item_productId <$> addToCart product prev) /\
  (NoDup (item_productId <$> prev) -> NoDup (item_productId <$> addToCart product prev)).
Proof.
  unfold addToCart, findItem.
  set (f := fun item =>
              if String.eqb (item_productId item) (product_id product)
              then setQuantity item (item_quantity item + 1) else item).
  assert (Hf : forall y, item_productId (f y) = item_productId y).
  { intros y. unfold f. destruct (String.eqb _ _); reflexivity. }
  assert (Hids : item_productId <$> (f <$> prev) = item_productId <$> prev).
  { rewrite <- list_fmap_compose. apply list_fmap_ext. intros i y _. apply Hf. }
  destruct (find _ prev) as [old|] eqn:Eold.
  - split; [|split; [|split]].
    + rewrite (find_key_fmap item_productId f _ prev Hf), Eold. cbn.
      eexists. split; [reflexivity|].
      apply find_key_Some in Eold as [_ E]. unfold f.
      apply String.eqb_eq in E. rewrite E. reflexivity.
    + intros id Hid. rewrite (find_key_fmap item_productId f _ prev Hf).
      destruct (find (fun y => String.eqb (item_productId y) id) prev) as [y|] eqn:Ey;
        [|reflexivity].
      cbn. apply find_key_Some in Ey as [_ E]. unfold f.
      assert (En : String.eqb (item_productId y) (product_id product) = false)
        by (apply String.eqb_neq; congruence).
      rewrite En. reflexivity.
    + rewrite Hids. reflexivity.
    + rewrite Hids. tauto.
  - split; [|split; [|split]].
    + rewrite find_key_app, Eold. cbn. rewrite String.eqb_refl.
      eexists. split; reflexivity.
    + intros id Hid. rewrite find_key_app.
      destruct (find (fun y => String.eqb (item_productId y) id) prev); [reflexivity|]. cbn.
      assert (En : String.eqb (product_id product) id = false)
        by (apply String.eqb_neq; congruence).
      rewrite En. reflexivity.
    + rewrite fmap_app. apply prefix_app_r. reflexivity.
    + intros Hnd. rewrite fmap_app. apply NoDup_app. split; [exact Hnd|]. split.
      * intros id Hid Hnew. cbn in Hnew. apply list_elem_of_singleton in Hnew. subst id.
        apply (find_key_None item_productId) in Eold. contradiction.
      * apply NoDup_singleton.
Qed.

Lemma gtb_max0 (x : Q) : Num.gtb (Qmax 0 x) 0 = Num.gtb x 0.
Proof.
  apply eq_true_iff_eq. rewrite !gtb_gt.
  destruct (Q.max_spec 0 x) as [[H E]|[H E]]; rewrite E; split; intros; lra.
Qed.

Section CartQty.

Variables (productId : string) (delta : Q).

Lemma updateCartQty_cons (y : OrderItem) (l : list OrderItem) :
  updateCartQty productId delta (y :: l)
  = if String.eqb (item_productId y) productId
    then if Num.gtb (item_quantity y + delta) 0
         then setQuantity y (Qmax 0 (item_quantity y + delta)) :: updateCartQty productId delta l
         else updateCartQty productId delta l
    else if Num.gtb (item_quantity y) 0
         then y :: updateCartQty productId delta l
         else updateCartQty productId delta l.
Proof.
  unfold updateCartQty. rewrite fmap_cons, filter_cons.
  destruct (String.eqb (item_productId y) productId).
  - cbn [item_quantity setQuantity]. rewrite gtb_max0.
    destruct (Num.gtb (item_quantity y + delta) 0).
    + rewrite decide_True by reflexivity. reflexivity.
    + rewrite decide_False by discriminate. reflexivity.
  - destruct (Num.gtb (item_quantity y) 0).
    + rewrite decide_True by reflexivity. reflexivity.
    + rewrite decide_False by discriminate. reflexivity.
Qed.

Lemma updateCartQty_ids (l : list OrderItem) :
  (item_productId <$> updateCartQty productId delta l) `sublist_of` (item_productId <$> l).
Proof.
  induction l as [|y l IH]; [constructor|].
  rewrite updateCartQty_cons, fmap_cons.
  destruct (String.eqb _ _), (Num.gtb _ 0);
    first [apply sublist_skip; exact IH | apply sublist_cons; exact IH].
Qed.

Lemma updateCartQty_other (id : string) (l : list OrderItem) :
  id <> productId ->
  Forall (fun item => 0 < item_quantity item) l ->
  findItem (updateCartQty productId delta l) id = findItem l id.
Proof.
  intros Hid Hpos. unfold findItem. induction Hpos as [|y l Hy Hpos IH]; [reflexivity|].
  rewrite updateCartQty_cons.
  destruct (String.eqb_spec (item_productId y) productId) as [E|E].
  - assert (En : String.eqb (item_productId y) id = false)
      by (apply String.eqb_neq; congruence).
    cbn [find]. rewrite En.
    destruct (Num.gtb (item_quantity y + delta) 0); [|exact IH].
    cbn [find setQuantity item_productId]. rewrite En. exact IH.
  - apply gtb_gt in Hy. rewrite Hy. cbn [find].
    destruct (String.eqb (item_productId y) id); [reflexivity | exact IH].
Qed.

Lemma updateCartQty_target (l : list OrderItem) (old : OrderItem) :
  Forall (fun item => 0 < item_quantity item) l ->
  NoDup (item_productId <$> l) ->
  findItem l productId = Some old ->
  findItem (updateCartQty productId delta l) productId
  = if Num.gtb (item_quantity old + delta) 0
    then Some (setQuantity old (Qmax 0 (item_quantity old + delta)))
    else None.
Proof.
  intros Hpos. unfold findItem. induction Hpos as [|y l Hy Hpos IH]; [discriminate|].
  intros Hnd Hold. rewrite fmap_cons in Hnd. apply NoDup_cons in Hnd as [Hny Hnd].
  rewrite updateCartQty_cons. cbn [find] in Hold.
  destruct (String.eqb_spec (item_productId y) productId) as [E|E].
  - injection Hold as <-.
    destruct (Num.gtb (item_quantity y + delta) 0).
    + cbn [find setQuantity item_productId].
      apply String.eqb_eq in E. rewrite E. reflexivity.
    + apply (find_key_None item_productId). intros Hin. apply Hny. rewrite E.
      eapply elem_of_sublist; [exact Hin | apply updateCartQty_ids].
  - apply gtb_gt in Hy. rewrite Hy. cbn [find].
    apply String.eqb_neq in E. rewrite E. apply IH; assumption.
Qed.

End CartQty.

(** X21.  Changing a quantity in the cart: afterwards every entry of the
    cart has a positive quantity and the products are among the former
    ones, in their order; in a cart of positive quantities the entries of
    the other products are unchanged, and (each product occurring once) the
    entry of the product gets the new quantity if that is positive and is
    removed from the cart if it is zero or below. *)
Theorem X21_updateCartQty (productId : string) (delta : Q) (prev : list OrderItem) :
  (forall item, item ∈ updateCartQty productId delta prev -> 0 < item_quantity item) /\
  (item_productId <$> updateCartQty productId delta prev)
    `sublist_of` (item_productId <$> prev) /\
  (Forall (fun item => 0 < item_quantity item) prev ->
   (forall id, id <> productId ->
      findItem (updateCartQty productId delta prev) id = findItem prev id) /\
   (NoDup (item_productId <$> prev) ->
    forall old, findItem prev productId = Some old ->
      (0 < item_quantity old + delta ->
       findItem (updateCartQty productId delta prev) productId
       = Some (setQuantity old (Qmax 0 (item_quantity old + delta))) /\
       Qmax 0 (item_quantity old + delta) == item_quantity old + delta) /\
      (item_quantity old + delta <= 0 ->
       findItem (updateCartQty productId delta prev) productId = None))).
Proof.
  split; [|split; [apply updateCartQty_ids|]].
  - intros item Hitem. unfold updateCartQty in Hitem.
    apply list_elem_of_filter in Hitem as [Hq _]. apply gtb_gt. exact Hq.
  - intros Hpos. split.
    + intros id Hid. apply updateCartQty_other; assumption.
    + intros Hnd old Hold.
      pose proof (updateCartQty_target productId delta prev old Hpos Hnd Hold) as Ht.
      split; intros Hq.
      * apply gtb_gt in Hq. rewrite Hq in Ht. split; [exact Ht|].
        apply gtb_gt in Hq. apply Q.max_r. lra.
      * apply gtb_le in Hq. rewrite Hq in Ht. exact Ht.
Qed.

(** ** The order summary *)

Lemma cart_fold_bounds (cart : list OrderItem) :
  Forall (fun item =>
            0 <= item_price item /\ 0 <= item_quantity item /\
            0 <= item_discount item /\ item_discount item <= 100) cart ->
  forall a b : Q,
    a <= b ->
    foldl
      (fun acc item =>
         let discountedPrice :=
           item_price item - (item_price item * item_discount item / 100) in
         acc + discountedPrice * item_quantity item) a cart
    <= foldl (fun acc item => acc + item_price item * item_quantity item) b cart.
Proof.
  induction 1 as [|item cart (Hp & Hq & Hd0 & Hd1) _ IH]; intros a b Hab.
  - exact Hab.
  - cbn [foldl]. cbv zeta.
    assert (E : item_price item - item_price item * item_discount item / 100
                == item_price item * ((100 - item_discount item) / 100)) by field.
    assert (H1 : (100 - item_discount item) / 100 <= 1)
      by (apply Qle_shift_div_r; lra).
    set (c := (100 - item_discount item) / 100) in *.
    assert (Hpc1 : item_price item * c <= item_price item) by nra.
    apply IH. rewrite E. nra.
Qed.

Lemma cart_fold_no_discount (cart : list OrderItem) :
  Forall (fun item => item_discount item == 0) cart ->
  forall a b : Q,
    a == b ->
    foldl
      (fun acc item =>
         let discountedPrice :=
           item_price item - (item_price item * item_discount item / 100) in
         acc + discountedPrice * item_quantity item) a cart
    == foldl (fun acc item => acc + item_price item * item_quantity item) b cart.
Proof.
  induction 1 as [|item cart Hd _ IH]; intros a b Hab.
  - exact Hab.
  - cbn [foldl]. cbv zeta. apply IH. rewrite Hab, Hd. field.
Qed.

(** A lower bound of 0 is not among the properties of the total: in the
    arithmetic of the code the final price of 1.289 at a discount of 100
    percent is negative, of the size of a rounding error, where exact
    arithmetic gives 0. *)
Example final_price_rounding :
  (Binary64.calculateFinalPrice 1.289 100 <? 0)%float = true /\
  calculateFinalPrice (1289 # 1000) 100 == 0.
Proof. split; reflexivity. Qed.

(** X22.  In a cart whose prices and quantities are not negative (and at
    most 10^12, which keeps the doubles of the code far from overflow) and
    whose discounts lie between 0 and 100 percent, the total never exceeds
    the subtotal, and it is the subtotal when no entry has a discount; each
    line of the total is the final price of [calculateFinalPrice] times the
    quantity. *)
Theorem X22_cart_total_bounds (cart : list OrderItem) :
  Forall (fun item =>
            0 <= item_price item /\ item_price item <= 1000000000000 /\
            0 <= item_quantity item /\ item_quantity item <= 1000000000000 /\
            0 <= item_discount item /\ item_discount item <= 100) cart ->
  cartTotal cart <= cartSubtotal cart /\
  (Forall (fun item => item_discount item == 0) cart ->
   cartTotal cart == cartSubtotal cart) /\
  cartTotal cart
  = foldl (fun acc item =>
             acc + calculateFinalPrice (item_price item) (item_discount item)
                   * item_quantity item) 0 cart.
Proof.
  intros Hcart.
  assert (Hok : Forall (fun item =>
                          0 <= item_price item /\ 0 <= item_quantity item /\
                          0 <= item_discount item /\ item_discount item <= 100) cart).
  { eapply Forall_impl; [exact Hcart|]. cbn. intros item H. tauto. }
  pose proof (cart_fold_bounds cart Hok 0 0 ltac:(lra)) as H1.
  split; [exact H1|]. split; [|reflexivity].
  intros Hnone. apply cart_fold_no_discount; [exact Hnone | reflexivity].
Qed.

Lemma X22_cart_total_bounds_witness :
  cartTotal [mkItem "p1" "Rice 5kg" 500 2 10; mkItem "p2" "Oil 1L" 180 1 0]
  <= cartSubtotal [mkItem "p1" "Rice 5kg" 500 2 10; mkItem "p2" "Oil 1L" 180 1 0] /\
  cartTotal [mkItem "p1" "Rice 5kg" 500 2 10; mkItem "p2" "Oil 1L" 180 1 0] == 1080 /\
  cartSubtotal [mkItem "p1" "Rice 5kg" 500 2 10; mkItem "p2" "Oil 1L" 180 1 0] == 1180.
Proof.
  split; [|split; reflexivity].
  apply (X22_cart_total_bounds [mkItem "p1" "Rice 5kg" 500 2 10; mkItem "p2" "Oil 1L" 180 1 0]).
  repeat constructor; vm_compute; discriminate.
Defined.

(** ** Placing an order *)

Lemma find_None_iff {A : Type} (f : A -> bool) (l : list A) :
  find f l = None <-> forall x, x ∈ l -> f x = false.
Proof.
  induction l as [|y l IH]; cbn.
  - split; [intros _ x Hx; inversion Hx | reflexivity].
  - destruct (f y) eqn:E.
    + split; [discriminate|]. intros H.
      specialize (H y (list_elem_of_here y l)). congruence.
    + rewrite IH. split.
      * intros H x Hx. apply elem_of_cons in Hx as [->|Hx]; auto.
      * intros H x Hx. apply H. apply elem_of_cons. right. exact Hx.
Qed.

Lemma lacksStock_false (products : list Product) (item : OrderItem) :
  lacksStock products item = false <->
  exists prod,
    findProduct products (item_productId item) = Some prod /\
    item_quantity item <= product_stock prod.
Proof.
  unfold lacksStock. destruct (findProduct products (item_productId item)) as [prod|].
  - rewrite ltb_ge. split; [eauto|]. intros (p & E & H). injection E as ->. exact H.
  - split; [discriminate|]. intros (p & E & _). discriminate.
Qed.


Lemma confirmOrder_placed (dealers : list Dealer) (newId : string) (now : Z)
    (todayIso : string) (desk : OrderDesk) :
  (confirmOrder dealers newId now todayIso desk).2 = OrderPlaced <->
  is_Some (desk_shop desk) /\ desk_cart desk <> [] /\
  inStock (desk_products desk) (desk_cart desk).
Proof.
  unfold confirmOrder, inStock.
  destruct (desk_shop desk) as [shop|]; cbn.
  2:{ split; [discriminate|]. intros ([x Hx] & _). discriminate. }
  destruct (desk_cart desk) as [|item cart] eqn:Ecart; cbn [length Nat.eqb].
  { cbn. split; [discriminate|]. intros (_ & H & _). congruence. }
  destruct (find (lacksStock (desk_products desk)) (item :: cart)) as [bad|] eqn:Ebad.
  - cbn. split; [discriminate|]. intros (_ & _ & H). exfalso.
    apply find_some in Ebad as [Hin Hbad]. apply list_elem_of_In in Hin.
    apply H, lacksStock_false in Hin. congruence.
  - cbn. split; [|reflexivity]. intros _. split; [eauto|]. split; [discriminate|].
    intros it Hit. apply lacksStock_false.
    apply (proj1 (find_None_iff _ _) Ebad). exact Hit.
Qed.

(** X23.  An order is placed exactly when a shop is selected, the cart is
    not empty and the stock of the product of every cart entry covers the
    quantity of the entry; otherwise nothing changes (the failure names an
    entry that is not covered).  Placing the order empties the cart and
    stores, in front of the earlier orders, an order holding the cart with
    its subtotal and total; it keeps the products and their order; every
    ordered product ends with a stock that is not negative, and, product
    ids being unique, with exactly its stock less the ordered quantity;
    products not in the cart are untouched. *)
Theorem X23_confirmOrder (dealers : list Dealer) (newId : string) (now : Z)
    (todayIso : string) (desk : OrderDesk) :
  ((confirmOrder dealers newId now todayIso desk).2 = OrderPlaced <->
   is_Some (desk_shop desk) /\ desk_cart desk <> [] /\
   inStock (desk_products desk) (desk_cart desk)) /\
  ((confirmOrder dealers newId now todayIso desk).2 <> OrderPlaced ->
   (confirmOrder dealers newId now todayIso desk).1 = desk) /\
  (forall name, (confirmOrder dealers newId now todayIso desk).2 = OrderFailed name ->
     exists item, item ∈ desk_cart desk /\ item_productName item = name /\
                  lacksStock (desk_products desk) item = true) /\
  ((confirmOrder dealers newId now todayIso desk).2 = OrderPlaced ->
   let desk1 := (confirmOrder dealers newId now todayIso desk).1 in
   desk_cart desk1 = [] /\
   (exists o,
       desk_orders desk1 = o :: desk_orders desk /\
       order_id o = newId /\
       order_items o = desk_cart desk /\
       order_subtotal o = cartSubtotal (desk_cart desk) /\
       order_total o = cartTotal (desk_cart desk)) /\
   product_id <$> desk_products desk1 = product_id <$> desk_products desk /\
   (forall p1, p1 ∈ desk_products desk1 ->
      is_Some (findItem (desk_cart desk) (product_id p1)) -> 0 <= product_stock p1) /\
   (forall p, p ∈ desk_products desk ->
      findItem (desk_cart desk) (product_id p) = None -> p ∈ desk_products desk1) /\
   (NoDup (product_id <$> desk_products desk) ->
    forall p ordered,
      p ∈ desk_products desk ->
      findItem (desk_cart desk) (product_id p) = Some ordered ->
      exists p1,
        p1 ∈ desk_products desk1 /\ product_id p1 = product_id p /\
        product_stock p1 == product_stock p - item_quantity ordered)).
Proof.
  split; [apply confirmOrder_placed|].
  split; [|split].
  - unfold confirmOrder. destruct (desk_shop desk); [|reflexivity].
    destruct (Nat.eqb _ 0); [reflexivity|].
    destruct (find _ (desk_cart desk)); [reflexivity|]. cbn. congruence.
  - intros name. unfold confirmOrder. destruct (desk_shop desk); [|discriminate].
    destruct (Nat.eqb _ 0); [discriminate|].
    destruct (find _ (desk_cart desk)) as [bad|] eqn:Ebad; [|discriminate].
    cbn. intros E. injection E as <-. exists bad.
    apply find_some in Ebad as [Hin Hbad]. apply list_elem_of_In in Hin. auto.
  - intros Hplaced desk1.
    pose proof (proj1 (confirmOrder_placed dealers newId now todayIso desk) Hplaced)
      as (_ & _ & Hstock).
    subst desk1. revert Hplaced. unfold confirmOrder.
    destruct (desk_shop desk) as [shop|]; [|discriminate].
    destruct (Nat.eqb _ 0); [discriminate|].
    destruct (find _ (desk_cart desk)); [discriminate|]. intros _. cbn.
    set (upd := fun p =>
                  match findItem (desk_cart desk) (product_id p) with
                  | Some ordered =>
                      setStock p (Qmax 0 (product_stock p - item_quantity ordered))
                  | None => p
                  end).
    assert (Hid : forall p, product_id (upd p) = product_id p).
    { intros p. unfold upd. destruct (findItem _ _); reflexivity. }
    split; [reflexivity|]. split; [eexists; repeat split; reflexivity|].
    split; [|split; [|split]].
    + rewrite <- list_fmap_compose. apply list_fmap_ext. intros i p _. apply Hid.
    + intros p1 Hp1 [ordered Hord].
      apply list_elem_of_fmap in Hp1 as (p & -> & Hp).
      rewrite Hid in Hord. unfold upd. rewrite Hord. cbn. apply Q.le_max_l.
    + intros p Hp Hnone. apply list_elem_of_fmap. exists p. split; [|exact Hp].
      unfold upd. rewrite Hnone. reflexivity.
    + intros Hnd p ordered Hp Hord. exists (upd p).
      split; [apply list_elem_of_fmap_2; exact Hp|]. split; [apply Hid|].
      unfold upd. rewrite Hord. cbn.
      apply find_key_Some in Hord as [Hin Ekey].
      destruct (Hstock ordered Hin) as (prod & Eprod & Hq).
      unfold findProduct in Eprod. rewrite Ekey in Eprod.
      rewrite (find_key_NoDup product_id _ p Hnd Hp) in Eprod. injection Eprod as <-.
      apply Q.max_r. lra.
Qed.

(** ** Cart and product invariants *)

Lemma number_or_bounds (x : option Q) :
  match x with Some d => 0 <= d /\ d <= 100 | None => True end ->
  0 <= number_or x 0 /\ number_or x 0 <= 100.
Proof.
  destruct x as [d|]; cbn.
  - unfold Num.or_default. destruct (Qeq_bool d 0); intros; lra.
  - intros _. lra.
Qed.

(** X24.  The cart keeps its entries well formed: adding a product whose
    price is not negative and whose discount lies between 0 and 100 to a
    cart of well-formed entries (price and quantity not negative, discount
    between 0 and 100), and changing a quantity in such a cart, give such a
    cart again; the empty cart, where every order starts, is such a cart. *)
Theorem X24_cart_invariant :
  (forall (product : Product) (prev : list OrderItem),
      productOk product -> Forall itemOk prev -> Forall itemOk (addToCart product prev)) /\
  (forall (productId : string) (delta : Q) (prev : list OrderItem),
      Forall itemOk prev -> Forall itemOk (updateCartQty productId delta prev)) /\
  Forall itemOk [].
Proof.
  split; [|split].
  - intros product prev [Hp Hd] Hprev. unfold addToCart.
    destruct (find _ prev).
    + apply Forall_fmap. eapply Forall_impl; [exact Hprev|].
      intros item (H1 & H2 & H3 & H4). cbn.
      destruct (String.eqb _ _); unfold itemOk; cbn; repeat split; try assumption. lra.
    + apply Forall_app. split; [exact Hprev|]. constructor; [|constructor].
      destruct (number_or_bounds _ Hd). unfold itemOk. cbn. repeat split; try assumption. lra.
  - intros productId delta prev Hprev. unfold updateCartQty.
    apply Forall_forall. intros item0 Hitem0.
    apply list_elem_of_filter in Hitem0 as [_ Hitem0]. revert item0 Hitem0.
    apply Forall_forall.
    apply Forall_fmap. eapply Forall_impl; [exact Hprev|].
    intros item (H1 & H2 & H3 & H4). cbn.
    destruct (String.eqb _ _); unfold itemOk; cbn; repeat split; try assumption.
    apply Q.le_max_l.
  - constructor.
Qed.

Lemma X24_cart_invariant_witness :
  Forall itemOk (updateCartQty "p1" (-1) (addToCart Samples.rice (addToCart Samples.rice []))).
Proof.
  apply (proj1 (proj2 X24_cart_invariant)).
  apply (proj1 X24_cart_invariant).
  - unfold productOk. cbn. repeat split; vm_compute; discriminate.
  - apply (proj1 X24_cart_invariant).
    + unfold productOk. cbn. repeat split; vm_compute; discriminate.
    + constructor.
Defined.

Section SaveProductExtras.

Variable trim : string -> string.

(** What [saveProduct] does with the product it has built. *)
Lemma saveProduct_saved (newId : string) (now : Z) (editingProduct : option ProductDraft)
    (prev : list Product) :
  (finalProduct trim newId now editingProduct = None ->
   saveProduct trim newId now editingProduct prev = prev) /\
  (forall final,
      finalProduct trim newId now editingProduct = Some final ->
      0 <= product_price final /\ 0 <= product_stock final /\
      (exists d, product_discount final = Some d /\ 0 <= d /\ d <= 100) /\
      productOk final /\
      product_name final <> "" /\
      product_isArchived final = Some false /\
      final ∈ saveProduct trim newId now editingProduct prev /\
      (forall p, p ∈ saveProduct trim newId now editingProduct prev <->
                 p = final \/ (p ∈ prev /\ product_id p <> product_id final)) /\
      (product_id final ∈ product_id <$> prev ->
       product_id <$> saveProduct trim newId now editingProduct prev = product_id <$> prev) /\
      (product_id final ∉ product_id <$> prev ->
       saveProduct trim newId now editingProduct prev = final :: prev)).
Proof.
  split.
  - intros Hnone. unfold saveProduct. rewrite Hnone. reflexivity.
  - intros final Hfinal.
    assert (Hbounds : 0 <= product_price final /\ 0 <= product_stock final /\
                      (exists d, product_discount final = Some d /\ 0 <= d /\ d <= 100) /\
                      product_name final <> "" /\ product_isArchived final = Some false).
    { unfold finalProduct in Hfinal.
      destruct editingProduct as [draft|]; [|discriminate].
      destruct (draft_price draft) as [price|]; [|discriminate].
      destruct (String.eqb_spec (string_or (trim <$> draft_name draft) "") "") as [E|E];
        [discriminate|].
      injection Hfinal as <-. cbn.
      split; [apply Q.le_max_l|]. split; [apply Q.le_max_l|].
      split; [|split; [exact E | reflexivity]].
      eexists. split; [reflexivity|]. split.
      - apply Q.min_glb; [lra | apply Q.le_max_l].
      - apply Q.le_min_l. }
    destruct Hbounds as (Hp & Hs & (d & Ed & Hd0 & Hd1) & Hname & Harch).
    split; [exact Hp|]. split; [exact Hs|]. split; [eauto|].
    split; [unfold productOk; rewrite Ed; auto|].
    split; [exact Hname|]. split; [exact Harch|].
    unfold saveProduct. rewrite Hfinal.
    set (f := fun p => if String.eqb (product_id p) (product_id final) then final else p).
    assert (Hmem : forall p, p ∈ f <$> prev <->
                     (p = final /\ product_id final ∈ product_id <$> prev) \/
                     (p ∈ prev /\ product_id p <> product_id final)).
    { intros p. rewrite list_elem_of_fmap. split.
      - intros (q & -> & Hq). unfold f.
        destruct (String.eqb_spec (product_id q) (product_id final)) as [E|E].
        + left. split; [reflexivity|]. rewrite <- E. apply list_elem_of_fmap_2. exact Hq.
        + right. auto.
      - intros [[-> Hin]|[Hp1 Hne]].
        + apply list_elem_of_fmap in Hin as (q & E & Hq). exists q. split; [|exact Hq].
          unfold f. apply String.eqb_eq in E. rewrite String.eqb_sym in E. rewrite E.
          reflexivity.
        + exists p. split; [|exact Hp1]. unfold f.
          apply String.eqb_neq in Hne. rewrite Hne. reflexivity. }
    destruct (existsb _ prev) eqn:Eex.
    + assert (Hin : product_id final ∈ product_id <$> prev).
      { apply existsb_exists in Eex as (q & Hq & E). apply String.eqb_eq in E.
        rewrite <- E. apply list_elem_of_fmap_2, list_elem_of_In. exact Hq. }
      split; [apply Hmem; left; auto|]. split; [|split].
      * intros p. rewrite Hmem. tauto.
      * intros _. rewrite <- list_fmap_compose. apply list_fmap_ext.
        intros i p _. cbn. unfold f.
        destruct (String.eqb_spec (product_id p) (product_id final)); congruence.
      * intros Hn. contradiction.
    + assert (Hnin : product_id final ∉ product_id <$> prev).
      { intros Hin. apply list_elem_of_fmap in Hin as (q & E & Hq).
        assert (existsb (fun p => String.eqb (product_id p) (product_id final)) prev = true).
        { apply existsb_exists. exists q. split; [apply list_elem_of_In; exact Hq|].
          apply String.eqb_eq. congruence. }
        congruence. }
      split; [apply elem_of_cons; left; reflexivity|]. split; [|split].
      * intros p. rewrite elem_of_cons. split.
        -- intros [->|Hp1]; [left; reflexivity|]. right. split; [exact Hp1|].
           intros E. apply Hnin. rewrite <- E. apply list_elem_of_fmap_2. exact Hp1.
        -- intros [->|[Hp1 _]]; auto.
      * intros Hin. contradiction.
      * reflexivity.
Qed.

(** X25.  A draft is saved exactly when it has a name that is not empty
    after trimming and a price: such a draft gives a product with the id of
    the draft (a fresh id if it has none), the trimmed name, the price and
    the stock raised to 0 if negative and the discount brought into 0..100,
    never archived, and that product is in the list afterwards; any other
    draft changes nothing.  Saving replaces the products that have the id of
    the draft, in place, or else puts the new product in front; products
    with another id are untouched. *)
Theorem X25_saveProduct (newId : string) (now : Z) (editingProduct : option ProductDraft)
    (prev : list Product) :
  (finalProduct trim newId now editingProduct = None <->
   match editingProduct with
   | None => True
   | Some draft =>
       draft_price draft = None \/ string_or (trim <$> draft_name draft) "" = ""
   end) /\
  (forall (draft : ProductDraft) (price : Q),
      editingProduct = Some draft ->
      draft_price draft = Some price ->
      string_or (trim <$> draft_name draft) "" <> "" ->
      exists final,
        finalProduct trim newId now editingProduct = Some final /\
        product_id final = string_or (draft_id draft) newId /\
        product_name final = string_or (trim <$> draft_name draft) "" /\
        product_price final = Qmax 0 price /\
        product_stock final = Qmax 0 (number_or (draft_stock draft) 0) /\
        product_discount final
        = Some (Qmin 100 (Qmax 0 (number_or (draft_discount draft) 0))) /\
        product_isArchived final = Some false /\
        final ∈ saveProduct trim newId now editingProduct prev /\
        (product_id final ∉ product_id <$> prev ->
         saveProduct trim newId now editingProduct prev = final :: prev)) /\
  (finalProduct trim newId now editingProduct = None ->
   saveProduct trim newId now editingProduct prev = prev) /\
  (forall final,
      finalProduct trim newId now editingProduct = Some final ->
      0 <= product_price final /\ 0 <= product_stock final /\
      (exists d, product_discount final = Some d /\ 0 <= d /\ d <= 100) /\
      productOk final /\
      product_name final <> "" /\
      product_isArchived final = Some false /\
      final ∈ saveProduct trim newId now editingProduct prev /\
      (forall p, p ∈ saveProduct trim newId now editingProduct prev <->
                 p = final \/ (p ∈ prev /\ product_id p <> product_id final)) /\
      (product_id final ∈ product_id <$> prev ->
       product_id <$> saveProduct trim newId now editingProduct prev = product_id <$> prev) /\
      (product_id final ∉ product_id <$> prev ->
       saveProduct trim newId now editingProduct prev = final :: prev)).
Proof.
  split; [|split; [|exact (saveProduct_saved newId now editingProduct prev)]].
  - unfold finalProduct. destruct editingProduct as [draft|]; [|tauto].
    destruct (draft_price draft) as [price|]; [|tauto].
    destruct (String.eqb_spec (string_or (trim <$> draft_name draft) "") "") as [E|E].
    + tauto.
    + split; [discriminate|]. intros [H|H]; [discriminate | contradiction].
  - intros draft price -> Hprice Hname.
    assert (E : exists final, finalProduct trim newId now (Some draft) = Some final /\
                  product_id final = string_or (draft_id draft) newId /\
                  product_name final = string_or (trim <$> draft_name draft) "" /\
                  product_price final = Qmax 0 price /\
                  product_stock final = Qmax 0 (number_or (draft_stock draft) 0) /\
                  product_discount final
                  = Some (Qmin 100 (Qmax 0 (number_or (draft_discount draft) 0))) /\
                  product_isArchived final = Some false).
    { unfold finalProduct. rewrite Hprice.
      destruct (String.eqb_spec (string_or (trim <$> draft_name draft) "") "") as [E|E];
        [contradiction|].
      eexists. split; [reflexivity|]. cbn. repeat split; reflexivity. }
    destruct E as (final & Efinal & Hid & Hnm & Hpr & Hst & Hdi & Har).
    exists final. do 7 (split; [assumption|]).
    destruct (saveProduct_saved newId now (Some draft) prev) as [_ Hsaved].
    destruct (Hsaved final Efinal) as (_ & _ & _ & _ & _ & _ & Hin & _ & _ & Hnew).
    split; assumption.
Qed.

End SaveProductExtras.

(** A draft without an id, with stock -3 and discount 120: the saved
    product gets the fresh id, stock 0 and discount 100, and goes in front
    ([trim] is the identity on a name without spaces around it). *)
Lemma X25_saveProduct_witness :
  exists final,
    finalProduct (fun s => s) "p9" 1000
      (Some (mkDraft None (Some "Rice 5kg") None (Some 500) (Some 120) (Some (-3))
               None None None None)) = Some final /\
    product_id final = "p9" /\
    product_name final = "Rice 5kg" /\
    product_price final = Qmax 0 500 /\
    product_stock final = Qmax 0 (-3) /\
    product_discount final = Some (Qmin 100 (Qmax 0 120)) /\
    product_isArchived final = Some false /\
    final ∈ saveProduct (fun s => s) "p9" 1000
              (Some (mkDraft None (Some "Rice 5kg") None (Some 500) (Some 120) (Some (-3))
                       None None None None)) [Samples.oil] /\
    (product_id final ∉ product_id <$> [Samples.oil] ->
     saveProduct (fun s => s) "p9" 1000
       (Some (mkDraft None (Some "Rice 5kg") None (Some 500) (Some 120) (Some (-3))
                None None None None)) [Samples.oil]
     = final :: [Samples.oil]).
Proof.
  apply (proj1 (proj2 (X25_saveProduct (fun s => s) "p9" 1000
                         (Some (mkDraft None (Some "Rice 5kg") None (Some 500) (Some 120)
                                  (Some (-3)) None None None None))
                         [Samples.oil]))
           (mkDraft None (Some "Rice 5kg") None (Some 500) (Some 120) (Some (-3))
              None None None None) 500 eq_refl eq_refl).
  discriminate.
Defined.

(** ** Where a route starts *)

Section StartExtras.

Context {M : MathLib}.

(** X26.  A route starts where the agent was last seen: when tracking is
    started after a fix, the one point of the new path and the dwell anchor
    are the current location produced by that fix (with its heading and
    speed), the counter is zero and the filter is reset; when no location
    has ever been obtained, the route starts at the default point
    (23.8103, 90.4125). *)
Theorem X26_route_starts_at_last_location :
  (forall (c : Coords) (now : Z) (st : App) (newId today : string) (now1 : Z),
      isTracking st = false ->
      exists st1 calls loc r,
        watchCallback c now st = Some (st1, calls) /\
        currentLocation st1 = Some loc /\
        heading loc = coords_heading c /\ speed loc = coords_speed c /\
        activeRoute (toggleTracking newId today now1 st1) = Some r /\
        path r = [loc] /\ stops r = [] /\ startTime r = now1 /\
        lastStopCheckLocRef (toggleTracking newId today now1 st1) = Some loc /\
        staticTimeCounterRef (toggleTracking newId today now1 st1) = 0%nat /\
        variance (kalmanStateRef (toggleTracking newId today now1 st1)) = -1) /\
  (forall (st : App) (newId today : string) (now1 : Z),
      isTracking st = false ->
      currentLocation st = None ->
      exists r,
        activeRoute (toggleTracking newId today now1 st) = Some r /\
        path r = [mkLoc (238103 # 10000) (904125 # 10000) None None]).
Proof.
  split.
  - intros c now st newId today now1 Hidle.
    destruct (watchCallback_frame c now st)
      as (st1 & calls & Hcb & _ & _ & _ & _ & _ & Htr & _).
    assert (Hloc : exists loc, currentLocation st1 = Some loc /\
                               heading loc = coords_heading c /\
                               speed loc = coords_speed c).
    { revert Hcb. unfold watchCallback.
      destruct (applyKalmanFilter _ _ _ _) as [[kalman1 smoothed]|]; [|discriminate].
      cbn [mbind option_bind]. destruct (checkShops _ _ _) as [alerted1 calls1].
      intros E. injection E as <- _. cbn. eauto. }
    destruct Hloc as (loc & Hloc & Hh & Hs).
    eexists st1, calls, loc, _. split; [exact Hcb|]. split; [exact Hloc|].
    split; [exact Hh|]. split; [exact Hs|].
    unfold toggleTracking, startLocation. rewrite Htr, Hidle, Hloc. cbn.
    repeat split; reflexivity.
  - intros st newId today now1 Hidle Hnone.
    unfold toggleTracking, startLocation. rewrite Hidle, Hnone. cbn.
    eexists. split; reflexivity.
Qed.

End StartExtras.

(** ** More witnesses *)

Lemma X4_move_restarts_dwell_witness :
  rec_counter
    (recordRun (M := decimalMath)
       [(north 300, 1%Z); (north 305, 2%Z); (north 310, 3%Z); (north 300, 4%Z)]
       [bazarShop] [uttara] startedRecorder) = 3%nat.
Proof.
  destruct (X4_move_restarts_dwell (M := decimalMath) (north 300, 1%Z)
              [(north 305, 2%Z); (north 310, 3%Z); (north 300, 4%Z)]
              [bazarShop] [uttara] startedRecorder dhaka eq_refl) as (_ & Hc & _).
  - vm_compute. discriminate.
  - intros u Hu.
    repeat (apply elem_of_cons in Hu as [->|Hu]; [vm_compute; reflexivity|]).
    inversion Hu.
  - exact Hc.
Defined.

Lemma X5_stop_numbers_consecutive_witness :
  stopNumber <$>
    stops
      (rec_route
         (recordRun (M := decimalMath)
            [(north 9, 1%Z); (dhaka, 2%Z); (north 18, 3%Z); (north 300, 4%Z);
             (north 305, 5%Z); (north 310, 6%Z); (north 300, 7%Z)]
            [bazarShop] [uttara] startedRecorder))
  = seq 1 2.
Proof.
  rewrite (X5_stop_numbers_consecutive (M := decimalMath)
             [(north 9, 1%Z); (dhaka, 2%Z); (north 18, 3%Z); (north 300, 4%Z);
              (north 305, 5%Z); (north 310, 6%Z); (north 300, 7%Z)]
             [bazarShop] [uttara] startedRecorder eq_refl).
  vm_compute. reflexivity.
Defined.

Lemma X26_route_starts_at_last_location_witness :
  exists r,
    activeRoute (toggleTracking "r1" "02/11/2026" 0 (initialApp [] [] [] None None)) = Some r /\
    path r = [dhaka].
Proof.
  exact (proj2 (X26_route_starts_at_last_location (M := decimalMath))
           (initialApp [] [] [] None None) "r1" "02/11/2026" 0%Z eq_refl eq_refl).
Defined.

(** ** The distance *)

Section DistanceExtras.

Context {M : MathLib}.

(** What the property below needs of the [Math] functions: equal numbers
    give equal results, the sine and the square root of zero are zero, the
    square root of one is positive, and the arc tangent of [0 / x] is zero
    for a positive [x]. *)
Context (sin_proper : Proper (Qeq ==> Qeq) Math_sin)
        (sqrt_proper : Proper (Qeq ==> Qeq) Math_sqrt)
        (atan2_proper : Proper (Qeq ==> Qeq ==> Qeq) Math_atan2)
        (sin_zero : Math_sin 0 == 0)
        (sqrt_zero : Math_sqrt 0 == 0)
        (sqrt_one : 0 < Math_sqrt 1)
        (atan2_zero : forall x, 0 < x -> Math_atan2 0 x == 0).

Lemma calculateDistance_same (p q : GeoLocation) :
  lat p == lat q -> lng p == lng q -> calculateDistance p q == 0.
Proof.
  intros Hlat Hlng. unfold calculateDistance. cbv zeta.
  assert (E1 : (lat q - lat p) * Math_PI / 180 / 2 == 0) by (rewrite Hlat; field).
  assert (E2 : (lng q - lng p) * Math_PI / 180 / 2 == 0) by (rewrite Hlng; field).
  rewrite E1, E2, sin_zero.
  assert (Ea : 0 * 0
               + Math_cos (lat p * Math_PI / 180) * Math_cos (lat q * Math_PI / 180) * 0 * 0
               == 0) by ring.
  rewrite Ea.
  assert (E10 : 1 - 0 == 1) by ring.
  rewrite E10, sqrt_zero, (atan2_zero _ sqrt_one). ring.
Qed.

(** X27.  The distance between two locations with the same latitude and
    longitude is zero (heading and speed play no part), for any [Math]
    functions with the properties above; so a shop registered at the
    current position is within every detection radius that is not
    negative, and [atShop] then returns a shop. *)
Theorem X27_distance_zero_at_same_position :
  (forall p q : GeoLocation,
      lat p == lat q -> lng p == lng q -> calculateDistance p q == 0) /\
  (forall (S : list Shop) (p : GeoLocation) (r : Q) (s : Shop),
      s ∈ S ->
      lat (shop_location s) == lat p -> lng (shop_location s) == lng p ->
      0 <= r ->
      is_Some (atShop (shopsWithDistances S (Some p)) r)).
Proof.
  split; [exact calculateDistance_same|].
  intros S p r s Hs Hlat Hlng Hr.
  destruct (atShop (shopsWithDistances S (Some p)) r) as [x|] eqn:E; [eauto|].
  exfalso.
  pose proof (calculateDistance_same p (shop_location s)) as Hzero.
  assert (Hfar : r < distance (mkSWD s (calculateDistance p (shop_location s)))).
  { apply (atShop_none _ _ E). cbn.
    apply (list_elem_of_fmap_2
             (fun shop => mkSWD shop (calculateDistance p (shop_location shop)))).
    exact Hs. }
  cbn [distance] in Hfar.
  assert (calculateDistance p (shop_location s) == 0)
    by (apply Hzero; symmetry; assumption).
  lra.
Qed.

End DistanceExtras.

(** The decimal instance has the properties the distance needs. *)
Lemma decimal_cut_proper : Proper (Qeq ==> eq) DecimalMath.cut.
Proof.
  intros x y E. unfold DecimalMath.cut. f_equal. apply Qfloor_comp. rewrite E. reflexivity.
Qed.

Lemma decimal_sin_proper : Proper (Qeq ==> Qeq) DecimalMath.sin.
Proof.
  intros x y E. unfold DecimalMath.sin.
  assert (E2 : DecimalMath.cut (x * x) = DecimalMath.cut (y * y))
    by (apply decimal_cut_proper; rewrite E; reflexivity).
  rewrite E2.
  assert (E3 : forall a b : Q, a = b -> a == b) by (intros a b ->; reflexivity).
  apply E3. apply decimal_cut_proper. rewrite E. reflexivity.
Qed.

Lemma decimal_sqrt_proper : Proper (Qeq ==> Qeq) DecimalMath.sqrt.
Proof.
  intros x y E. unfold DecimalMath.sqrt.
  rewrite (Qleb_comp x y E 0 0 (Qeq_refl 0)).
  destruct (Qle_bool y 0); [reflexivity|].
  assert (E2 : Qfloor (x * (Z.pos (DecimalMath.scale * DecimalMath.scale) # 1))
               = Qfloor (y * (Z.pos (DecimalMath.scale * DecimalMath.scale) # 1)))
    by (apply Qfloor_comp; rewrite E; reflexivity).
  rewrite E2. reflexivity.
Qed.

Lemma decimal_atan2_proper : Proper (Qeq ==> Qeq ==> Qeq) DecimalMath.atan2.
Proof.
  intros y1 y2 Ey x1 x2 Ex. unfold DecimalMath.atan2.
  rewrite (Qleb_comp x1 x2 Ex 0 0 (Qeq_refl 0)).
  rewrite (Qleb_comp y1 y2 Ey 0 0 (Qeq_refl 0)).
  destruct (Qle_bool x2 0); [reflexivity|].
  assert (E : DecimalMath.cut (y1 / x1) = DecimalMath.cut (y2 / x2))
    by (apply decimal_cut_proper; rewrite Ey, Ex; reflexivity).
  rewrite E. reflexivity.
Qed.

Lemma decimal_atan2_zero (x : Q) : 0 < x -> DecimalMath.atan2 0 x == 0.
Proof.
  intros Hx. unfold DecimalMath.atan2.
  assert (E : Qle_bool x 0 = false).
  { apply not_true_iff_false. intros H. apply Qle_bool_iff in H. lra. }
  rewrite E.
  assert (E0 : DecimalMath.cut (0 / x) = DecimalMath.cut 0)
    by (apply decimal_cut_proper; field; lra).
  rewrite E0. reflexivity.
Qed.

Lemma X27_distance_zero_at_same_position_witness :
  calculateDistance (M := decimalMath) dhaka (mkLoc (238103 # 10000) (904125 # 10000) (Some 90) None)
  == 0.
Proof.
  apply (proj1 (X27_distance_zero_at_same_position (M := decimalMath)
                  decimal_sin_proper decimal_sqrt_proper decimal_atan2_proper
                  (Qeq_refl 0) (Qeq_refl 0) eq_refl decimal_atan2_zero));
    reflexivity.
Defined.
